(** * The monthly alignment and feature pipeline of [data_processing.py]

    A shallow embedding of the second stage of the study's batch pipeline:
    the frequency aligner ([interpolate_gdp_to_monthly],
    [resample_daily_to_monthly_end], [align_all_series_to_monthly]) and the
    feature engine ([compute_debasement_indicators] ...
    [build_analysis_dataframe]), with the one pure function of the
    collection stage in [collect_raw_data.py], [build_metadata_entry].

    Modelling decisions, in one place:
    - a [float64] cell is an extended real: [NaN], the two infinities, or a
      finite real number.  Rounding, overflow and the sign of zero are not
      modelled: arithmetic on finite cells is exact real arithmetic, which is
      what the statements "within floating-point tolerance" idealise;
    - a pandas missing value in a float column is [NaN];
    - a timestamp is a calendar date at midnight (the CSV files carry dates);
    - a pandas [Series] is a name and a list of (date, cell) pairs, a
      [DataFrame] an index and an ordered list of named columns;
    - a Python exception is a value [Raise cls labels] of type [exn];
    - the feature functions assign columns into the frame they are handed, so
      they run in a state-and-error monad over a store of frames; the aligner
      only builds new objects and is a function into [result];
    - the slope vector of scipy's [CubicSpline] (the solution of the
      not-a-knot system, computed by LAPACK) is a parameter of the model. *)

From Stdlib Require Import Reals Lra Lia ZArith String List Bool.
From stdpp Require Import base list.
Import ListNotations.

Local Open Scope string_scope.
Local Open Scope Z_scope.

(** ** float64 cells *)

Inductive float : Type :=
| NaN
| PInf
| NInf
| Fin (r : R).

Definition isnan (x : float) : bool :=
  match x with NaN => true | _ => false end.

Definition notna (x : float) : bool := negb (isnan x).

Definition isfinite (x : float) : bool :=
  match x with Fin _ => true | _ => false end.

Definition inf (positive : bool) : float :=
  if positive then PInf else NInf.

(** [Some true] for a positive cell, [Some false] for a negative one,
    [None] for zero and for [NaN]. *)
Definition fsign (x : float) : option bool :=
  match x with
  | NaN => None
  | PInf => Some true
  | NInf => Some false
  | Fin r => if Rlt_dec 0 r then Some true
             else if Rlt_dec r 0 then Some false else None
  end.

Definition fneg (x : float) : float :=
  match x with
  | NaN => NaN
  | PInf => NInf
  | NInf => PInf
  | Fin r => Fin (- r)
  end.

Definition fadd (x y : float) : float :=
  match x, y with
  | NaN, _ | _, NaN => NaN
  | Fin a, Fin b => Fin (a + b)
  | PInf, NInf | NInf, PInf => NaN
  | PInf, _ | _, PInf => PInf
  | NInf, _ | _, NInf => NInf
  end.

Definition fsub (x y : float) : float := fadd x (fneg y).

Definition fmul (x y : float) : float :=
  match x, y with
  | NaN, _ | _, NaN => NaN
  | Fin a, Fin b => Fin (a * b)
  | _, _ =>
      match fsign x, fsign y with
      | Some s, Some t => inf (Bool.eqb s t)
      | _, _ => NaN
      end
  end.

Definition fdiv (x y : float) : float :=
  match x, y with
  | NaN, _ | _, NaN => NaN
  | Fin a, Fin b =>
      if Req_dec_T b 0
      then match fsign x with Some s => inf s | None => NaN end
      else Fin (a / b)
  | Fin _, _ => Fin 0
  | _, Fin b =>
      match fsign x with
      | Some s => inf (if Rlt_dec b 0 then negb s else s)
      | None => NaN
      end
  | _, _ => NaN
  end.

(** [np.log] *)
Definition flog (x : float) : float :=
  match x with
  | Fin a => if Rlt_dec 0 a then Fin (ln a)
             else if Req_dec_T a 0 then NInf else NaN
  | PInf => PInf
  | _ => NaN
  end.

Definition fsqrt (x : float) : float :=
  match x with
  | Fin a => if Rle_dec 0 a then Fin (sqrt a) else NaN
  | PInf => PInf
  | _ => NaN
  end.

Definition of_Z (z : Z) : float := Fin (IZR z).
Definition of_nat (n : nat) : float := Fin (INR n).

(** ** Python exceptions *)

(** [Raise cls labels]: an exception of class [cls]; [labels] are the
    offending keys of a [KeyError], or the message of a [ValueError]. *)
Inductive exn : Type :=
| Raise (cls : string) (labels : list string).

Definition exn_class (e : exn) : string :=
  match e with Raise c _ => c end.

Definition KeyError (labels : list string) : exn := Raise "KeyError" labels.
Definition ValueError (msg : string) : exn := Raise "ValueError" [msg].

Inductive result (A : Type) : Type :=
| Ok (a : A)
| Err (e : exn).
Arguments Ok {A} a.
Arguments Err {A} e.

Definition rbind {A B} (r : result A) (k : A -> result B) : result B :=
  match r with
  | Ok a => k a
  | Err e => Err e
  end.


(** ** Calendar dates *)

Record date : Type := mkDate { year : Z; month : Z; day : Z }.

Definition date_eqb (a b : date) : bool :=
  (year a =? year b) && (month a =? month b) && (day a =? day b).

Definition date_leb (a b : date) : bool :=
  (year a <? year b)
  || ((year a =? year b)
      && ((month a <? month b)
          || ((month a =? month b) && (day a <=? day b)))).

Definition is_leap (y : Z) : bool :=
  ((y mod 4 =? 0) && negb (y mod 100 =? 0)) || (y mod 400 =? 0).

Definition days_in_month (y m : Z) : Z :=
  if m =? 2 then (if is_leap y then 29 else 28)
  else if (m =? 4) || (m =? 6) || (m =? 9) || (m =? 11) then 30
  else 31.

Definition valid_date (d : date) : bool :=
  (1 <=? month d) && (month d <=? 12)
  && (1 <=? day d) && (day d <=? days_in_month (year d) (month d)).

(** Months are numbered consecutively: January of year 0 is month 0. *)
Definition month_index (d : date) : Z := year d * 12 + (month d - 1).

Definition first_of_month (k : Z) : date := mkDate (k / 12) (k mod 12 + 1) 1.

Definition month_end_of (k : Z) : date :=
  mkDate (k / 12) (k mod 12 + 1) (days_in_month (k / 12) (k mod 12 + 1)).

(** [d + pd.offsets.MonthEnd(0)]: roll forward to the last day of the month of
    [d] (a date that already is a month end stays). *)
Definition MonthEnd0 (d : date) : date := month_end_of (month_index d).

(** Days since 1970-01-01 in the proleptic Gregorian calendar. *)
Definition days_from_civil (d : date) : Z :=
  let y := if month d <=? 2 then year d - 1 else year d in
  let era := y / 400 in
  let yoe := y - era * 400 in
  let mp := if month d <=? 2 then month d + 9 else month d - 3 in
  let doy := (153 * mp + 2) / 5 + day d - 1 in
  let doe := yoe * 365 + yoe / 4 - yoe / 100 + doy in
  era * 146097 + doe - 719468.

(** [ts.timestamp()]: seconds since the epoch. *)
Definition timestamp (d : date) : Z := 86400 * days_from_civil d.

Definition zrange (lo hi : Z) : list Z :=
  List.map (fun i => lo + Z.of_nat i) (seq 0 (Z.to_nat (hi - lo + 1))).

(** [pd.date_range(start, end, freq="MS")]: every first-of-month date between
    [start] and [end], both included. *)
Definition date_range_MS (start end_ : date) : list date :=
  let lo := if day start <=? 1 then month_index start
            else month_index start + 1 in
  List.map first_of_month (zrange lo (month_index end_)).

Definition date_min (d0 : date) (l : list date) : date :=
  fold_left (fun m d => if date_leb m d then m else d) l d0.

Definition date_max (d0 : date) (l : list date) : date :=
  fold_left (fun m d => if date_leb m d then d else m) l d0.

(** ** Series *)

Record Series : Type := mkSeries {
  s_name : string;
  s_items : list (date * float)
}.

Definition s_index (s : Series) : list date := List.map fst (s_items s).
Definition s_values (s : Series) : list float := List.map snd (s_items s).

Definition rename (s : Series) (n : string) : Series := mkSeries n (s_items s).

(** [Series.dropna()] *)
Definition series_dropna (s : Series) : Series :=
  mkSeries (s_name s) (List.filter (fun p => notna (snd p)) (s_items s)).

Definition mem_date (d : date) (l : list date) : bool :=
  existsb (date_eqb d) l.

(** The cell of [s] at label [d] ([NaN] when [d] is not in the index). *)
Definition series_at (s : Series) (d : date) : float :=
  match List.find (fun p => date_eqb (fst p) d) (s_items s) with
  | Some p => snd p
  | None => NaN
  end.

(** Last non-missing value of a group, [NaN] for a group without one. *)
Definition last_valid (g : list (date * float)) : float :=
  fold_left (fun acc p => if isnan (snd p) then acc else snd p) g NaN.

Definition in_month (k : Z) (p : date * float) : bool :=
  month_index (fst p) =? k.

(** [s.resample("ME").last()] on an ascending index (the loader sorts): one
    row per calendar month from the month of the first observation to the
    month of the last one, labelled with the month end and holding the last
    non-missing observation of the month. *)
Definition resample_ME_last (s : Series) : Series :=
  match s_items s with
  | [] => mkSeries (s_name s) []
  | (d0, _) :: _ =>
      let ks := List.map month_index (s_index s) in
      let lo := fold_left Z.min ks (month_index d0) in
      let hi := fold_left Z.max ks (month_index d0) in
      mkSeries (s_name s)
        (List.map (fun k => (month_end_of k,
                             last_valid (List.filter (in_month k) (s_items s))))
                  (zrange lo hi))
  end.

(** [resample_daily_to_monthly_end] *)
Definition resample_daily_to_monthly_end (daily_series : Series) : Series :=
  resample_ME_last daily_series.

(** ** DataFrames *)

Record DataFrame : Type := mkDF {
  df_index : list date;
  df_columns : list (string * list float)
}.

Definition col_names (df : DataFrame) : list string :=
  List.map fst (df_columns df).

Definition nrows (df : DataFrame) : nat := length (df_index df).

Definition has_column (df : DataFrame) (c : string) : bool :=
  existsb (String.eqb c) (col_names df).

(** The column labelled [c], if there is one. *)
Definition get_column (df : DataFrame) (c : string) : option (list float) :=
  option_map snd (List.find (fun p => String.eqb (fst p) c) (df_columns df)).

(** The cell of column [c] in row [i] ([NaN] outside the frame). *)
Definition cell (df : DataFrame) (c : string) (i : nat) : float :=
  match get_column df c with
  | Some v => nth i v NaN
  | None => NaN
  end.

(** Every column has one cell per row. *)
Definition rectangular (df : DataFrame) : Prop :=
  Forall (fun p => length (snd p) = nrows df) (df_columns df).

(** [pd.concat(series, axis=1, join="inner")]: the rows are the labels of
    the first series that every other series has too, in the order of the
    first series; one column per series, named after it. *)
Definition concat_inner (ss : list Series) : DataFrame :=
  match ss with
  | [] => mkDF [] []
  | s0 :: rest =>
      let idx := List.filter
                   (fun d => forallb (fun s => mem_date d (s_index s)) rest)
                   (s_index s0) in
      mkDF idx (List.map (fun s => (s_name s, List.map (series_at s) idx)) ss)
  end.

(** Keep the entries of [l] whose position is marked in [mask]. *)
Fixpoint select {A} (mask : list bool) (l : list A) : list A :=
  match mask, l with
  | b :: m, x :: t => if b then x :: select m t else select m t
  | _, _ => []
  end.

Definition filter_rows (mask : list bool) (df : DataFrame) : DataFrame :=
  mkDF (select mask (df_index df))
       (List.map (fun p => (fst p, select mask (snd p))) (df_columns df)).

(** [df.loc[start:]] on an ascending index: the rows labelled [start] or
    later. *)
Definition df_loc_from (start : date) (df : DataFrame) : DataFrame :=
  filter_rows (List.map (date_leb start) (df_index df)) df.

Definition row_has_nan (df : DataFrame) (i : nat) : bool :=
  existsb (fun p => isnan (nth i (snd p) NaN)) (df_columns df).

(** [df.dropna()]: the rows without a missing cell. *)
Definition df_dropna (df : DataFrame) : DataFrame :=
  filter_rows (List.map (fun i => negb (row_has_nan df i)) (seq 0 (nrows df))) df.

(** [s.index = s.index + pd.offsets.MonthEnd(0)]: the same values, each
    label moved to the end of its month. *)
Definition index_to_month_end (s : Series) : Series :=
  mkSeries (s_name s)
           (List.map (fun p => (MonthEnd0 (fst p), snd p)) (s_items s)).

(** BTC data starts meaningfully around late 2014 (module constant). *)
Definition BTC_SERIES_START : date := mkDate 2014 1 1.

(** ** scipy's CubicSpline *)

(** The slopes of the spline at its knots: the solution of the tridiagonal
    system that [CubicSpline] builds for its default not-a-knot boundary
    condition and hands to LAPACK.  The solver is an interface of the model;
    the piecewise polynomial below is built from whatever it returns. *)
Class SplineSolver : Type :=
  solve_slopes : list (Z * R) -> list R.

(** A spline object: its knots (x, y) with the slope at each knot. *)
Record spline : Type := mkSpline { sp_knots : list (Z * R * R) }.

Fixpoint finite_values (l : list float) : option (list R) :=
  match l with
  | [] => Some []
  | Fin r :: t =>
      match finite_values t with
      | Some rs => Some (r :: rs)
      | None => None
      end
  | _ :: _ => None
  end.

Fixpoint strictly_increasing (l : list Z) : bool :=
  match l with
  | a :: (b :: _) as t => (a <? b) && strictly_increasing t
  | _ => true
  end.

Fixpoint attach_slopes (pts : list (Z * R)) (s : list R) : list (Z * R * R) :=
  match pts with
  | [] => []
  | p :: ps => (p, hd 0%R s) :: attach_slopes ps (tl s)
  end.

(** The cubic on the interval between two consecutive knots, in the form
    scipy stores it: coefficients [c0 .. c3] of the powers of [x - x0]. *)
Definition piece (k0 k1 : Z * R * R) (x : Z) : R :=
  let '(x0, y0, s0) := k0 in
  let '(x1, y1, s1) := k1 in
  let dx := IZR (x1 - x0) in
  let slope := ((y1 - y0) / dx)%R in
  let t := ((s0 + s1 - 2 * slope) / dx)%R in
  let c0 := (t / dx)%R in
  let c1 := ((slope - s0) / dx - t)%R in
  let c2 := s0 in
  let c3 := y0 in
  let h := IZR (x - x0) in
  (c0 * (h * h * h) + c1 * (h * h) + c2 * h + c3)%R.

(** Evaluation: the interval [x_i <= x < x_(i+1)] is located, the last one
    being closed on the right; outside the knots the first or last cubic is
    extended. *)
Fixpoint ppoly_eval (ks : list (Z * R * R)) (x : Z) : R :=
  match ks with
  | k0 :: ((k1 :: rest) as t) =>
      match rest with
      | [] => piece k0 k1 x
      | _ :: _ => if x <? fst (fst k1) then piece k0 k1 x else ppoly_eval t x
      end
  | _ => 0%R
  end.

Definition spline_call (sp : spline) (x : Z) : float :=
  Fin (ppoly_eval (sp_knots sp) x).

Section Aligner.
Context `{SplineSolver}.

Definition CubicSpline (x : list Z) (y : list float) : result spline :=
  if (length x <? 2)%nat
  then Err (ValueError "`x` must contain at least 2 elements.")
  else match finite_values y with
       | None => Err (ValueError "`y` must contain only finite values.")
       | Some ys =>
           if strictly_increasing x
           then Ok (mkSpline (attach_slopes (combine x ys)
                                            (solve_slopes (combine x ys))))
           else Err (ValueError "`x` must be strictly increasing sequence.")
       end.

(** [interpolate_gdp_to_monthly] *)
Definition interpolate_gdp_to_monthly (gdp_quarterly : Series) : result Series :=
  let gdp_clean := series_dropna gdp_quarterly in
  let numeric_timestamps := List.map timestamp (s_index gdp_clean) in
  let gdp_values := s_values gdp_clean in
  rbind (CubicSpline numeric_timestamps gdp_values) (fun spl =>
  let monthly_index :=
    match s_index gdp_clean with
    | [] => []
    | d0 :: ds => date_range_MS (date_min d0 ds) (date_max d0 ds)
    end in
  let interpolated_values :=
    List.map (fun d => spline_call spl (timestamp d)) monthly_index in
  Ok (mkSeries "gdp_monthly" (combine monthly_index interpolated_values))).

(** [align_all_series_to_monthly].  Its three diagnostic prints are logging
    and are not modelled. *)
Definition align_all_series_to_monthly
    (m2 cpi gdp fed_funds tips_real_yield btc sp500 gold : Series)
    : result DataFrame :=
  rbind (interpolate_gdp_to_monthly gdp) (fun gdp_monthly =>
  let fed_funds_monthly :=
    rename (resample_daily_to_monthly_end fed_funds) "fed_funds_rate" in
  let tips_monthly :=
    rename (resample_daily_to_monthly_end tips_real_yield) "tips_real_yield_10y" in
  let btc_monthly := rename (resample_daily_to_monthly_end btc) "btc_price" in
  let sp500_monthly := rename (resample_daily_to_monthly_end sp500) "sp500_price" in
  let gold_monthly := rename (resample_daily_to_monthly_end gold) "gold_price" in
  let m2_monthly := rename (resample_ME_last m2) "m2" in
  let cpi_monthly := rename (resample_ME_last cpi) "cpi" in
  let gdp_monthly := index_to_month_end gdp_monthly in
  let combined_df :=
    concat_inner [m2_monthly; cpi_monthly; gdp_monthly; fed_funds_monthly;
                  tips_monthly; btc_monthly; sp500_monthly; gold_monthly] in
  let combined_df := df_loc_from BTC_SERIES_START combined_df in
  let combined_df := df_dropna combined_df in
  Ok combined_df).

End Aligner.

(** ** Column arithmetic (pandas Series methods, by position) *)

Fixpoint map2 {A B C} (f : A -> B -> C) (l : list A) (l' : list B) : list C :=
  match l, l' with
  | a :: t, b :: t' => f a b :: map2 f t t'
  | _, _ => []
  end.

(** [s.shift(n)]: every value moves [n] rows down, the first [n] rows are
    missing. *)
Definition shift (n : nat) (v : list float) : list float :=
  firstn (length v) (repeat NaN n ++ v)%list.

(** [s.pct_change(periods=n)] on a column: [s / s.shift(n) - 1]. *)
Definition pct_change (n : nat) (v : list float) : list float :=
  List.map (fun q => fsub q (Fin 1)) (map2 fdiv v (shift n v)).

Definition fsum (l : list float) : float := fold_right fadd (Fin 0) l.

(** [s.mean()]: missing cells are skipped. *)
Definition series_mean (v : list float) : float :=
  let vals := List.filter notna v in
  match vals with
  | [] => NaN
  | _ :: _ => fdiv (fsum vals) (of_nat (length vals))
  end.

(** [s.std()]: sample standard deviation (one degree of freedom removed),
    missing cells skipped; [NaN] with fewer than two values. *)
Definition series_std (v : list float) : float :=
  let vals := List.filter notna v in
  let count := length vals in
  if (count <=? 1)%nat then NaN
  else
    let avg := fdiv (fsum vals) (of_nat count) in
    let sqr := List.map (fun x => fmul (fsub avg x) (fsub avg x)) vals in
    fsqrt (fdiv (fsum sqr) (of_nat (count - 1))).

(** [frame.mean(axis=1)] of a frame with columns [cols] and [n] rows. *)
Definition row_mean (cols : list (list float)) (n : nat) : list float :=
  List.map (fun i => series_mean (List.map (fun c => nth i c NaN) cols)) (seq 0 n).

(** ** Frames in the store *)

(** [df[c] = v]: an existing column is replaced where it stands, a new one
    is appended. *)
Definition df_set (df : DataFrame) (c : string) (v : list float) : DataFrame :=
  if has_column df c
  then mkDF (df_index df)
            (List.map (fun p => if String.eqb (fst p) c then (c, v) else p)
                      (df_columns df))
  else mkDF (df_index df) (df_columns df ++ [(c, v)])%list.

Definition df_drop (df : DataFrame) (cs : list string) : DataFrame :=
  mkDF (df_index df)
       (List.filter (fun p => negb (existsb (String.eqb (fst p)) cs))
                    (df_columns df)).

Definition missing_columns (df : DataFrame) (cs : list string) : list string :=
  List.filter (fun c => negb (has_column df c)) cs.

(** The store: frames are objects, a variable holds a reference. *)
Abbreviation ref := nat (only parsing).
Abbreviation heap := (list DataFrame) (only parsing).

Definition M (A : Type) : Type := heap -> result A * heap.

Definition ret {A} (a : A) : M A := fun h => (Ok a, h).

Definition raise {A} (e : exn) : M A := fun h => (Err e, h).

Definition bind {A B} (m : M A) (k : A -> M B) : M B :=
  fun h =>
    match m h with
    | (Ok a, h') => k a h'
    | (Err e, h') => (Err e, h')
    end.

Notation "'do' x <- m ; k" := (bind m (fun x => k))
  (at level 10, x name, m at level 100, k at level 200).
Notation "'do_' m ; k" := (bind m (fun _ => k))
  (at level 10, m at level 100, k at level 200).

(** A reference that names no object cannot arise from the functions
    below; the case is kept so that [load] is total. *)
Definition load (r : ref) : M DataFrame :=
  fun h =>
    match h !! r with
    | Some df => (Ok df, h)
    | None => (Err (Raise "ReferenceError" []), h)
    end.

Definition store (r : ref) (df : DataFrame) : M unit :=
  fun h => (Ok tt, <[r := df]> h).

Definition alloc (df : DataFrame) : M ref :=
  fun h => (Ok (length h), (h ++ [df])%list).

(** [df[c]] *)
Definition getitem (r : ref) (c : string) : M (list float) :=
  do df <- load r;
  match get_column df c with
  | Some v => ret v
  | None => raise (KeyError [c])
  end.

(** [df[cs]] with a list of labels *)
Definition getitems (r : ref) (cs : list string) : M (list (list float)) :=
  do df <- load r;
  match missing_columns df cs with
  | [] => ret (List.map (fun c => List.map (cell df c) (seq 0 (nrows df))) cs)
  | c :: t => raise (KeyError (c :: t))
  end.

(** [df[c] = v], in place *)
Definition setitem (r : ref) (c : string) (v : list float) : M unit :=
  do df <- load r;
  store r (df_set df c v).

(** [df.drop(columns=cs)]: a new frame *)
Definition drop_columns (r : ref) (cs : list string) : M ref :=
  do df <- load r;
  match missing_columns df cs with
  | [] => alloc (df_drop df cs)
  | c :: t => raise (KeyError (c :: t))
  end.

(** [df.copy()] *)
Definition copy (r : ref) : M ref :=
  do df <- load r;
  alloc df.

(** [df.dropna()]: a new frame *)
Definition dropna (r : ref) : M ref :=
  do df <- load r;
  alloc (df_dropna df).

(** ** The feature engine *)

(** Debasement indicator column names used across multiple functions
    (module constant). *)
Definition DEBASEMENT_INDICATOR_COLUMNS : list string :=
  ["m2_yoy_pct"; "cpi_yoy_pct"; "real_m2_growth"; "m2_to_gdp"].

Definition times100 (v : list float) : list float :=
  List.map (fun x => fmul x (Fin 100)) v.

(** [compute_debasement_indicators] *)
Definition compute_debasement_indicators (df : ref) : M ref :=
  do m2 <- getitem df "m2";
  do_ setitem df "m2_yoy_pct" (times100 (pct_change 12 m2));
  do cpi <- getitem df "cpi";
  do_ setitem df "cpi_yoy_pct" (times100 (pct_change 12 cpi));
  do m2_yoy <- getitem df "m2_yoy_pct";
  do cpi_yoy <- getitem df "cpi_yoy_pct";
  do_ setitem df "real_m2_growth" (map2 fsub m2_yoy cpi_yoy);
  do m2 <- getitem df "m2";
  do gdp <- getitem df "gdp_monthly";
  do_ setitem df "m2_to_gdp" (map2 fdiv m2 gdp);
  do df <- drop_columns df ["m2"; "cpi"; "gdp_monthly"];
  ret df.

(** [np.log(price / price.shift(1))] *)
Definition log_return (price shifted : list float) : list float :=
  List.map flog (map2 fdiv price shifted).

(** [compute_asset_returns] *)
Definition compute_asset_returns (df : ref) : M ref :=
  do p <- getitem df "btc_price";
  do q <- getitem df "btc_price";
  do_ setitem df "btc_return_monthly" (log_return p (shift 1 q));
  do p <- getitem df "sp500_price";
  do q <- getitem df "sp500_price";
  do_ setitem df "sp500_return_monthly" (log_return p (shift 1 q));
  do p <- getitem df "gold_price";
  do q <- getitem df "gold_price";
  do_ setitem df "gold_return_monthly" (log_return p (shift 1 q));
  do df <- drop_columns df ["btc_price"; "sp500_price"; "gold_price"];
  ret df.

(** [(rate - inflation) / 12 / 100], cell by cell *)
Definition cash_real_return (rate inflation : float) : float :=
  fdiv (fdiv (fsub rate inflation) (Fin 12)) (Fin 100).

(** [compute_cash_real_return] *)
Definition compute_cash_real_return (df : ref) : M ref :=
  do rate <- getitem df "fed_funds_rate";
  do inflation <- getitem df "cpi_yoy_pct";
  do_ setitem df "cash_real_return_monthly" (map2 cash_real_return rate inflation);
  ret df.

(** [compute_spread_features] *)
Definition compute_spread_features (df : ref) : M ref :=
  do a <- getitem df "btc_return_monthly";
  do c <- getitem df "cash_real_return_monthly";
  do_ setitem df "btc_vs_cash_real_spread" (map2 fsub a c);
  do a <- getitem df "gold_return_monthly";
  do c <- getitem df "cash_real_return_monthly";
  do_ setitem df "gold_vs_cash_real_spread" (map2 fsub a c);
  do a <- getitem df "sp500_return_monthly";
  do c <- getitem df "cash_real_return_monthly";
  do_ setitem df "sp500_vs_cash_real_spread" (map2 fsub a c);
  ret df.

(** [(column - column_mean) / column_std] *)
Definition zscore (v : list float) (column_mean column_std : float) : list float :=
  List.map (fun x => fdiv (fsub x column_mean) column_std) v.

Definition z_name (column_name : string) : string :=
  ("z_" ++ column_name)%string.

(** The body of the loop of [standardize_debasement_indicators], run over
    the remaining column names. *)
Fixpoint standardize_loop (df : ref) (cols : list string) : M unit :=
  match cols with
  | [] => ret tt
  | column_name :: rest =>
      do x <- getitem df column_name;
      let column_mean := series_mean x in
      do y <- getitem df column_name;
      let column_std := series_std y in
      let standardized_column_name := z_name column_name in
      do v <- getitem df column_name;
      do_ setitem df standardized_column_name (zscore v column_mean column_std);
      standardize_loop df rest
  end.

(** [standardize_debasement_indicators] *)
Definition standardize_debasement_indicators (df : ref) : M ref :=
  do_ standardize_loop df DEBASEMENT_INDICATOR_COLUMNS;
  ret df.

(** [compute_zscore_composite_debasement_score] *)
Definition compute_zscore_composite_debasement_score (df : ref) : M ref :=
  let standardized_columns := List.map z_name DEBASEMENT_INDICATOR_COLUMNS in
  do zs <- getitems df standardized_columns;
  do frame <- load df;
  do_ setitem df "zscore_composite_debasement_score" (row_mean zs (nrows frame));
  ret df.

(** [build_analysis_dataframe] (its prints are not modelled) *)
Definition build_analysis_dataframe (aligned_df : ref) : M ref :=
  do analysis_df <- copy aligned_df;
  do analysis_df <- compute_debasement_indicators analysis_df;
  do analysis_df <- compute_asset_returns analysis_df;
  do analysis_df <- compute_cash_real_return analysis_df;
  do analysis_df <- compute_spread_features analysis_df;
  do analysis_df <- standardize_debasement_indicators analysis_df;
  do analysis_df <- compute_zscore_composite_debasement_score analysis_df;
  do analysis_df <- dropna analysis_df;
  ret analysis_df.

(** ** The pipeline *)

Section Pipeline.
Context `{SplineSolver}.

(** [main], from the loaded series to the frame handed to
    [save_analysis_dataframe], which writes the index and every column of
    it.  The store starts with the aligned frame as its only object. *)
Definition main (m2 cpi gdp fed_funds tips_real_yield btc sp500 gold : Series)
    : result DataFrame :=
  rbind (align_all_series_to_monthly m2 cpi gdp fed_funds tips_real_yield
                                     btc sp500 gold) (fun aligned_df =>
  match build_analysis_dataframe 0%nat [aligned_df] with
  | (Ok analysis_df, h) =>
      match h !! analysis_df with
      | Some frame => Ok frame
      | None => Err (Raise "ReferenceError" [])
      end
  | (Err e, _) => Err e
  end).

End Pipeline.

(** ** Frames: pure counterparts used to describe the store after a run *)

(** The column [c] of [df], empty when [df] has no such column. *)
Definition col (df : DataFrame) (c : string) : list float :=
  match get_column df c with
  | Some v => v
  | None => []
  end.

(** What each stage leaves in the frame it was handed ([*_filled]) and in
    the frame it returns ([*_frame]), as functions of the frame it found. *)

Definition debasement_filled (df : DataFrame) : DataFrame :=
  let d1 := df_set df "m2_yoy_pct" (times100 (pct_change 12 (col df "m2"))) in
  let d2 := df_set d1 "cpi_yoy_pct" (times100 (pct_change 12 (col d1 "cpi"))) in
  let d3 := df_set d2 "real_m2_growth"
              (map2 fsub (col d2 "m2_yoy_pct") (col d2 "cpi_yoy_pct")) in
  df_set d3 "m2_to_gdp" (map2 fdiv (col d3 "m2") (col d3 "gdp_monthly")).

Definition debasement_frame (df : DataFrame) : DataFrame :=
  df_drop (debasement_filled df) ["m2"; "cpi"; "gdp_monthly"].

Definition returns_filled (df : DataFrame) : DataFrame :=
  let d1 := df_set df "btc_return_monthly"
              (log_return (col df "btc_price") (shift 1 (col df "btc_price"))) in
  let d2 := df_set d1 "sp500_return_monthly"
              (log_return (col d1 "sp500_price") (shift 1 (col d1 "sp500_price"))) in
  df_set d2 "gold_return_monthly"
         (log_return (col d2 "gold_price") (shift 1 (col d2 "gold_price"))).

Definition returns_frame (df : DataFrame) : DataFrame :=
  df_drop (returns_filled df) ["btc_price"; "sp500_price"; "gold_price"].

Definition cash_frame (df : DataFrame) : DataFrame :=
  df_set df "cash_real_return_monthly"
         (map2 cash_real_return (col df "fed_funds_rate") (col df "cpi_yoy_pct")).

Definition spread_frame (df : DataFrame) : DataFrame :=
  let d1 := df_set df "btc_vs_cash_real_spread"
              (map2 fsub (col df "btc_return_monthly")
                         (col df "cash_real_return_monthly")) in
  let d2 := df_set d1 "gold_vs_cash_real_spread"
              (map2 fsub (col d1 "gold_return_monthly")
                         (col d1 "cash_real_return_monthly")) in
  df_set d2 "sp500_vs_cash_real_spread"
         (map2 fsub (col d2 "sp500_return_monthly")
                    (col d2 "cash_real_return_monthly")).

Definition standardize_column (df : DataFrame) (c : string) : DataFrame :=
  df_set df (z_name c)
         (zscore (col df c) (series_mean (col df c)) (series_std (col df c))).

Definition standardized_frame (df : DataFrame) : DataFrame :=
  fold_left standardize_column DEBASEMENT_INDICATOR_COLUMNS df.

Definition composite_frame (df : DataFrame) : DataFrame :=
  df_set df "zscore_composite_debasement_score"
         (row_mean (List.map (fun c => List.map (cell df c) (seq 0 (nrows df)))
                             (List.map z_name DEBASEMENT_INDICATOR_COLUMNS))
                   (nrows df)).

Definition features_frame (df : DataFrame) : DataFrame :=
  composite_frame
    (standardized_frame
       (spread_frame (cash_frame (returns_frame (debasement_frame df))))).

(** The frame [build_analysis_dataframe] returns for the aligned frame
    [df]. *)
Definition analysis_frame (df : DataFrame) : DataFrame :=
  df_dropna (features_frame df).

(** The columns of the frame the aligner builds, in the order of the join. *)
Definition ALIGNED_COLUMNS : list string :=
  ["m2"; "cpi"; "gdp_monthly"; "fed_funds_rate"; "tips_real_yield_10y";
   "btc_price"; "sp500_price"; "gold_price"].

(** The derived columns listed in section 4.3 of the specification. *)
Definition DERIVED_COLUMNS : list string :=
  ["m2_yoy_pct"; "cpi_yoy_pct"; "real_m2_growth"; "m2_to_gdp";
   "btc_return_monthly"; "sp500_return_monthly"; "gold_return_monthly";
   "cash_real_return_monthly";
   "btc_vs_cash_real_spread"; "gold_vs_cash_real_spread";
   "sp500_vs_cash_real_spread";
   "z_m2_yoy_pct"; "z_cpi_yoy_pct"; "z_real_m2_growth"; "z_m2_to_gdp";
   "zscore_composite_debasement_score"].

(** The columns of the frame that is saved. *)
Definition OUTPUT_COLUMNS : list string :=
  ("fed_funds_rate" :: "tips_real_yield_10y" :: DERIVED_COLUMNS).

(** The six feature stages and the columns each one reads. *)
Inductive stage : Type :=
| DebasementIndicators
| AssetReturns
| CashRealReturn
| SpreadFeatures
| Standardize
| CompositeScore.

Definition run_stage (st : stage) : ref -> M ref :=
  match st with
  | DebasementIndicators => compute_debasement_indicators
  | AssetReturns => compute_asset_returns
  | CashRealReturn => compute_cash_real_return
  | SpreadFeatures => compute_spread_features
  | Standardize => standardize_debasement_indicators
  | CompositeScore => compute_zscore_composite_debasement_score
  end.

Definition required_columns (st : stage) : list string :=
  match st with
  | DebasementIndicators => ["m2"; "cpi"; "gdp_monthly"]
  | AssetReturns => ["btc_price"; "sp500_price"; "gold_price"]
  | CashRealReturn => ["fed_funds_rate"; "cpi_yoy_pct"]
  | SpreadFeatures =>
      ["btc_return_monthly"; "cash_real_return_monthly";
       "gold_return_monthly"; "sp500_return_monthly"]
  | Standardize => DEBASEMENT_INDICATOR_COLUMNS
  | CompositeScore => List.map z_name DEBASEMENT_INDICATOR_COLUMNS
  end.

(** Membership of a label in a list of labels. *)
Definition mem (c : string) (cs : list string) : bool :=
  existsb (String.eqb c) cs.

(** The outcome of a stage that raises a [KeyError]: the labels it reports
    are columns the stage reads and the frame lacks. *)
Definition key_error_outcome (st : stage) (df : DataFrame) (out : result ref * heap) : Prop :=
  exists labels h',
    out = (Err (KeyError labels), h')
    /\ labels <> []
    /\ Forall (fun l => In l (required_columns st) /\ has_column df l = false)
              labels.

(** ** Sample data *)

(** A one-row frame that has price-index and output columns but no
    money-supply column. *)
Definition frame_without_m2 : DataFrame :=
  mkDF [mkDate 2015 1 31]
       [("cpi", [Fin 100%R]); ("gdp_monthly", [Fin 50%R])].

(** A two-row frame with a policy rate and an inflation column, in percent. *)
Definition rates_frame : DataFrame :=
  mkDF [mkDate 2015 1 31; mkDate 2015 2 28]
       [("fed_funds_rate", [Fin 5%R; Fin 3%R]);
        ("cpi_yoy_pct", [Fin 2%R; NaN])].

(** The labels of a frame after [df[c] = v], from the labels before. *)
Definition names_set (ns : list string) (c : string) : list string :=
  if mem c ns then ns else (ns ++ [c])%list.

Definition names_drop (ns : list string) (cs : list string) : list string :=
  List.filter (fun n => negb (mem n cs)) ns.

(** The eight monthly series that are joined, in the order of the join,
    given the interpolated output series [g]. *)
Definition monthly_series (g m2 cpi fed_funds tips_real_yield btc sp500 gold : Series)
    : list Series :=
  [rename (resample_ME_last m2) "m2";
   rename (resample_ME_last cpi) "cpi";
   index_to_month_end g;
   rename (resample_daily_to_monthly_end fed_funds) "fed_funds_rate";
   rename (resample_daily_to_monthly_end tips_real_yield) "tips_real_yield_10y";
   rename (resample_daily_to_monthly_end btc) "btc_price";
   rename (resample_daily_to_monthly_end sp500) "sp500_price";
   rename (resample_daily_to_monthly_end gold) "gold_price"].

(** Join, clip to the start date, drop the rows with a missing cell. *)
Definition aligned_frame (ss : list Series) : DataFrame :=
  df_dropna (df_loc_from BTC_SERIES_START (concat_inner ss)).

(** The frame with index [idx] whose columns are the series [ss] read at
    the labels of [idx]. *)
Definition frame_of (ss : list Series) (idx : list date) : DataFrame :=
  mkDF idx (List.map (fun s => (s_name s, List.map (series_at s) idx)) ss).

(** A label that every series has. *)
Definition common_label (ss : list Series) (d : date) : bool :=
  forallb (fun s => mem_date d (s_index s)) ss.

(** A label at which no series is missing. *)
Definition complete_label (ss : list Series) (d : date) : bool :=
  forallb (fun s => notna (series_at s d)) ss.

(** The index of the aligned frame: the labels of the first series that are
    common to the others, not before the start date, and complete. *)
Definition aligned_index (ss : list Series) : list date :=
  match ss with
  | [] => []
  | s0 :: rest =>
      List.filter (complete_label ss)
        (List.filter (date_leb BTC_SERIES_START)
           (List.filter (common_label rest) (s_index s0)))
  end.

(** The abscissa of a knot. *)
Definition knot_x (k : Z * R * R) : Z := fst (fst k).

(** The ordinate of a knot. *)
Definition knot_y (k : Z * R * R) : R := snd (fst k).

(** The (timestamp, value) pairs of a series. *)
Definition stamped (s : Series) : list (Z * float) :=
  List.map (fun p => (timestamp (fst p), snd p)) (s_items s).

(** A month-end date. *)
Definition is_month_end (d : date) : Prop :=
  1 <= month d <= 12 /\ day d = days_in_month (year d) (month d).

(** A solver for the sample data: the slope at a knot is the slope of the
    chord to the next knot, and the last knot takes the slope of the chord
    before it.  For two knots this is the straight line that scipy fits. *)
Fixpoint chord_slopes_from (prev : R) (pts : list (Z * R)) : list R :=
  match pts with
  | [] => []
  | p0 :: t =>
      match t with
      | [] => [prev]
      | p1 :: _ =>
          let s := ((snd p1 - snd p0) / IZR (fst p1 - fst p0))%R in
          s :: chord_slopes_from s t
      end
  end.

Definition chord_slopes : SplineSolver := chord_slopes_from 0%R.

(** Raw series for the first quarter of 2015, as the loader returns them. *)
Definition sample_m2 : Series :=
  mkSeries "M2SL" [(mkDate 2015 1 1, Fin 10%R); (mkDate 2015 2 1, Fin 11%R);
                   (mkDate 2015 3 1, Fin 12%R)].

Definition sample_cpi : Series :=
  mkSeries "CPIAUCSL" [(mkDate 2015 1 1, Fin 100%R); (mkDate 2015 2 1, Fin 101%R);
                       (mkDate 2015 3 1, Fin 102%R)].

Definition sample_gdp : Series :=
  mkSeries "GDP" [(mkDate 2015 1 1, Fin 50%R); (mkDate 2015 4 1, Fin 53%R)].

Definition sample_fed_funds : Series :=
  mkSeries "DFF" [(mkDate 2015 1 29, Fin 1%R); (mkDate 2015 1 30, Fin 2%R);
                  (mkDate 2015 2 27, Fin 2%R); (mkDate 2015 3 31, Fin 3%R)].

(** The real yield has no valid observation in February. *)
Definition sample_tips : Series :=
  mkSeries "DFII10" [(mkDate 2015 1 30, Fin 1%R); (mkDate 2015 2 27, NaN);
                     (mkDate 2015 3 31, Fin 1%R)].

Definition sample_btc : Series :=
  mkSeries "BTC-USD" [(mkDate 2015 1 31, Fin 200%R); (mkDate 2015 2 28, Fin 250%R);
                      (mkDate 2015 3 31, Fin 240%R)].

Definition sample_sp500 : Series :=
  mkSeries "^GSPC" [(mkDate 2015 1 30, Fin 2000%R); (mkDate 2015 2 27, Fin 2100%R);
                    (mkDate 2015 3 31, Fin 2050%R)].

Definition sample_gold : Series :=
  mkSeries "GC=F" [(mkDate 2015 1 30, Fin 1200%R); (mkDate 2015 2 27, Fin 1210%R);
                   (mkDate 2015 3 31, Fin 1180%R)].

(** The frame the aligner returns for the sample. *)
Definition sample_aligned : DataFrame :=
  match @align_all_series_to_monthly chord_slopes sample_m2 sample_cpi
          sample_gdp sample_fed_funds sample_tips sample_btc sample_sp500
          sample_gold with
  | Ok df => df
  | Err _ => mkDF [] []
  end.

(** Bitcoin prices that start a year after every other sample series ends. *)
Definition sample_btc_2016 : Series :=
  mkSeries "BTC-USD" [(mkDate 2016 1 31, Fin 400%R); (mkDate 2016 2 29, Fin 420%R)].




(** A quarterly series whose second quarter is missing. *)
Definition sample_gdp_gap : Series :=
  mkSeries "GDP" [(mkDate 2015 1 1, Fin 50%R); (mkDate 2015 4 1, NaN);
                  (mkDate 2015 7 1, Fin 56%R)].

(** The sum of a list of reals. *)
Definition rsum (l : list R) : R := fold_right Rplus 0%R l.

(** The z-score of one cell for a finite mean [m] and a finite, nonzero
    standard deviation [s]. *)
Definition zcell (m s : R) (x : float) : float :=
  match x with
  | Fin r => Fin ((r - m) / s)
  | _ => NaN
  end.

(** Every cell is a finite number or missing. *)
Definition finite_or_missing (x : list float) : Prop :=
  forallb isfinite (List.filter notna x) = true.

(** A three-row frame with the four indicator columns. *)
Definition indicators_frame : DataFrame :=
  mkDF [mkDate 2015 1 31; mkDate 2015 2 28; mkDate 2015 3 31]
       [("m2_yoy_pct", [NaN; Fin 1%R; Fin 3%R]);
        ("cpi_yoy_pct", [NaN; Fin 2%R; Fin 4%R]);
        ("real_m2_growth", [NaN; Fin (-1)%R; Fin 1%R]);
        ("m2_to_gdp", [Fin 4%R; Fin 5%R; Fin 6%R])].

(** Fourteen aligned months, January 2015 to February 2016: money supply
    and prices are flat for a year and then move, everything else is flat. *)
Definition flat (v : R) (n : nat) : list float := repeat (Fin v) n.

Definition aligned_14 : DataFrame :=
  mkDF [mkDate 2015 1 31; mkDate 2015 2 28; mkDate 2015 3 31; mkDate 2015 4 30;
        mkDate 2015 5 31; mkDate 2015 6 30; mkDate 2015 7 31; mkDate 2015 8 31;
        mkDate 2015 9 30; mkDate 2015 10 31; mkDate 2015 11 30;
        mkDate 2015 12 31; mkDate 2016 1 31; mkDate 2016 2 29]
       [("m2", (flat 1 12 ++ [Fin 2%R; Fin 3%R])%list);
        ("cpi", (flat 1 12 ++ [Fin 2%R; Fin 1%R])%list);
        ("gdp_monthly", flat 1 14);
        ("fed_funds_rate", flat 1 14);
        ("tips_real_yield_10y", flat 1 14);
        ("btc_price", flat 1 14);
        ("sp500_price", flat 1 14);
        ("gold_price", flat 1 14)].

(** The finite values of a column, in order. *)
Definition reals_of (x : list float) : list R :=
  flat_map (fun v => match v with Fin r => [r] | _ => [] end) x.

(** ** Order of an index *)

(** An index in ascending order (a label may repeat), as [sort_index]
    leaves it. *)
Fixpoint ascending (l : list date) : bool :=
  match l with
  | a :: (b :: _) as t => date_leb a b && ascending t
  | _ => true
  end.



(** The observations of one calendar month, in the order of the series. *)
Definition month_group (s : Series) (k : Z) : list (date * float) :=
  List.filter (in_month k) (s_items s).

(** The names the feature stages assign or drop. *)
Definition TOUCHED_COLUMNS : list string :=
  (DERIVED_COLUMNS
   ++ ["m2"; "cpi"; "gdp_monthly"; "btc_price"; "sp500_price"; "gold_price"])%list.

(** The mask of [dropna]: the rows without a missing cell. *)
Definition complete_rows (df : DataFrame) : list bool :=
  List.map (fun i => negb (row_has_nan df i)) (seq 0 (nrows df)).

(** A quarterly series with an infinite observation, and one with two
    observations at the same date. *)
Definition sample_gdp_infinite : Series :=
  mkSeries "GDP" [(mkDate 2015 1 1, Fin 50%R); (mkDate 2015 4 1, PInf)].

Definition sample_gdp_repeated : Series :=
  mkSeries "GDP" [(mkDate 2015 1 1, Fin 50%R); (mkDate 2015 1 1, Fin 51%R)].

(** A two-row frame with the returns of the three assets and of cash. *)
Definition returns_sample : DataFrame :=
  mkDF [mkDate 2015 2 28; mkDate 2015 3 31]
       [("btc_return_monthly", [Fin 3%R; NaN]);
        ("sp500_return_monthly", [Fin 1%R; Fin 2%R]);
        ("gold_return_monthly", [Fin 2%R; Fin 1%R]);
        ("cash_real_return_monthly", [Fin 1%R; Fin 1%R])].

(** A two-row frame in which only the ratio has two values. *)
Definition indicators_frame_short : DataFrame :=
  mkDF [mkDate 2015 1 31; mkDate 2015 2 28]
       [("m2_yoy_pct", [NaN; Fin 1%R]);
        ("cpi_yoy_pct", [NaN; Fin 2%R]);
        ("real_m2_growth", [NaN; Fin (-1)%R]);
        ("m2_to_gdp", [Fin 4%R; Fin 5%R])].

(** A three-row frame of z-scores: only the ratio in the first row, all
    four in the second, none in the third. *)
Definition zscores_frame : DataFrame :=
  mkDF [mkDate 2015 1 31; mkDate 2015 2 28; mkDate 2015 3 31]
       [("z_m2_yoy_pct", [NaN; Fin 1%R; NaN]);
        ("z_cpi_yoy_pct", [NaN; Fin 2%R; NaN]);
        ("z_real_m2_growth", [NaN; Fin 3%R; NaN]);
        ("z_m2_to_gdp", [Fin 2%R; Fin 6%R; NaN])].
(** A cell on another scale: [a * v + b]. *)
Definition rescale (a b : R) (v : float) : float :=
  fadd (fmul (Fin a) v) (Fin b).
(** The indicators frame with the money-supply growth on another scale. *)
Definition indicators_frame_rescaled : DataFrame :=
  df_set indicators_frame "m2_yoy_pct"
         (List.map (rescale 100 0) [NaN; Fin 1%R; Fin 3%R]).
(** ** collect_raw_data.py: the metadata of a pulled series *)

(** [ts.strftime("%Y-%m-%d")], for the four-digit years of a pandas
    timestamp. *)
Definition digit (n : Z) : Ascii.ascii :=
  Ascii.ascii_of_nat (48 + Z.to_nat (n mod 10)).

Definition pad2 (n : Z) : string :=
  String (digit (n / 10)) (String (digit n) EmptyString).

Definition pad4 (n : Z) : string :=
  String (digit (n / 1000)) (String (digit (n / 100)) (pad2 n)).

Definition strftime_ymd (d : date) : string :=
  (pad4 (year d) ++ "-" ++ pad2 (month d) ++ "-" ++ pad2 (day d))%string.

(** The dictionary [build_metadata_entry] returns, one field per key. *)
Record metadata_entry : Type := mkMetadataEntry {
  meta_name : string;
  meta_source : string;
  meta_identifier : string;
  meta_frequency : string;
  meta_filename : string;
  meta_date_start : option string;
  meta_date_end : option string;
  meta_n_obs : nat;
  meta_n_nans : nat;
  meta_pulled_at : string
}.

(** [series.index.min()] and [series.index.max()] of a series with an
    observation. *)
Definition index_min (series : Series) : option date :=
  match s_index series with
  | [] => None
  | d0 :: ds => Some (date_min d0 ds)
  end.

Definition index_max (series : Series) : option date :=
  match s_index series with
  | [] => None
  | d0 :: ds => Some (date_max d0 ds)
  end.

(** [build_metadata_entry] *)
Definition build_metadata_entry
    (name source identifier frequency filename : string)
    (series : Series) (pulled_at : string) : metadata_entry :=
  {| meta_name := name;
     meta_source := source;
     meta_identifier := identifier;
     meta_frequency := frequency;
     meta_filename := filename;
     meta_date_start := option_map strftime_ymd (index_min series);
     meta_date_end := option_map strftime_ymd (index_max series);
     meta_n_obs := length (s_items series);
     meta_n_nans := length (List.filter isnan (s_values series));
     meta_pulled_at := pulled_at |}.

(** * Properties *)

(** ** Columns of a frame *)

Lemma has_column_get_none df c :
  has_column df c = false <-> get_column df c = None.
Proof.
  unfold has_column, get_column, col_names.
  induction (df_columns df) as [|[n v] l IH]; simpl; [tauto|].
  rewrite (String.eqb_sym n c).
  destruct (String.eqb c n); simpl; [split; discriminate | exact IH].
Qed.

Lemma has_column_get df c :
  has_column df c = true -> get_column df c = Some (col df c).
Proof.
  intros Hc. unfold col.
  destruct (get_column df c) eqn:E; [reflexivity|].
  apply has_column_get_none in E. congruence.
Qed.

Lemma get_column_has df c v :
  get_column df c = Some v -> has_column df c = true.
Proof.
  intros E. destruct (has_column df c) eqn:Hc; [reflexivity|].
  apply has_column_get_none in Hc. congruence.
Qed.

Lemma find_app_pairs {A} (f : A -> bool) (l l' : list A) :
  List.find f (l ++ l')%list
  = match List.find f l with Some x => Some x | None => List.find f l' end.
Proof.
  induction l as [|a l IH]; simpl; [reflexivity|].
  destruct (f a); [reflexivity | exact IH].
Qed.

Lemma find_map_replace (l : list (string * list float)) c c' v :
  List.find (fun p => String.eqb (fst p) c')
    (List.map (fun p => if String.eqb (fst p) c then (c, v) else p) l)
  = if String.eqb c' c
    then option_map (fun _ => (c, v)) (List.find (fun p => String.eqb (fst p) c) l)
    else List.find (fun p => String.eqb (fst p) c') l.
Proof.
  induction l as [|[n w] l IH]; simpl.
  - destruct (String.eqb c' c); reflexivity.
  - destruct (String.eqb n c) eqn:Enc; simpl.
    + apply String.eqb_eq in Enc. subst n.
      rewrite (String.eqb_sym c c').
      destruct (String.eqb c' c) eqn:E; [reflexivity | exact IH].
    + destruct (String.eqb c' c) eqn:E.
      * apply String.eqb_eq in E. subst c'. rewrite Enc. exact IH.
      * destruct (String.eqb n c'); [reflexivity | exact IH].
Qed.

Lemma get_column_df_set df c v c' :
  get_column (df_set df c v) c'
  = if String.eqb c' c then Some v else get_column df c'.
Proof.
  unfold df_set. destruct (has_column df c) eqn:Hc.
  - unfold get_column at 1. simpl. rewrite find_map_replace.
    destruct (String.eqb c' c) eqn:E; [|reflexivity].
    apply has_column_get in Hc. unfold get_column in Hc.
    destruct (List.find _ (df_columns df)); [reflexivity | discriminate].
  - unfold get_column. simpl. rewrite find_app_pairs.
    apply has_column_get_none in Hc. unfold get_column in Hc.
    destruct (String.eqb c' c) eqn:E.
    + apply String.eqb_eq in E. subst c'.
      destruct (List.find _ (df_columns df)); [discriminate|].
      simpl. rewrite String.eqb_refl. reflexivity.
    + clear Hc.
      destruct (List.find (fun p => String.eqb (fst p) c') (df_columns df));
        [reflexivity|].
      simpl. rewrite (String.eqb_sym c c'), E. reflexivity.
Qed.

Lemma has_column_df_set df c v c' :
  has_column (df_set df c v) c' = String.eqb c' c || has_column df c'.
Proof.
  destruct (has_column (df_set df c v) c') eqn:E.
  - destruct (String.eqb c' c) eqn:Ec; [reflexivity|]. simpl.
    destruct (has_column df c') eqn:E'; [reflexivity|].
    apply has_column_get_none in E'.
    apply has_column_get in E. rewrite get_column_df_set, Ec in E. congruence.
  - apply has_column_get_none in E. rewrite get_column_df_set in E.
    destruct (String.eqb c' c); [discriminate|].
    apply has_column_get_none in E. rewrite E. reflexivity.
Qed.

Lemma col_df_set df c v c' :
  col (df_set df c v) c' = if String.eqb c' c then v else col df c'.
Proof.
  unfold col. rewrite get_column_df_set.
  destruct (String.eqb c' c); reflexivity.
Qed.

Lemma df_index_df_set df c v : df_index (df_set df c v) = df_index df.
Proof. unfold df_set. destruct (has_column df c); reflexivity. Qed.

Lemma nrows_df_set df c v : nrows (df_set df c v) = nrows df.
Proof. unfold nrows. rewrite df_index_df_set. reflexivity. Qed.

Lemma col_names_df_set df c v :
  col_names (df_set df c v)
  = if has_column df c then col_names df else (col_names df ++ [c])%list.
Proof.
  unfold df_set. destruct (has_column df c) eqn:Hc; unfold col_names; simpl.
  - rewrite List.map_map. apply List.map_ext. intros [n w]. simpl.
    destruct (String.eqb n c) eqn:E; [|reflexivity].
    apply String.eqb_eq in E. subst. reflexivity.
  - rewrite List.map_app. reflexivity.
Qed.

Lemma col_names_df_drop df cs :
  col_names (df_drop df cs)
  = List.filter (fun n => negb (existsb (String.eqb n) cs)) (col_names df).
Proof.
  unfold df_drop, col_names. simpl.
  induction (df_columns df) as [|[n w] l IH]; simpl; [reflexivity|].
  destruct (existsb (String.eqb n) cs); simpl; rewrite IH; reflexivity.
Qed.

Lemma get_column_df_drop df cs c :
  get_column (df_drop df cs) c
  = if existsb (String.eqb c) cs then None else get_column df c.
Proof.
  unfold df_drop, get_column. simpl.
  induction (df_columns df) as [|[n w] l IH]; simpl.
  - destruct (existsb (String.eqb c) cs); reflexivity.
  - destruct (String.eqb n c) eqn:E.
    + apply String.eqb_eq in E. subst n.
      destruct (existsb (String.eqb c) cs) eqn:Ex; simpl.
      * rewrite IH. reflexivity.
      * rewrite String.eqb_refl. reflexivity.
    + destruct (existsb (String.eqb n) cs); simpl; [exact IH|].
      rewrite E. exact IH.
Qed.

Lemma has_column_df_drop df cs c :
  has_column (df_drop df cs) c
  = has_column df c && negb (existsb (String.eqb c) cs).
Proof.
  destruct (has_column (df_drop df cs) c) eqn:E.
  - destruct (get_column (df_drop df cs) c) eqn:G.
    + rewrite get_column_df_drop in G.
      destruct (existsb (String.eqb c) cs); [discriminate|].
      apply get_column_has in G. rewrite G. reflexivity.
    + apply has_column_get_none in G. congruence.
  - apply has_column_get_none in E. rewrite get_column_df_drop in E.
    destruct (existsb (String.eqb c) cs); [symmetry; apply andb_false_r|].
    apply has_column_get_none in E. rewrite E. reflexivity.
Qed.

Lemma col_names_filter_rows mask df :
  col_names (filter_rows mask df) = col_names df.
Proof.
  unfold filter_rows, col_names. simpl. rewrite List.map_map. reflexivity.
Qed.

Lemma get_column_filter_rows mask df c :
  get_column (filter_rows mask df) c
  = option_map (select mask) (get_column df c).
Proof.
  unfold filter_rows, get_column. simpl.
  induction (df_columns df) as [|[n w] l IH]; simpl; [reflexivity|].
  destruct (String.eqb n c); [reflexivity | exact IH].
Qed.

Lemma missing_columns_nil df cs :
  forallb (has_column df) cs = true -> missing_columns df cs = [].
Proof.
  unfold missing_columns. induction cs as [|c cs IH]; simpl; [reflexivity|].
  intros Hc. apply andb_prop in Hc as [Hc Hcs]. rewrite Hc. simpl. auto.
Qed.

Lemma missing_columns_spec df cs l :
  In l (missing_columns df cs) <-> In l cs /\ has_column df l = false.
Proof.
  unfold missing_columns. rewrite List.filter_In, negb_true_iff. reflexivity.
Qed.

(** ** Running the store monad *)

Lemma bind_ok {A B} (m : M A) (k : A -> M B) h a h' :
  m h = (Ok a, h') -> bind m k h = k a h'.
Proof. intros E. unfold bind. rewrite E. reflexivity. Qed.

Lemma bind_err {A B} (m : M A) (k : A -> M B) h e h' :
  m h = (Err e, h') -> bind m k h = (Err e, h').
Proof. intros E. unfold bind. rewrite E. reflexivity. Qed.

Lemma load_ok r (h : heap) df : h !! r = Some df -> load r h = (Ok df, h).
Proof. intros E. unfold load. rewrite E. reflexivity. Qed.

Lemma load_at r (h : heap) d :
  (r < length h)%nat -> load r (<[r:=d]> h) = (Ok d, <[r:=d]> h).
Proof. intros Hr. apply load_ok. apply list_lookup_insert_eq. exact Hr. Qed.

Lemma getitem_at r c (h : heap) d :
  (r < length h)%nat -> has_column d c = true ->
  getitem r c (<[r:=d]> h) = (Ok (col d c), <[r:=d]> h).
Proof.
  intros Hr Hc. unfold getitem. rewrite (bind_ok _ _ _ _ _ (load_at _ _ _ Hr)).
  rewrite (has_column_get _ _ Hc). reflexivity.
Qed.

Lemma getitem_missing_at r c (h : heap) d :
  (r < length h)%nat -> has_column d c = false ->
  getitem r c (<[r:=d]> h) = (Err (KeyError [c]), <[r:=d]> h).
Proof.
  intros Hr Hc. unfold getitem. rewrite (bind_ok _ _ _ _ _ (load_at _ _ _ Hr)).
  apply has_column_get_none in Hc. rewrite Hc. reflexivity.
Qed.

Lemma setitem_at r c v (h : heap) d :
  (r < length h)%nat ->
  setitem r c v (<[r:=d]> h) = (Ok tt, <[r:=df_set d c v]> h).
Proof.
  intros Hr. unfold setitem. rewrite (bind_ok _ _ _ _ _ (load_at _ _ _ Hr)).
  unfold store. rewrite list_insert_insert_eq. reflexivity.
Qed.

Lemma drop_columns_at r cs (h : heap) d :
  (r < length h)%nat -> forallb (has_column d) cs = true ->
  drop_columns r cs (<[r:=d]> h)
  = (Ok (length h), (<[r:=d]> h ++ [df_drop d cs])%list).
Proof.
  intros Hr Hc. unfold drop_columns.
  rewrite (bind_ok _ _ _ _ _ (load_at _ _ _ Hr)).
  rewrite (missing_columns_nil _ _ Hc). unfold alloc.
  rewrite length_insert. reflexivity.
Qed.

Lemma lookup_alloc (h : heap) d : (h ++ [d])%list !! length h = Some d.
Proof. rewrite lookup_app_r by lia. rewrite Nat.sub_diag. reflexivity. Qed.

(** ** The store below a watermark is left alone *)

(** [m] changes no object stored below [n], and every result it returns
    satisfies [P]. *)
Definition keeps_below (n : nat) {A} (P : A -> Prop) (m : M A) : Prop :=
  forall h : heap, (n <= length h)%nat ->
    (n <= length (snd (m h)))%nat
    /\ (forall i, (i < n)%nat -> snd (m h) !! i = h !! i)
    /\ (forall a, fst (m h) = Ok a -> P a).

Lemma keeps_ret n {A} (P : A -> Prop) a : P a -> keeps_below n P (ret a).
Proof.
  intros Pa h Hn. simpl. repeat split; auto. intros b [= <-]. exact Pa.
Qed.

Lemma keeps_raise n {A} (P : A -> Prop) e : keeps_below n P (@raise A e).
Proof. intros h Hn. simpl. repeat split; auto. discriminate. Qed.

Lemma keeps_bind n {A B} (P : A -> Prop) (Q : B -> Prop) m k :
  keeps_below n P m ->
  (forall a, P a -> keeps_below n Q (k a)) ->
  keeps_below n Q (bind m k).
Proof.
  intros Hm Hk h Hn. destruct (Hm h Hn) as (Hlen & Hsame & HP).
  unfold bind. destruct (m h) as [[a|e] h'] eqn:E; simpl in *.
  - destruct (Hk a (HP a eq_refl) h' Hlen) as (Hlen' & Hsame' & HQ).
    repeat split; auto. intros i Hi. rewrite Hsame' by exact Hi. auto.
  - repeat split; auto. discriminate.
Qed.

Lemma keeps_weaken n {A} (P Q : A -> Prop) m :
  (forall a, P a -> Q a) -> keeps_below n P m -> keeps_below n Q m.
Proof.
  intros HPQ Hm h Hn. destruct (Hm h Hn) as (? & ? & HP).
  repeat split; auto.
Qed.

Lemma keeps_load n r : keeps_below n (fun _ => True) (load r).
Proof.
  intros h Hn. unfold load. destruct (h !! r); simpl; repeat split; auto.
Qed.

Lemma keeps_store n r d : (n <= r)%nat -> keeps_below n (fun _ => True) (store r d).
Proof.
  intros Hr h Hn. unfold store. simpl. rewrite length_insert.
  repeat split; auto. intros i Hi. apply list_lookup_insert_ne. lia.
Qed.

Lemma keeps_alloc n d : keeps_below n (fun r' => (n <= r')%nat) (alloc d).
Proof.
  intros h Hn. unfold alloc. simpl. rewrite length_app. simpl.
  repeat split; [lia | | intros a [= <-]; exact Hn].
  intros i Hi. apply lookup_app_l. lia.
Qed.

Lemma keeps_getitem n r c : keeps_below n (fun _ => True) (getitem r c).
Proof.
  unfold getitem. eapply keeps_bind; [apply keeps_load|]. intros df _.
  destruct (get_column df c); [apply keeps_ret; exact I | apply keeps_raise].
Qed.

Lemma keeps_getitems n r cs : keeps_below n (fun _ => True) (getitems r cs).
Proof.
  unfold getitems. eapply keeps_bind; [apply keeps_load|]. intros df _.
  destruct (missing_columns df cs); [apply keeps_ret; exact I | apply keeps_raise].
Qed.

Lemma keeps_setitem n r c v :
  (n <= r)%nat -> keeps_below n (fun _ => True) (setitem r c v).
Proof.
  intros Hr. unfold setitem. eapply keeps_bind; [apply keeps_load|].
  intros df _. apply keeps_store. exact Hr.
Qed.

Lemma keeps_drop_columns n r cs :
  keeps_below n (fun r' => (n <= r')%nat) (drop_columns r cs).
Proof.
  unfold drop_columns. eapply keeps_bind; [apply keeps_load|]. intros df _.
  destruct (missing_columns df cs); [apply keeps_alloc | apply keeps_raise].
Qed.

Lemma keeps_copy n r : keeps_below n (fun r' => (n <= r')%nat) (copy r).
Proof.
  unfold copy. eapply keeps_bind; [apply keeps_load|]. intros df _.
  apply keeps_alloc.
Qed.

Lemma keeps_dropna n r : keeps_below n (fun r' => (n <= r')%nat) (dropna r).
Proof.
  unfold dropna. eapply keeps_bind; [apply keeps_load|]. intros df _.
  apply keeps_alloc.
Qed.

(** One step of a stage: a read, an assignment into the frame at or above
    the watermark, or the final return. *)
Ltac keeps_step Hr :=
  first
    [ apply keeps_ret; exact Hr
    | eapply keeps_bind; [apply keeps_getitem | intros ? _]
    | eapply keeps_bind; [apply keeps_getitems | intros ? _]
    | eapply keeps_bind; [apply keeps_load | intros ? _]
    | eapply keeps_bind; [apply keeps_setitem; exact Hr | intros ? _] ].

Lemma keeps_compute_debasement_indicators n r :
  (n <= r)%nat ->
  keeps_below n (fun r' => (n <= r')%nat) (compute_debasement_indicators r).
Proof.
  intros Hr. unfold compute_debasement_indicators. do 10 keeps_step Hr.
  eapply keeps_bind; [apply keeps_drop_columns|]. intros r' Hr'.
  apply keeps_ret. exact Hr'.
Qed.

Lemma keeps_compute_asset_returns n r :
  (n <= r)%nat ->
  keeps_below n (fun r' => (n <= r')%nat) (compute_asset_returns r).
Proof.
  intros Hr. unfold compute_asset_returns. do 9 keeps_step Hr.
  eapply keeps_bind; [apply keeps_drop_columns|]. intros r' Hr'.
  apply keeps_ret. exact Hr'.
Qed.

Lemma keeps_compute_cash_real_return n r :
  (n <= r)%nat ->
  keeps_below n (fun r' => (n <= r')%nat) (compute_cash_real_return r).
Proof. intros Hr. unfold compute_cash_real_return. do 4 keeps_step Hr. Qed.

Lemma keeps_compute_spread_features n r :
  (n <= r)%nat ->
  keeps_below n (fun r' => (n <= r')%nat) (compute_spread_features r).
Proof. intros Hr. unfold compute_spread_features. do 10 keeps_step Hr. Qed.

Lemma keeps_standardize_loop n r cols :
  (n <= r)%nat -> keeps_below n (fun _ => True) (standardize_loop r cols).
Proof.
  intros Hr. induction cols as [|c cols IH]; simpl.
  - apply keeps_ret. exact I.
  - do 4 keeps_step Hr. exact IH.
Qed.

Lemma keeps_standardize_debasement_indicators n r :
  (n <= r)%nat ->
  keeps_below n (fun r' => (n <= r')%nat) (standardize_debasement_indicators r).
Proof.
  intros Hr. unfold standardize_debasement_indicators.
  eapply keeps_bind; [apply keeps_standardize_loop; exact Hr|]. intros _ _.
  apply keeps_ret. exact Hr.
Qed.

Lemma keeps_compute_zscore_composite_debasement_score n r :
  (n <= r)%nat ->
  keeps_below n (fun r' => (n <= r')%nat)
              (compute_zscore_composite_debasement_score r).
Proof.
  intros Hr. unfold compute_zscore_composite_debasement_score.
  do 4 keeps_step Hr.
Qed.

Lemma keeps_build_analysis_dataframe n r :
  keeps_below n (fun r' => (n <= r')%nat) (build_analysis_dataframe r).
Proof.
  unfold build_analysis_dataframe.
  eapply keeps_bind; [apply keeps_copy|]. intros r1 H1.
  eapply keeps_bind; [apply keeps_compute_debasement_indicators; exact H1|].
  intros r2 H2.
  eapply keeps_bind; [apply keeps_compute_asset_returns; exact H2|].
  intros r3 H3.
  eapply keeps_bind; [apply keeps_compute_cash_real_return; exact H3|].
  intros r4 H4.
  eapply keeps_bind; [apply keeps_compute_spread_features; exact H4|].
  intros r5 H5.
  eapply keeps_bind; [apply keeps_standardize_debasement_indicators; exact H5|].
  intros r6 H6.
  eapply keeps_bind;
    [apply keeps_compute_zscore_composite_debasement_score; exact H6|].
  intros r7 H7.
  eapply keeps_bind; [apply keeps_dropna|]. intros r8 H8.
  apply keeps_ret. exact H8.
Qed.

(** C9. [build_analysis_dataframe] leaves its argument as it found it:
    whatever the store and the reference, and whether the run succeeds or
    raises, the frame the caller passed, like every other frame that existed
    before the call, has the same index, columns and cells afterwards; when
    the run succeeds the frame returned is a new object. *)
Theorem build_analysis_dataframe_preserves_input :
  forall (h : heap) (aligned_df : ref),
    let h' := snd (build_analysis_dataframe aligned_df h) in
    h' !! aligned_df = h !! aligned_df
    /\ (forall i, (i < length h)%nat -> h' !! i = h !! i)
    /\ (forall analysis_df,
          fst (build_analysis_dataframe aligned_df h) = Ok analysis_df ->
          (length h <= analysis_df)%nat /\ analysis_df <> aligned_df).
Proof.
  intros h r h'.
  destruct (keeps_build_analysis_dataframe (length h) r h (le_n _))
    as (Hlen & Hsame & Hres).
  fold h' in Hsame.
  destruct (h !! r) as [df|] eqn:E.
  - pose proof (lookup_lt_Some _ _ _ E) as Hr.
    split; [rewrite Hsame by exact Hr; exact E|].
    split; [exact Hsame|].
    intros a Ha. specialize (Hres a Ha). split; [exact Hres | lia].
  - assert (Hrun : build_analysis_dataframe r h
                   = (Err (Raise "ReferenceError" []), h)).
    { unfold build_analysis_dataframe, copy, bind, load. rewrite E.
      reflexivity. }
    subst h'. rewrite Hrun. simpl.
    split; [exact E|]. split; [reflexivity|]. discriminate.
Qed.

(** ** What the stages compute *)

Ltac has_cols :=
  rewrite ?has_column_df_set;
  repeat match goal with
         | H : has_column _ _ = true |- _ => rewrite H
         end;
  rewrite ?orb_true_r; reflexivity.

Ltac run_get Hr :=
  erewrite bind_ok; [| apply getitem_at; [exact Hr | has_cols]].

Ltac run_set Hr :=
  erewrite bind_ok; [| apply setitem_at; exact Hr].

Lemma compute_debasement_indicators_run (h : heap) r df :
  h !! r = Some df ->
  has_column df "m2" = true -> has_column df "cpi" = true ->
  has_column df "gdp_monthly" = true ->
  compute_debasement_indicators r h
  = (Ok (length h),
     (<[r:=debasement_filled df]> h ++ [debasement_frame df])%list).
Proof.
  intros Hl H1 H2 H3. pose proof (lookup_lt_Some _ _ _ Hl) as Hr.
  rewrite <- (list_insert_id _ _ _ Hl) at 1.
  unfold compute_debasement_indicators.
  run_get Hr. run_set Hr. run_get Hr. run_set Hr. run_get Hr. run_get Hr.
  run_set Hr. run_get Hr. run_get Hr. run_set Hr.
  erewrite bind_ok;
    [| apply drop_columns_at; [exact Hr | simpl; rewrite !andb_true_r;
                                          repeat (apply andb_true_intro; split);
                                          has_cols]].
  reflexivity.
Qed.

Ltac run_drop Hr :=
  erewrite bind_ok;
  [| apply drop_columns_at;
     [exact Hr
     | simpl; rewrite !andb_true_r;
       repeat (apply andb_true_intro; split); has_cols]].

Lemma compute_asset_returns_run (h : heap) r df :
  h !! r = Some df ->
  has_column df "btc_price" = true -> has_column df "sp500_price" = true ->
  has_column df "gold_price" = true ->
  compute_asset_returns r h
  = (Ok (length h), (<[r:=returns_filled df]> h ++ [returns_frame df])%list).
Proof.
  intros Hl H1 H2 H3. pose proof (lookup_lt_Some _ _ _ Hl) as Hr.
  rewrite <- (list_insert_id _ _ _ Hl) at 1.
  unfold compute_asset_returns.
  run_get Hr. run_get Hr. run_set Hr. run_get Hr. run_get Hr. run_set Hr.
  run_get Hr. run_get Hr. run_set Hr. run_drop Hr.
  reflexivity.
Qed.

Lemma compute_cash_real_return_run (h : heap) r df :
  h !! r = Some df ->
  has_column df "fed_funds_rate" = true -> has_column df "cpi_yoy_pct" = true ->
  compute_cash_real_return r h = (Ok r, <[r:=cash_frame df]> h).
Proof.
  intros Hl H1 H2. pose proof (lookup_lt_Some _ _ _ Hl) as Hr.
  rewrite <- (list_insert_id _ _ _ Hl) at 1.
  unfold compute_cash_real_return.
  run_get Hr. run_get Hr. run_set Hr. reflexivity.
Qed.

Lemma compute_spread_features_run (h : heap) r df :
  h !! r = Some df ->
  has_column df "btc_return_monthly" = true ->
  has_column df "cash_real_return_monthly" = true ->
  has_column df "gold_return_monthly" = true ->
  has_column df "sp500_return_monthly" = true ->
  compute_spread_features r h = (Ok r, <[r:=spread_frame df]> h).
Proof.
  intros Hl H1 H2 H3 H4. pose proof (lookup_lt_Some _ _ _ Hl) as Hr.
  rewrite <- (list_insert_id _ _ _ Hl) at 1.
  unfold compute_spread_features.
  run_get Hr. run_get Hr. run_set Hr. run_get Hr. run_get Hr. run_set Hr.
  run_get Hr. run_get Hr. run_set Hr. reflexivity.
Qed.

Lemma standardize_loop_run cols : forall (h : heap) r d,
  (r < length h)%nat ->
  forallb (has_column d) cols = true ->
  standardize_loop r cols (<[r:=d]> h)
  = (Ok tt, <[r:=fold_left standardize_column cols d]> h).
Proof.
  induction cols as [|c cols IH]; intros h r d Hr Hc; simpl.
  - reflexivity.
  - simpl in Hc. apply andb_prop in Hc as [Hc Hcs].
    run_get Hr. run_get Hr. run_get Hr. run_set Hr.
    apply IH; [exact Hr|].
    apply forallb_forall. intros x Hx. unfold standardize_column.
    rewrite has_column_df_set.
    rewrite (proj1 (forallb_forall _ _) Hcs x Hx). apply orb_true_r.
Qed.

Lemma standardize_debasement_indicators_run (h : heap) r df :
  h !! r = Some df ->
  forallb (has_column df) DEBASEMENT_INDICATOR_COLUMNS = true ->
  standardize_debasement_indicators r h
  = (Ok r, <[r:=standardized_frame df]> h).
Proof.
  intros Hl Hc. pose proof (lookup_lt_Some _ _ _ Hl) as Hr.
  rewrite <- (list_insert_id _ _ _ Hl) at 1.
  unfold standardize_debasement_indicators.
  erewrite bind_ok; [| apply standardize_loop_run; assumption].
  reflexivity.
Qed.

Lemma getitems_at r cs (h : heap) d :
  (r < length h)%nat -> forallb (has_column d) cs = true ->
  getitems r cs (<[r:=d]> h)
  = (Ok (List.map (fun c => List.map (cell d c) (seq 0 (nrows d))) cs),
     <[r:=d]> h).
Proof.
  intros Hr Hc. unfold getitems.
  rewrite (bind_ok _ _ _ _ _ (load_at _ _ _ Hr)).
  rewrite (missing_columns_nil _ _ Hc). reflexivity.
Qed.

Lemma compute_zscore_composite_debasement_score_run (h : heap) r df :
  h !! r = Some df ->
  forallb (has_column df) (List.map z_name DEBASEMENT_INDICATOR_COLUMNS) = true ->
  compute_zscore_composite_debasement_score r h
  = (Ok r, <[r:=composite_frame df]> h).
Proof.
  intros Hl Hc. pose proof (lookup_lt_Some _ _ _ Hl) as Hr.
  rewrite <- (list_insert_id _ _ _ Hl) at 1.
  unfold compute_zscore_composite_debasement_score.
  erewrite bind_ok; [| apply getitems_at; assumption].
  erewrite bind_ok; [| apply load_at; assumption].
  run_set Hr. reflexivity.
Qed.

Lemma copy_run (h : heap) r df :
  h !! r = Some df -> copy r h = (Ok (length h), (h ++ [df])%list).
Proof.
  intros Hl. unfold copy. rewrite (bind_ok _ _ _ _ _ (load_ok _ _ _ Hl)).
  reflexivity.
Qed.

Lemma dropna_run (h : heap) r df :
  h !! r = Some df ->
  dropna r h = (Ok (length h), (h ++ [df_dropna df])%list).
Proof.
  intros Hl. unfold dropna. rewrite (bind_ok _ _ _ _ _ (load_ok _ _ _ Hl)).
  reflexivity.
Qed.

(** Which columns each stage's result has, given those of the frame it
    found. *)
Lemma has_column_standardized df c :
  has_column df c = true -> has_column (standardized_frame df) c = true.
Proof.
  unfold standardized_frame.
  generalize DEBASEMENT_INDICATOR_COLUMNS. intros cols. revert df.
  induction cols as [|x cols IH]; intros df Hc; simpl; [exact Hc|].
  apply IH. unfold standardize_column. rewrite has_column_df_set, Hc.
  apply orb_true_r.
Qed.

Lemma has_column_z_standardized df c :
  In c DEBASEMENT_INDICATOR_COLUMNS ->
  has_column (standardized_frame df) (z_name c) = true.
Proof.
  unfold standardized_frame.
  generalize DEBASEMENT_INDICATOR_COLUMNS. intros cols. revert df.
  induction cols as [|x cols IH]; intros df Hin; simpl; [destruct Hin|].
  destruct Hin as [->|Hin]; [|apply IH; exact Hin].
  clear IH. assert (Hz : has_column (standardize_column df c) (z_name c) = true).
  { unfold standardize_column. rewrite has_column_df_set, String.eqb_refl.
    reflexivity. }
  revert Hz. generalize (standardize_column df c). clear df.
  induction cols as [|y cols IH]; intros d Hz; simpl; [exact Hz|].
  apply IH. unfold standardize_column. rewrite has_column_df_set, Hz.
  apply orb_true_r.
Qed.

Lemma lookup_alloc_insert (h : heap) r x d :
  (<[r:=x]> h ++ [d])%list !! length h = Some d.
Proof.
  rewrite <- (length_insert h r x). apply lookup_alloc.
Qed.

(** Which columns the frame returned by each stage has. *)

Lemma has_column_debasement_frame df c :
  has_column (debasement_frame df) c
  = (mem c DEBASEMENT_INDICATOR_COLUMNS || has_column df c)
    && negb (mem c ["m2"; "cpi"; "gdp_monthly"]).
Proof.
  unfold debasement_frame, debasement_filled. cbv zeta.
  rewrite has_column_df_drop, !has_column_df_set. unfold mem. simpl.
  rewrite !orb_false_r.
  destruct (String.eqb c "m2_yoy_pct"), (String.eqb c "cpi_yoy_pct"),
    (String.eqb c "real_m2_growth"), (String.eqb c "m2_to_gdp");
    reflexivity.
Qed.

Lemma has_column_returns_frame df c :
  has_column (returns_frame df) c
  = (mem c ["btc_return_monthly"; "sp500_return_monthly"; "gold_return_monthly"]
     || has_column df c)
    && negb (mem c ["btc_price"; "sp500_price"; "gold_price"]).
Proof.
  unfold returns_frame, returns_filled. cbv zeta.
  rewrite has_column_df_drop, !has_column_df_set. unfold mem. simpl.
  rewrite !orb_false_r.
  destruct (String.eqb c "btc_return_monthly"),
    (String.eqb c "sp500_return_monthly"), (String.eqb c "gold_return_monthly");
    reflexivity.
Qed.

Lemma has_column_cash_frame df c :
  has_column (cash_frame df) c
  = String.eqb c "cash_real_return_monthly" || has_column df c.
Proof. unfold cash_frame. apply has_column_df_set. Qed.

Lemma has_column_spread_frame df c :
  has_column (spread_frame df) c
  = mem c ["btc_vs_cash_real_spread"; "gold_vs_cash_real_spread";
           "sp500_vs_cash_real_spread"]
    || has_column df c.
Proof.
  unfold spread_frame. cbv zeta. rewrite !has_column_df_set. unfold mem. simpl.
  rewrite !orb_false_r.
  destruct (String.eqb c "btc_vs_cash_real_spread"),
    (String.eqb c "gold_vs_cash_real_spread"),
    (String.eqb c "sp500_vs_cash_real_spread"); reflexivity.
Qed.

Ltac frame_cols :=
  rewrite ?has_column_spread_frame, ?has_column_cash_frame,
    ?has_column_returns_frame, ?has_column_debasement_frame;
  repeat match goal with
         | H : has_column _ _ = true |- _ => rewrite H
         end;
  reflexivity.

Lemma aligned_columns_present df :
  forallb (has_column df) ALIGNED_COLUMNS = true ->
  has_column df "m2" = true /\ has_column df "cpi" = true
  /\ has_column df "gdp_monthly" = true
  /\ has_column df "fed_funds_rate" = true
  /\ has_column df "tips_real_yield_10y" = true
  /\ has_column df "btc_price" = true /\ has_column df "sp500_price" = true
  /\ has_column df "gold_price" = true.
Proof.
  unfold ALIGNED_COLUMNS, forallb. rewrite !andb_true_iff. tauto.
Qed.

Lemma forallb_4 (f : string -> bool) a b c d :
  f a = true -> f b = true -> f c = true -> f d = true ->
  forallb f [a; b; c; d] = true.
Proof. intros Ha Hb Hc Hd. simpl. rewrite Ha, Hb, Hc, Hd. reflexivity. Qed.

(** The columns the later stages read are there when they run. *)
Lemma returns_frame_columns df :
  has_column df "fed_funds_rate" = true ->
  has_column (returns_frame (debasement_frame df)) "fed_funds_rate" = true
  /\ has_column (returns_frame (debasement_frame df)) "cpi_yoy_pct" = true
  /\ has_column (returns_frame (debasement_frame df)) "btc_return_monthly" = true
  /\ has_column (returns_frame (debasement_frame df)) "gold_return_monthly" = true
  /\ has_column (returns_frame (debasement_frame df)) "sp500_return_monthly" = true
  /\ forallb (has_column (returns_frame (debasement_frame df)))
             DEBASEMENT_INDICATOR_COLUMNS = true.
Proof.
  intros Hff.
  repeat split; try apply forallb_4;
    rewrite has_column_returns_frame, has_column_debasement_frame, ?Hff;
    reflexivity.
Qed.

Lemma spread_frame_columns d c :
  has_column d c = true -> has_column (spread_frame (cash_frame d)) c = true.
Proof.
  intros Hc. rewrite has_column_spread_frame, has_column_cash_frame, Hc.
  rewrite !orb_true_r. reflexivity.
Qed.

(** A run of [build_analysis_dataframe] on a frame with the aligned columns
    succeeds and returns a reference to [analysis_frame df]. *)
Lemma build_analysis_dataframe_run (h : heap) r df :
  h !! r = Some df ->
  forallb (has_column df) ALIGNED_COLUMNS = true ->
  exists r' h',
    build_analysis_dataframe r h = (Ok r', h')
    /\ h' !! r' = Some (analysis_frame df).
Proof.
  intros Hl Hall.
  destruct (aligned_columns_present _ Hall)
    as (Hm2 & Hcpi & Hgdp & Hff & Htips & Hbtc & Hsp & Hgold).
  destruct (returns_frame_columns df Hff) as (E1 & E2 & E3 & E4 & E5 & E6).
  unfold build_analysis_dataframe.
  erewrite bind_ok; [| apply copy_run; exact Hl].
  erewrite bind_ok;
    [| apply (compute_debasement_indicators_run _ _ df);
       [apply lookup_alloc | assumption ..]].
  remember (<[length h:=debasement_filled df]> (h ++ [df]) ++ [debasement_frame df])%list
    as h1 eqn:Eh1.
  assert (L1 : h1 !! length (h ++ [df])%list = Some (debasement_frame df)).
  { subst h1. apply lookup_alloc_insert. }
  clear Eh1.
  erewrite bind_ok;
    [| apply (compute_asset_returns_run _ _ _ L1);
       rewrite has_column_debasement_frame;
       [rewrite Hbtc | rewrite Hsp | rewrite Hgold]; reflexivity].
  remember (returns_frame (debasement_frame df)) as d2 eqn:Ed2.
  remember (<[length (h ++ [df])%list:=returns_filled (debasement_frame df)]> h1 ++ [d2])%list as h2 eqn:Eh2.
  assert (L2 : h2 !! length h1 = Some d2).
  { subst h2. apply lookup_alloc_insert. }
  clear Eh2.
  assert (Hr2 : (length h1 < length h2)%nat)
    by exact (lookup_lt_Some _ _ _ L2).
  erewrite bind_ok;
    [| apply (compute_cash_real_return_run _ _ _ L2); assumption].
  erewrite bind_ok;
    [| apply (compute_spread_features_run _ _ (cash_frame d2));
       [apply list_lookup_insert_eq; exact Hr2
       | rewrite has_column_cash_frame, ?E3, ?E4, ?E5; reflexivity ..]].
  rewrite list_insert_insert_eq.
  erewrite bind_ok;
    [| apply (standardize_debasement_indicators_run _ _ (spread_frame (cash_frame d2)));
       [apply list_lookup_insert_eq; exact Hr2
       | apply forallb_forall; intros x Hx; apply spread_frame_columns;
         exact (proj1 (forallb_forall _ _) E6 x Hx)]].
  rewrite list_insert_insert_eq.
  erewrite bind_ok;
    [| apply (compute_zscore_composite_debasement_score_run _ _
                (standardized_frame (spread_frame (cash_frame d2))));
       [apply list_lookup_insert_eq; exact Hr2
       | apply forallb_forall; intros x Hx; apply in_map_iff in Hx;
         destruct Hx as (c & <- & Hc); apply has_column_z_standardized;
         exact Hc]].
  rewrite list_insert_insert_eq.
  erewrite bind_ok;
    [| apply (dropna_run _ _ (composite_frame
                (standardized_frame (spread_frame (cash_frame d2)))));
       apply list_lookup_insert_eq; exact Hr2].
  eexists _, _. split; [reflexivity|].
  rewrite lookup_alloc. subst d2. unfold analysis_frame, features_frame.
  reflexivity.
Qed.

(** ** A stage that misses a column it reads *)

Ltac has_cols_any :=
  rewrite ?has_column_df_set;
  repeat match goal with
         | H : has_column _ _ = _ |- _ => rewrite H
         end;
  reflexivity.

Ltac run_missing Hr :=
  erewrite bind_err; [| apply getitem_missing_at; [exact Hr | has_cols_any]].

Ltac run_get' Hr :=
  erewrite bind_ok; [| apply getitem_at; [exact Hr | has_cols_any]].

Ltac run_any Hr := first [run_get' Hr | run_set Hr | run_missing Hr].

(** From "some required column is absent" to the cases of which ones are. *)
Ltac absent_cases Hin Habs :=
  simpl in Hin;
  repeat match type of Hin with
         | _ \/ _ => destruct Hin as [Hin|Hin]
         | False => destruct Hin
         end;
  try (subst; congruence).

Ltac raises_key_error Hr :=
  eexists _, _; split;
  [ repeat run_any Hr; reflexivity
  | split; [discriminate|];
    repeat (apply List.Forall_cons; [split; [simpl; auto 10 | assumption]|]);
    apply List.Forall_nil ].

Lemma debasement_missing (h : heap) r df c :
  h !! r = Some df ->
  In c (required_columns DebasementIndicators) -> has_column df c = false ->
  key_error_outcome DebasementIndicators df (compute_debasement_indicators r h).
Proof.
  intros Hl Hin Habs. pose proof (lookup_lt_Some _ _ _ Hl) as Hr.
  rewrite <- (list_insert_id _ _ _ Hl) at 1.
  unfold key_error_outcome, compute_debasement_indicators.
  destruct (has_column df "m2") eqn:H1; destruct (has_column df "cpi") eqn:H2;
    destruct (has_column df "gdp_monthly") eqn:H3;
    first [ exfalso; absent_cases Hin Habs; fail | raises_key_error Hr ].
Qed.

Lemma returns_missing (h : heap) r df c :
  h !! r = Some df ->
  In c (required_columns AssetReturns) -> has_column df c = false ->
  key_error_outcome AssetReturns df (compute_asset_returns r h).
Proof.
  intros Hl Hin Habs. pose proof (lookup_lt_Some _ _ _ Hl) as Hr.
  rewrite <- (list_insert_id _ _ _ Hl) at 1.
  unfold key_error_outcome, compute_asset_returns.
  destruct (has_column df "btc_price") eqn:H1;
    destruct (has_column df "sp500_price") eqn:H2;
    destruct (has_column df "gold_price") eqn:H3;
    first [ exfalso; absent_cases Hin Habs; fail | raises_key_error Hr ].
Qed.

Lemma cash_missing (h : heap) r df c :
  h !! r = Some df ->
  In c (required_columns CashRealReturn) -> has_column df c = false ->
  key_error_outcome CashRealReturn df (compute_cash_real_return r h).
Proof.
  intros Hl Hin Habs. pose proof (lookup_lt_Some _ _ _ Hl) as Hr.
  rewrite <- (list_insert_id _ _ _ Hl) at 1.
  unfold key_error_outcome, compute_cash_real_return.
  destruct (has_column df "fed_funds_rate") eqn:H1;
    destruct (has_column df "cpi_yoy_pct") eqn:H2;
    first [ exfalso; absent_cases Hin Habs; fail | raises_key_error Hr ].
Qed.

Lemma spread_missing (h : heap) r df c :
  h !! r = Some df ->
  In c (required_columns SpreadFeatures) -> has_column df c = false ->
  key_error_outcome SpreadFeatures df (compute_spread_features r h).
Proof.
  intros Hl Hin Habs. pose proof (lookup_lt_Some _ _ _ Hl) as Hr.
  rewrite <- (list_insert_id _ _ _ Hl) at 1.
  unfold key_error_outcome, compute_spread_features.
  destruct (has_column df "btc_return_monthly") eqn:H1;
    destruct (has_column df "cash_real_return_monthly") eqn:H2;
    destruct (has_column df "gold_return_monthly") eqn:H3;
    destruct (has_column df "sp500_return_monthly") eqn:H4;
    first [ exfalso; absent_cases Hin Habs; fail | raises_key_error Hr ].
Qed.

Lemma standardize_missing (h : heap) r df c :
  h !! r = Some df ->
  In c (required_columns Standardize) -> has_column df c = false ->
  key_error_outcome Standardize df (standardize_debasement_indicators r h).
Proof.
  intros Hl Hin Habs. pose proof (lookup_lt_Some _ _ _ Hl) as Hr.
  rewrite <- (list_insert_id _ _ _ Hl) at 1.
  unfold key_error_outcome, standardize_debasement_indicators,
    DEBASEMENT_INDICATOR_COLUMNS.
  cbn [standardize_loop].
  destruct (has_column df "m2_yoy_pct") eqn:H1;
    destruct (has_column df "cpi_yoy_pct") eqn:H2;
    destruct (has_column df "real_m2_growth") eqn:H3;
    destruct (has_column df "m2_to_gdp") eqn:H4;
    first [ exfalso; absent_cases Hin Habs; fail
          | eexists _, _; split;
            [ erewrite bind_err; [reflexivity|]; repeat run_any Hr; reflexivity
            | split; [discriminate|];
              repeat (apply List.Forall_cons; [split; [simpl; auto 10 | assumption]|]);
              apply List.Forall_nil ] ].
Qed.

Lemma composite_missing (h : heap) r df c :
  h !! r = Some df ->
  In c (required_columns CompositeScore) -> has_column df c = false ->
  key_error_outcome CompositeScore df
    (compute_zscore_composite_debasement_score r h).
Proof.
  intros Hl Hin Habs.
  unfold key_error_outcome, compute_zscore_composite_debasement_score, getitems.
  assert (Hm : In c (missing_columns df (required_columns CompositeScore)))
    by (apply missing_columns_spec; split; assumption).
  change (required_columns CompositeScore)
    with (List.map z_name DEBASEMENT_INDICATOR_COLUMNS) in Hm.
  destruct (missing_columns df (List.map z_name DEBASEMENT_INDICATOR_COLUMNS))
    as [|l ls] eqn:E; [destruct Hm|].
  exists (l :: ls), h. split.
  - apply bind_err. erewrite bind_ok; [| apply load_ok; exact Hl].
    rewrite E. reflexivity.
  - split; [discriminate|].
    apply List.Forall_forall. intros x Hx. rewrite <- E in Hx.
    apply missing_columns_spec in Hx. exact Hx.
Qed.

(** C8 (amended).  Every feature stage that is handed a frame lacking a
    column it reads stops with an exception instead of computing on missing
    data: the run ends in a [KeyError] (pandas' own missing-label error; the
    module defines no [SchemaError]) whose labels are columns the stage reads
    and the frame lacks. *)
Theorem stage_missing_column_raises_key_error :
  forall (st : stage) (h : heap) (r : ref) (df : DataFrame) (c : string),
    h !! r = Some df ->
    In c (required_columns st) ->
    has_column df c = false ->
    key_error_outcome st df (run_stage st r h).
Proof.
  intros st h r df c Hl Hin Habs. destruct st; simpl run_stage.
  - exact (debasement_missing h r df c Hl Hin Habs).
  - exact (returns_missing h r df c Hl Hin Habs).
  - exact (cash_missing h r df c Hl Hin Habs).
  - exact (spread_missing h r df c Hl Hin Habs).
  - exact (standardize_missing h r df c Hl Hin Habs).
  - exact (composite_missing h r df c Hl Hin Habs).
Qed.

Lemma stage_missing_column_witness :
  key_error_outcome DebasementIndicators frame_without_m2
    (run_stage DebasementIndicators 0%nat [frame_without_m2]).
Proof.
  apply (stage_missing_column_raises_key_error
           DebasementIndicators [frame_without_m2] 0%nat frame_without_m2 "m2").
  - reflexivity.
  - simpl. auto.
  - reflexivity.
Defined.

(** C8 as the specification words it fails: the exception raised for the
    absent money-supply column is a [KeyError], not a [SchemaError]. *)
Lemma missing_column_is_not_schema_error :
  exists e h',
    compute_debasement_indicators 0%nat [frame_without_m2] = (Err e, h')
    /\ e = KeyError ["m2"]
    /\ exn_class e <> "SchemaError".
Proof.
  exists (KeyError ["m2"]), [frame_without_m2].
  split; [reflexivity|]. split; [reflexivity|]. discriminate.
Qed.

(** ** Cell arithmetic *)

Lemma fsub_fin a b : fsub (Fin a) (Fin b) = Fin (a - b).
Proof. reflexivity. Qed.

Lemma fdiv_fin a b : b <> 0%R -> fdiv (Fin a) (Fin b) = Fin (a / b).
Proof.
  intros Hb. unfold fdiv. destruct (Req_dec_T b 0); [contradiction|reflexivity].
Qed.

Lemma cash_real_return_fin a b :
  cash_real_return (Fin a) (Fin b) = Fin ((a - b) / 12 / 100).
Proof.
  unfold cash_real_return. rewrite fsub_fin, !fdiv_fin by lra. reflexivity.
Qed.

Lemma nth_map2 {A B C} (f : A -> B -> C) l l' i da db dc :
  (i < length l)%nat -> (i < length l')%nat ->
  nth i (map2 f l l') dc = f (nth i l da) (nth i l' db).
Proof.
  revert l' i. induction l as [|a l IH]; intros [|b l'] [|i] Hl Hl';
    simpl in *; try lia; [reflexivity|].
  apply IH; lia.
Qed.

Lemma cell_df_set df c v i : cell (df_set df c v) c i = nth i v NaN.
Proof.
  unfold cell. rewrite get_column_df_set, String.eqb_refl. reflexivity.
Qed.

(** C4.  [compute_cash_real_return] succeeds on a frame that has the rate
    and the inflation column, assigns into that same frame, and in every row
    the new cell is (rate - inflation) / 12 / 100 computed on the cells of
    that row: a missing input gives a missing return, and finite inputs [a]
    and [b] (in percent) give the real number (a - b) / 12 / 100. *)
Theorem cash_real_return_formula :
  forall (h : heap) (r : ref) (df : DataFrame) (rate inflation : list float),
    h !! r = Some df ->
    get_column df "fed_funds_rate" = Some rate ->
    get_column df "cpi_yoy_pct" = Some inflation ->
    exists df',
      compute_cash_real_return r h = (Ok r, <[r:=df']> h)
      /\ get_column df' "fed_funds_rate" = Some rate
      /\ get_column df' "cpi_yoy_pct" = Some inflation
      /\ forall i, (i < length rate)%nat -> (i < length inflation)%nat ->
           cell df' "cash_real_return_monthly" i
           = fdiv (fdiv (fsub (nth i rate NaN) (nth i inflation NaN)) (Fin 12))
                  (Fin 100)
           /\ (forall a b, nth i rate NaN = Fin a -> nth i inflation NaN = Fin b ->
                 cell df' "cash_real_return_monthly" i
                 = Fin ((a - b) / 12 / 100))
           /\ (isnan (nth i rate NaN) || isnan (nth i inflation NaN) = true ->
                 cell df' "cash_real_return_monthly" i = NaN).
Proof.
  intros h r df rate inflation Hl Hrate Hinfl.
  exists (cash_frame df). split.
  - apply compute_cash_real_return_run;
      [exact Hl | eapply get_column_has; eassumption ..].
  - unfold cash_frame. rewrite !get_column_df_set. simpl.
    split; [exact Hrate|]. split; [exact Hinfl|].
    intros i Hi Hi'. rewrite cell_df_set.
    unfold col. rewrite Hrate, Hinfl.
    rewrite (nth_map2 _ _ _ _ NaN NaN) by assumption.
    split; [reflexivity|]. split.
    + intros a b -> ->. apply cash_real_return_fin.
    + intros Hnan. unfold cash_real_return.
      destruct (nth i rate NaN), (nth i inflation NaN);
        simpl in Hnan; try discriminate; reflexivity.
Qed.

Lemma cash_real_return_formula_witness :
  exists df',
    compute_cash_real_return 0%nat [rates_frame] = (Ok 0%nat, [df'])
    /\ cell df' "cash_real_return_monthly" 0 = Fin ((5 - 2) / 12 / 100)
    /\ cell df' "cash_real_return_monthly" 1 = NaN.
Proof.
  destruct (cash_real_return_formula [rates_frame] 0%nat rates_frame
              [Fin 5%R; Fin 3%R] [Fin 2%R; NaN] eq_refl eq_refl eq_refl)
    as (df' & Hrun & _ & _ & Hcells).
  exists df'. split; [exact Hrun|]. split.
  - destruct (Hcells 0%nat) as (_ & Hfin & _); [simpl; lia ..|].
    apply Hfin; reflexivity.
  - destruct (Hcells 1%nat) as (_ & _ & Hnan); [simpl; lia ..|].
    apply Hnan; reflexivity.
Defined.

(** ** The labels of the frames *)

Lemma col_names_set df c v :
  col_names (df_set df c v) = names_set (col_names df) c.
Proof. rewrite col_names_df_set. reflexivity. Qed.

Lemma col_names_drop df cs :
  col_names (df_drop df cs) = names_drop (col_names df) cs.
Proof. apply col_names_df_drop. Qed.

Lemma col_names_debasement_frame df :
  col_names (debasement_frame df)
  = names_drop
      (names_set (names_set (names_set (names_set (col_names df)
         "m2_yoy_pct") "cpi_yoy_pct") "real_m2_growth") "m2_to_gdp")
      ["m2"; "cpi"; "gdp_monthly"].
Proof.
  unfold debasement_frame, debasement_filled. cbv zeta.
  rewrite col_names_drop, !col_names_set. reflexivity.
Qed.

Lemma col_names_returns_frame df :
  col_names (returns_frame df)
  = names_drop
      (names_set (names_set (names_set (col_names df)
         "btc_return_monthly") "sp500_return_monthly") "gold_return_monthly")
      ["btc_price"; "sp500_price"; "gold_price"].
Proof.
  unfold returns_frame, returns_filled. cbv zeta.
  rewrite col_names_drop, !col_names_set. reflexivity.
Qed.

Lemma col_names_cash_frame df :
  col_names (cash_frame df)
  = names_set (col_names df) "cash_real_return_monthly".
Proof. unfold cash_frame. apply col_names_set. Qed.

Lemma col_names_spread_frame df :
  col_names (spread_frame df)
  = names_set (names_set (names_set (col_names df)
      "btc_vs_cash_real_spread") "gold_vs_cash_real_spread")
      "sp500_vs_cash_real_spread".
Proof.
  unfold spread_frame. cbv zeta. rewrite !col_names_set. reflexivity.
Qed.

Lemma col_names_fold_standardize cols : forall df,
  col_names (fold_left standardize_column cols df)
  = fold_left (fun ns c => names_set ns (z_name c)) cols (col_names df).
Proof.
  induction cols as [|c cols IH]; intros df; simpl; [reflexivity|].
  rewrite IH. unfold standardize_column. rewrite col_names_set. reflexivity.
Qed.

Lemma col_names_composite_frame df :
  col_names (composite_frame df)
  = names_set (col_names df) "zscore_composite_debasement_score".
Proof. unfold composite_frame. apply col_names_set. Qed.

(** The labels of the frame returned for an aligned frame. *)
Lemma col_names_analysis_frame df :
  col_names df = ALIGNED_COLUMNS ->
  col_names (analysis_frame df) = OUTPUT_COLUMNS.
Proof.
  intros Hn. unfold analysis_frame, df_dropna.
  rewrite col_names_filter_rows. unfold features_frame.
  rewrite col_names_composite_frame. unfold standardized_frame.
  rewrite col_names_fold_standardize, col_names_spread_frame,
    col_names_cash_frame, col_names_returns_frame,
    col_names_debasement_frame, Hn.
  reflexivity.
Qed.

Lemma aligned_names_present df :
  col_names df = ALIGNED_COLUMNS ->
  forallb (has_column df) ALIGNED_COLUMNS = true.
Proof.
  intros Hn. unfold has_column. rewrite Hn. reflexivity.
Qed.

Lemma col_names_concat_inner ss :
  col_names (concat_inner ss) = List.map s_name ss.
Proof.
  destruct ss as [|s0 rest]; [reflexivity|].
  unfold concat_inner, col_names. cbv zeta. cbn [df_columns].
  rewrite List.map_map. reflexivity.
Qed.

Lemma col_names_df_loc_from start df :
  col_names (df_loc_from start df) = col_names df.
Proof. apply col_names_filter_rows. Qed.

Lemma col_names_df_dropna df : col_names (df_dropna df) = col_names df.
Proof. apply col_names_filter_rows. Qed.

Section AlignerFacts.
Context `{SplineSolver}.

Lemma interpolate_name gdp g :
  interpolate_gdp_to_monthly gdp = Ok g -> s_name g = "gdp_monthly".
Proof.
  unfold interpolate_gdp_to_monthly, rbind.
  destruct (CubicSpline _ _); [|discriminate]. intros [= <-]. reflexivity.
Qed.

Lemma align_eq m2 cpi gdp ff tips btc sp gold g :
  interpolate_gdp_to_monthly gdp = Ok g ->
  align_all_series_to_monthly m2 cpi gdp ff tips btc sp gold
  = Ok (aligned_frame (monthly_series g m2 cpi ff tips btc sp gold)).
Proof.
  intros E. unfold align_all_series_to_monthly. rewrite E. reflexivity.
Qed.

Lemma align_err m2 cpi gdp ff tips btc sp gold e :
  interpolate_gdp_to_monthly gdp = Err e ->
  align_all_series_to_monthly m2 cpi gdp ff tips btc sp gold = Err e.
Proof.
  intros E. unfold align_all_series_to_monthly. rewrite E. reflexivity.
Qed.

Lemma align_inv m2 cpi gdp ff tips btc sp gold df :
  align_all_series_to_monthly m2 cpi gdp ff tips btc sp gold = Ok df ->
  exists g, interpolate_gdp_to_monthly gdp = Ok g
            /\ df = aligned_frame (monthly_series g m2 cpi ff tips btc sp gold).
Proof.
  intros Ha. destruct (interpolate_gdp_to_monthly gdp) as [g|e] eqn:E.
  - exists g. split; [reflexivity|].
    rewrite (align_eq _ _ _ _ _ _ _ _ _ E) in Ha. congruence.
  - rewrite (align_err _ _ _ _ _ _ _ _ _ E) in Ha. discriminate.
Qed.

Lemma col_names_aligned_frame ss :
  col_names (aligned_frame ss) = List.map s_name ss.
Proof.
  unfold aligned_frame.
  rewrite col_names_df_dropna, col_names_df_loc_from.
  apply col_names_concat_inner.
Qed.

Lemma align_col_names m2 cpi gdp ff tips btc sp gold df :
  align_all_series_to_monthly m2 cpi gdp ff tips btc sp gold = Ok df ->
  col_names df = ALIGNED_COLUMNS.
Proof.
  intros Ha. apply align_inv in Ha as (g & E & ->).
  rewrite col_names_aligned_frame. unfold monthly_series. simpl List.map.
  rewrite (interpolate_name _ _ E). reflexivity.
Qed.

(** [main] on inputs that align: the frame saved is [analysis_frame] of the
    aligned frame. *)
Lemma main_run m2 cpi gdp ff tips btc sp gold aligned :
  align_all_series_to_monthly m2 cpi gdp ff tips btc sp gold = Ok aligned ->
  main m2 cpi gdp ff tips btc sp gold = Ok (analysis_frame aligned).
Proof.
  intros Ha. unfold main, rbind. rewrite Ha.
  destruct (build_analysis_dataframe_run [aligned] 0%nat aligned eq_refl)
    as (r' & h' & Hrun & Hlook).
  - apply aligned_names_present. eapply align_col_names. exact Ha.
  - rewrite Hrun, Hlook. reflexivity.
Qed.

(** C1 (amended).  Whenever the inputs align, the pipeline produces a frame
    to save, and its columns are exactly, in this order: the policy rate and
    the real yield as aligned ([fed_funds_rate], [tips_real_yield_10y]),
    then the sixteen derived columns of section 4.3.  The money-supply,
    price-index and output levels and the three asset prices are gone. *)
Theorem saved_frame_columns :
  forall (m2 cpi gdp fed_funds tips_real_yield btc sp500 gold : Series)
         (aligned : DataFrame),
    align_all_series_to_monthly m2 cpi gdp fed_funds tips_real_yield
                                btc sp500 gold = Ok aligned ->
    exists out,
      main m2 cpi gdp fed_funds tips_real_yield btc sp500 gold = Ok out
      /\ col_names out = OUTPUT_COLUMNS
      /\ (forall c, In c ["m2"; "cpi"; "gdp_monthly";
                          "btc_price"; "sp500_price"; "gold_price"] ->
                    has_column out c = false)
      /\ (forall c, In c DERIVED_COLUMNS -> has_column out c = true).
Proof.
  intros m2 cpi gdp ff tips btc sp gold aligned Ha.
  exists (analysis_frame aligned).
  split; [apply main_run; exact Ha|].
  assert (Hn : col_names (analysis_frame aligned) = OUTPUT_COLUMNS)
    by (apply col_names_analysis_frame; eapply align_col_names; exact Ha).
  split; [exact Hn|]. unfold has_column. rewrite Hn.
  split; intros c Hc; simpl in Hc;
    repeat (destruct Hc as [<-|Hc]; [reflexivity|]); destruct Hc.
Qed.

End AlignerFacts.

(** ** Dates *)

Lemma date_eqb_eq a b : date_eqb a b = true <-> a = b.
Proof.
  unfold date_eqb. destruct a as [y m d], b as [y' m' d']. simpl.
  rewrite !andb_true_iff, !Z.eqb_eq. split.
  - intros [[-> ->] ->]. reflexivity.
  - intros [= -> -> ->]. auto.
Qed.

Lemma mem_date_In d l : mem_date d l = true <-> In d l.
Proof.
  unfold mem_date. rewrite existsb_exists. split.
  - intros (x & Hx & E). apply date_eqb_eq in E. subst. exact Hx.
  - intros Hd. exists d. split; [exact Hd | apply date_eqb_eq; reflexivity].
Qed.

Lemma month_index_first_of_month k : month_index (first_of_month k) = k.
Proof.
  unfold month_index, first_of_month. simpl.
  pose proof (Z.div_mod k 12). lia.
Qed.

Lemma month_index_month_end_of k : month_index (month_end_of k) = k.
Proof.
  unfold month_index, month_end_of. simpl.
  pose proof (Z.div_mod k 12). lia.
Qed.

Lemma MonthEnd0_first_of_month k : MonthEnd0 (first_of_month k) = month_end_of k.
Proof. unfold MonthEnd0. rewrite month_index_first_of_month. reflexivity. Qed.

Lemma month_end_of_inj k k' : month_end_of k = month_end_of k' -> k = k'.
Proof.
  intros E. rewrite <- (month_index_month_end_of k), E.
  apply month_index_month_end_of.
Qed.

Lemma NoDup_zrange lo hi : List.NoDup (zrange lo hi).
Proof.
  unfold zrange. generalize (Z.to_nat (hi - lo + 1)). intros n.
  generalize 0%nat. induction n as [|n IH]; intros s; simpl.
  - constructor.
  - constructor; [|apply IH].
    rewrite List.in_map_iff. intros (i & E & Hi).
    apply List.in_seq in Hi. lia.
Qed.

Lemma In_zrange lo hi k : In k (zrange lo hi) <-> lo <= k <= hi.
Proof.
  unfold zrange. rewrite List.in_map_iff. split.
  - intros (i & <- & Hi). apply List.in_seq in Hi. lia.
  - intros Hk. exists (Z.to_nat (k - lo)). split; [lia|].
    apply List.in_seq. lia.
Qed.

Lemma NoDup_map_inj {A B} (f : A -> B) l :
  (forall x y, f x = f y -> x = y) -> List.NoDup l -> List.NoDup (List.map f l).
Proof.
  intros Hinj Hnd. induction Hnd as [|a l Ha Hnd IH]; simpl; constructor.
  - rewrite List.in_map_iff. intros (x & E & Hx).
    apply Hinj in E. subst. contradiction.
  - exact IH.
Qed.

Lemma NoDup_list_filter {A} (f : A -> bool) l :
  List.NoDup l -> List.NoDup (List.filter f l).
Proof.
  intros Hnd. induction Hnd as [|a l Ha Hnd IH]; simpl; [constructor|].
  destruct (f a); [|exact IH].
  constructor; [|exact IH]. rewrite List.filter_In. tauto.
Qed.

(** ** Resampling *)

Lemma s_index_rename s n : s_index (rename s n) = s_index s.
Proof. reflexivity. Qed.

Lemma s_name_rename s n : s_name (rename s n) = n.
Proof. reflexivity. Qed.

Lemma series_at_rename s n d : series_at (rename s n) d = series_at s d.
Proof. reflexivity. Qed.

(** The index of a resampled series lists distinct month ends. *)
Lemma resample_index s :
  exists lo hi, s_index (resample_ME_last s) = List.map month_end_of (zrange lo hi)
                \/ s_index (resample_ME_last s) = [].
Proof.
  unfold resample_ME_last. destruct (s_items s) as [|[d0 v0] t] eqn:E.
  - exists 0, 0. right. reflexivity.
  - eexists _, _. left. unfold s_index. cbv zeta. cbn [s_items].
    rewrite List.map_map. cbn [fst]. reflexivity.
Qed.

Lemma NoDup_resample_index s : List.NoDup (s_index (resample_ME_last s)).
Proof.
  destruct (resample_index s) as (lo & hi & [E|E]); rewrite E.
  - apply NoDup_map_inj; [apply month_end_of_inj | apply NoDup_zrange].
  - constructor.
Qed.

(** ** The aligned frame in closed form *)

Lemma select_map {A B} (f : A -> B) mask l :
  select mask (List.map f l) = List.map f (select mask l).
Proof.
  revert l. induction mask as [|b mask IH]; intros [|a l]; simpl;
    try reflexivity.
  destruct b; simpl; rewrite IH; reflexivity.
Qed.

Lemma select_map_mask {A} (f : A -> bool) l :
  select (List.map f l) l = List.filter f l.
Proof.
  induction l as [|a l IH]; simpl; [reflexivity|].
  destruct (f a); rewrite IH; reflexivity.
Qed.

Lemma filter_rows_frame_of f ss idx :
  filter_rows (List.map f idx) (frame_of ss idx)
  = frame_of ss (List.filter f idx).
Proof.
  unfold filter_rows, frame_of. cbn [df_index df_columns].
  rewrite select_map_mask. f_equal.
  rewrite List.map_map. apply List.map_ext. intros s. cbn [fst snd].
  rewrite select_map, select_map_mask. reflexivity.
Qed.

Lemma concat_inner_frame_of s0 rest :
  concat_inner (s0 :: rest)
  = frame_of (s0 :: rest) (List.filter (common_label rest) (s_index s0)).
Proof. reflexivity. Qed.

Lemma df_loc_from_frame_of start ss idx :
  df_loc_from start (frame_of ss idx)
  = frame_of ss (List.filter (date_leb start) idx).
Proof. unfold df_loc_from. apply filter_rows_frame_of. Qed.

Lemma map_seq_nth {A B} (g : A -> B) (l : list A) (d0 : A) : forall f : nat -> B,
  (forall i, (i < length l)%nat -> f i = g (nth i l d0)) ->
  List.map f (seq 0 (length l)) = List.map g l.
Proof.
  induction l as [|a l IH]; intros f Hf; simpl; [reflexivity|].
  f_equal; [apply (Hf 0%nat); simpl; lia|].
  rewrite <- List.seq_shift, List.map_map. apply IH.
  intros i Hi. apply (Hf (S i)). simpl. lia.
Qed.

Lemma nth_map_default {A B} (f : A -> B) l i d0 d1 :
  (i < length l)%nat -> nth i (List.map f l) d1 = f (nth i l d0).
Proof.
  intros Hi. rewrite (List.nth_indep _ d1 (f d0)) by (rewrite List.length_map; exact Hi).
  apply List.map_nth.
Qed.

Lemma row_has_nan_frame_of ss idx i d0 :
  (i < length idx)%nat ->
  row_has_nan (frame_of ss idx) i = negb (complete_label ss (nth i idx d0)).
Proof.
  intros Hi. unfold row_has_nan, frame_of, complete_label. cbn [df_columns].
  induction ss as [|s ss IH]; simpl; [reflexivity|].
  rewrite IH, (nth_map_default _ _ _ d0) by exact Hi.
  unfold notna. rewrite negb_andb, negb_involutive. reflexivity.
Qed.

Lemma df_dropna_frame_of ss idx :
  df_dropna (frame_of ss idx)
  = frame_of ss (List.filter (complete_label ss) idx).
Proof.
  unfold df_dropna. rewrite <- filter_rows_frame_of. f_equal.
  unfold nrows. cbn [frame_of df_index].
  apply (map_seq_nth _ _ (mkDate 0 0 0)). intros i Hi.
  rewrite (row_has_nan_frame_of _ _ _ (mkDate 0 0 0)) by exact Hi.
  apply negb_involutive.
Qed.

Lemma aligned_frame_closed_form ss :
  ss <> [] -> aligned_frame ss = frame_of ss (aligned_index ss).
Proof.
  destruct ss as [|s0 rest]; [congruence|]. intros _.
  unfold aligned_frame, aligned_index.
  rewrite concat_inner_frame_of, df_loc_from_frame_of, df_dropna_frame_of.
  reflexivity.
Qed.

Lemma In_aligned_index ss d :
  In d (aligned_index ss)
  <-> ss <> []
      /\ (forall s, In s ss -> In d (s_index s))
      /\ date_leb BTC_SERIES_START d = true
      /\ (forall s, In s ss -> isnan (series_at s d) = false).
Proof.
  destruct ss as [|s0 rest]; simpl aligned_index.
  - split; [intros [] | intros (Hne & _); congruence].
  - rewrite !List.filter_In. unfold complete_label, common_label.
    rewrite !forallb_forall.
    split.
    + intros (((H0 & Hrest) & Hstart) & Hcomplete).
      split; [discriminate|]. split; [|split; [exact Hstart|]].
      * intros s [<-|Hs]; [exact H0|].
        apply mem_date_In. apply Hrest. exact Hs.
      * intros s Hs. specialize (Hcomplete s Hs). unfold notna in Hcomplete.
        apply negb_true_iff in Hcomplete. exact Hcomplete.
    + intros (_ & Hall & Hstart & Hcomplete).
      split; [split; [split|]|].
      * apply Hall. left. reflexivity.
      * intros s Hs. apply mem_date_In. apply Hall. right. exact Hs.
      * exact Hstart.
      * intros s Hs. unfold notna. rewrite (Hcomplete s Hs). reflexivity.
Qed.

Lemma NoDup_aligned_index ss :
  (forall s0 rest, ss = s0 :: rest -> List.NoDup (s_index s0)) ->
  List.NoDup (aligned_index ss).
Proof.
  destruct ss as [|s0 rest]; intros Hnd; simpl; [constructor|].
  do 3 apply NoDup_list_filter. apply (Hnd s0 rest). reflexivity.
Qed.

Lemma frame_of_no_nan ss c v x :
  In (c, v) (df_columns (frame_of ss (aligned_index ss))) ->
  In x v -> isnan x = false.
Proof.
  unfold frame_of. cbn [df_columns]. rewrite List.in_map_iff.
  intros (s & E & Hs) Hx. injection E as <- <-.
  apply List.in_map_iff in Hx as (d & <- & Hd).
  apply In_aligned_index in Hd as (_ & _ & _ & Hc). apply Hc. exact Hs.
Qed.

Lemma frame_of_rectangular ss idx : rectangular (frame_of ss idx).
Proof.
  unfold rectangular, frame_of, nrows. cbn [df_columns df_index].
  apply List.Forall_forall. intros p Hp.
  apply List.in_map_iff in Hp as (s & <- & _). cbn [snd].
  apply List.length_map.
Qed.

Section AlignedTable.
Context `{SplineSolver}.

Lemma monthly_series_first_NoDup g m2 cpi ff tips btc sp gold :
  forall s0 rest,
    monthly_series g m2 cpi ff tips btc sp gold = s0 :: rest ->
    List.NoDup (s_index s0).
Proof.
  intros s0 rest [= <- _]. rewrite s_index_rename. apply NoDup_resample_index.
Qed.

(** C2.  When alignment succeeds, the aligned frame has no missing cell, and
    its rows are exactly the dates that are in the index of every one of the
    eight monthly series (the interpolated output series after its shift to
    month ends, and the seven resampled ones), are not before the configured
    start date, and at which none of the eight is missing; no date occurs
    twice, every column has one cell per row, and each column holds its
    series read at those dates. *)
Theorem aligned_table_rows_and_completeness :
  forall (m2 cpi gdp fed_funds tips_real_yield btc sp500 gold : Series)
         (df : DataFrame),
    align_all_series_to_monthly m2 cpi gdp fed_funds tips_real_yield
                                btc sp500 gold = Ok df ->
    exists g,
      interpolate_gdp_to_monthly gdp = Ok g
      /\ let ss := monthly_series g m2 cpi fed_funds tips_real_yield
                                  btc sp500 gold in
         (forall c v x, In (c, v) (df_columns df) -> In x v -> isnan x = false)
         /\ (forall d,
               In d (df_index df)
               <-> (forall s, In s ss -> In d (s_index s))
                   /\ date_leb BTC_SERIES_START d = true
                   /\ (forall s, In s ss -> isnan (series_at s d) = false))
         /\ List.NoDup (df_index df)
         /\ rectangular df
         /\ df = frame_of ss (df_index df).
Proof.
  intros m2 cpi gdp ff tips btc sp gold df Ha.
  apply align_inv in Ha as (g & E & ->). exists g. split; [exact E|].
  cbv zeta.
  set (ss := monthly_series g m2 cpi ff tips btc sp gold).
  assert (Hne : ss <> []) by discriminate.
  rewrite (aligned_frame_closed_form ss Hne).
  change (df_index (frame_of ss (aligned_index ss))) with (aligned_index ss).
  split; [apply frame_of_no_nan|].
  split.
  { intros d. rewrite In_aligned_index. tauto. }
  split.
  { apply NoDup_aligned_index. apply monthly_series_first_NoDup. }
  split; [apply frame_of_rectangular | reflexivity].
Qed.

(** C6 (amended).  When no date is in the index of all eight monthly series
    (disjoint date ranges, for one), alignment raises nothing: it returns a
    frame with the eight aligned columns and no row. *)
Theorem disjoint_ranges_give_empty_frame :
  forall (m2 cpi gdp fed_funds tips_real_yield btc sp500 gold g : Series),
    interpolate_gdp_to_monthly gdp = Ok g ->
    (forall d, ~ (forall s,
                    In s (monthly_series g m2 cpi fed_funds tips_real_yield
                                         btc sp500 gold) ->
                    In d (s_index s))) ->
    exists df,
      align_all_series_to_monthly m2 cpi gdp fed_funds tips_real_yield
                                  btc sp500 gold = Ok df
      /\ df_index df = []
      /\ col_names df = ALIGNED_COLUMNS
      /\ (forall c v, In (c, v) (df_columns df) -> v = []).
Proof.
  intros m2 cpi gdp ff tips btc sp gold g E Hdisj.
  eexists. split; [apply align_eq; exact E|].
  set (ss := monthly_series g m2 cpi ff tips btc sp gold) in *.
  assert (Hne : ss <> []) by discriminate.
  rewrite (aligned_frame_closed_form ss Hne).
  assert (Hidx : aligned_index ss = []).
  { destruct (aligned_index ss) as [|d l] eqn:Ei; [reflexivity|].
    exfalso. apply (Hdisj d).
    assert (Hd : In d (aligned_index ss)) by (rewrite Ei; left; reflexivity).
    apply In_aligned_index in Hd as (_ & Hall & _). exact Hall. }
  rewrite Hidx. split; [reflexivity|]. split.
  - rewrite <- Hidx, <- (aligned_frame_closed_form ss Hne).
    rewrite col_names_aligned_frame. subst ss. unfold monthly_series.
    simpl List.map. rewrite (interpolate_name _ _ E). reflexivity.
  - unfold frame_of. cbn [df_columns]. intros c v Hin.
    apply List.in_map_iff in Hin as (s & [= _ <-] & _). reflexivity.
Qed.



End AlignedTable.

(** ** The spline passes through its knots *)

Lemma piece_left x0 y0 s0 k1 : piece (x0, y0, s0) k1 x0 = y0.
Proof.
  destruct k1 as [[x1 y1] s1]. unfold piece. rewrite Z.sub_diag. simpl IZR.
  ring.
Qed.

Lemma piece_right x0 y0 s0 x1 y1 s1 :
  x0 < x1 -> piece (x0, y0, s0) (x1, y1, s1) x1 = y1.
Proof.
  intros Hlt. unfold piece.
  assert (Hdx : IZR (x1 - x0) <> 0%R).
  { apply not_0_IZR. lia. }
  field. exact Hdx.
Qed.

Lemma strictly_increasing_head x l :
  strictly_increasing (x :: l) = true -> forall y, In y (x :: l) -> x <= y.
Proof.
  revert x. induction l as [|a l IH]; intros x Hs y Hy.
  - destruct Hy as [<-|[]]. lia.
  - simpl in Hs. apply andb_prop in Hs as [Hxa Hs]. apply Z.ltb_lt in Hxa.
    destruct Hy as [<-|Hy]; [lia|].
    specialize (IH a Hs y Hy). lia.
Qed.

Lemma strictly_increasing_tail x l :
  strictly_increasing (x :: l) = true -> strictly_increasing l = true.
Proof.
  destruct l as [|a l]; [reflexivity|]. simpl. intros Hs.
  apply andb_prop in Hs as [_ Hs]. exact Hs.
Qed.

Lemma ppoly_eval_knot ks :
  strictly_increasing (List.map knot_x ks) = true ->
  (2 <= length ks)%nat ->
  forall x y s, In (x, y, s) ks -> ppoly_eval ks x = y.
Proof.
  induction ks as [|k0 t IH]; intros Hs Hlen x y s Hin; [destruct Hin|].
  destruct t as [|k1 rest]; [simpl in Hlen; lia|].
  destruct k0 as [[x0 y0] s0], k1 as [[x1 y1] s1].
  assert (Hlt : x0 < x1).
  { simpl in Hs. apply andb_prop in Hs as [Hs _]. apply Z.ltb_lt. exact Hs. }
  pose proof (strictly_increasing_tail _ _ Hs) as Hst.
  destruct rest as [|k2 r].
  - cbn [ppoly_eval].
    destruct Hin as [E|[E|[]]]; injection E as <- <- <-.
    + apply piece_left.
    + apply piece_right. exact Hlt.
  - cbn [ppoly_eval]. cbn [fst].
    destruct Hin as [E|Hin].
    + injection E as <- <- <-.
      destruct (Z.ltb_spec x0 x1); [apply piece_left | lia].
    + assert (Hge : x1 <= x).
      { apply (strictly_increasing_head x1 (List.map knot_x (k2 :: r)) Hst).
        change (In (knot_x (x, y, s)) (List.map knot_x ((x1, y1, s1) :: k2 :: r))).
        apply List.in_map. exact Hin. }
      destruct (Z.ltb_spec x x1); [lia|].
      apply (IH Hst) with (s := s); [simpl; lia | exact Hin].
Qed.

Lemma finite_values_map l ys :
  finite_values l = Some ys -> l = List.map Fin ys.
Proof.
  revert ys. induction l as [|v l IH]; intros ys E; simpl in E.
  - injection E as <-. reflexivity.
  - destruct v; try discriminate.
    destruct (finite_values l) as [rs|]; [|discriminate].
    injection E as <-. simpl. rewrite (IH rs eq_refl). reflexivity.
Qed.

Lemma finite_values_all l :
  forallb isfinite l = true -> exists ys, finite_values l = Some ys.
Proof.
  induction l as [|v l IH]; simpl; intros Hf; [eexists; reflexivity|].
  apply andb_prop in Hf as [Hv Hl]. destruct v; try discriminate.
  destruct (IH Hl) as (ys & ->). eexists. reflexivity.
Qed.

Lemma knot_x_attach_slopes pts : forall sl,
  List.map knot_x (attach_slopes pts sl) = List.map fst pts.
Proof.
  induction pts as [|p pts IH]; intros sl; simpl; [reflexivity|].
  rewrite IH. reflexivity.
Qed.

Lemma length_attach_slopes pts : forall sl,
  length (attach_slopes pts sl) = length pts.
Proof.
  induction pts as [|p pts IH]; intros sl; simpl; [reflexivity|].
  rewrite IH. reflexivity.
Qed.

Lemma In_attach_slopes pts : forall sl p,
  In p pts -> exists s, In (p, s) (attach_slopes pts sl).
Proof.
  induction pts as [|q pts IH]; intros sl p Hin; [destruct Hin|].
  destruct Hin as [<-|Hin].
  - eexists. left. reflexivity.
  - destruct (IH (tl sl) p Hin) as (s & Hs). exists s. right. exact Hs.
Qed.

Lemma In_items_knots (items : list (date * float)) : forall ys d v,
  List.map snd items = List.map Fin ys ->
  In (d, v) items ->
  exists y, v = Fin y
            /\ In (timestamp d, y)
                  (combine (List.map timestamp (List.map fst items)) ys).
Proof.
  induction items as [|[d0 v0] items IH]; intros ys d v E Hin; [destruct Hin|].
  destruct ys as [|y0 ys]; [discriminate|]. simpl in E.
  injection E as E0 E.
  destruct Hin as [Hd|Hin].
  - injection Hd as <- <-. exists y0. split; [exact E0 | left; reflexivity].
  - destruct (IH ys d v E Hin) as (y & Hv & Hy).
    exists y. split; [exact Hv | right; exact Hy].
Qed.

Lemma map_fst_combine {A B} (l : list A) (l' : list B) :
  length l = length l' -> List.map fst (combine l l') = l.
Proof.
  revert l'. induction l as [|a l IH]; intros [|b l'] Hlen; simpl in *;
    try reflexivity; try discriminate.
  rewrite IH by lia. reflexivity.
Qed.

(** ** The order of dates *)

Lemma date_leb_spec a b :
  date_leb a b = true
  <-> year a < year b
      \/ (year a = year b
          /\ (month a < month b \/ (month a = month b /\ day a <= day b))).
Proof.
  unfold date_leb.
  rewrite !orb_true_iff, !andb_true_iff, !orb_true_iff, !andb_true_iff,
    !Z.ltb_lt, !Z.eqb_eq, Z.leb_le.
  reflexivity.
Qed.

Lemma date_leb_refl a : date_leb a a = true.
Proof. apply date_leb_spec. lia. Qed.

Lemma date_leb_trans a b c :
  date_leb a b = true -> date_leb b c = true -> date_leb a c = true.
Proof. rewrite !date_leb_spec. lia. Qed.

Lemma date_leb_total a b : date_leb a b = false -> date_leb b a = true.
Proof.
  intros Hab. apply date_leb_spec.
  destruct (date_leb a b) eqn:E; [discriminate|].
  assert (Hn : ~ (year a < year b
      \/ (year a = year b
          /\ (month a < month b \/ (month a = month b /\ day a <= day b))))).
  { intros Hc. apply date_leb_spec in Hc. congruence. }
  lia.
Qed.

Lemma date_min_spec l : forall d0,
  In (date_min d0 l) (d0 :: l)
  /\ forall x, In x (d0 :: l) -> date_leb (date_min d0 l) x = true.
Proof.
  induction l as [|a l IH]; intros d0.
  - simpl. split; [left; reflexivity|]. intros x [<-|[]]. apply date_leb_refl.
  - change (date_min d0 (a :: l))
      with (date_min (if date_leb d0 a then d0 else a) l).
    destruct (IH (if date_leb d0 a then d0 else a)) as (Hin & Hle).
    split.
    + destruct Hin as [Hin|Hin]; [|right; right; exact Hin].
      rewrite <- Hin. destruct (date_leb d0 a); [left|right; left]; reflexivity.
    + intros x Hx.
      assert (Hm : date_leb (date_min (if date_leb d0 a then d0 else a) l)
                            (if date_leb d0 a then d0 else a) = true)
        by (apply Hle; left; reflexivity).
      destruct Hx as [<-|[<-|Hx]].
      * eapply date_leb_trans; [exact Hm|].
        destruct (date_leb d0 a) eqn:E;
          [apply date_leb_refl | apply date_leb_total; exact E].
      * eapply date_leb_trans; [exact Hm|].
        destruct (date_leb d0 a) eqn:E; [exact E | apply date_leb_refl].
      * apply Hle. right. exact Hx.
Qed.

Lemma date_max_spec l : forall d0,
  In (date_max d0 l) (d0 :: l)
  /\ forall x, In x (d0 :: l) -> date_leb x (date_max d0 l) = true.
Proof.
  induction l as [|a l IH]; intros d0.
  - simpl. split; [left; reflexivity|]. intros x [<-|[]]. apply date_leb_refl.
  - change (date_max d0 (a :: l))
      with (date_max (if date_leb d0 a then a else d0) l).
    destruct (IH (if date_leb d0 a then a else d0)) as (Hin & Hle).
    split.
    + destruct Hin as [Hin|Hin]; [|right; right; exact Hin].
      rewrite <- Hin. destruct (date_leb d0 a); [right; left|left]; reflexivity.
    + intros x Hx.
      assert (Hm : date_leb (if date_leb d0 a then a else d0)
                            (date_max (if date_leb d0 a then a else d0) l) = true)
        by (apply Hle; left; reflexivity).
      destruct Hx as [<-|[<-|Hx]].
      * eapply date_leb_trans; [|exact Hm].
        destruct (date_leb d0 a) eqn:E; [exact E | apply date_leb_refl].
      * eapply date_leb_trans; [|exact Hm].
        destruct (date_leb d0 a) eqn:E;
          [apply date_leb_refl | apply date_leb_total; exact E].
      * apply Hle. right. exact Hx.
Qed.

Lemma valid_date_month d : valid_date d = true -> 1 <= month d <= 12 /\ 1 <= day d.
Proof.
  unfold valid_date. rewrite !andb_true_iff, !Z.leb_le. tauto.
Qed.

Lemma first_of_month_month_index d :
  1 <= month d <= 12 -> day d = 1 -> first_of_month (month_index d) = d.
Proof.
  intros Hm Hd. unfold first_of_month, month_index. destruct d as [y m dd].
  simpl in *. subst dd.
  assert (E1 : (y * 12 + (m - 1)) / 12 = y).
  { symmetry. apply (Z.div_unique _ _ y (m - 1)); lia. }
  assert (E2 : (y * 12 + (m - 1)) mod 12 = m - 1).
  { symmetry. apply (Z.mod_unique _ _ y (m - 1)); lia. }
  rewrite E1, E2. f_equal. lia.
Qed.


Lemma find_map_key {K} (f : K -> date) (g : K -> float) l k0 :
  (forall k k', f k = f k' -> k = k') -> In k0 l ->
  List.find (fun p => date_eqb (fst p) (f k0)) (List.map (fun k => (f k, g k)) l)
  = Some (f k0, g k0).
Proof.
  intros Hinj. induction l as [|k l IH]; intros Hin; [destruct Hin|].
  simpl. destruct (date_eqb (f k) (f k0)) eqn:E.
  - apply date_eqb_eq in E. apply Hinj in E. subst. reflexivity.
  - destruct Hin as [->|Hin]; [|apply IH; exact Hin].
    assert (E' : date_eqb (f k0) (f k0) = true) by (apply date_eqb_eq; reflexivity).
    congruence.
Qed.

Lemma combine_map_self {A B} (f : A -> B) l :
  combine l (List.map f l) = List.map (fun a => (a, f a)) l.
Proof.
  induction l as [|a l IH]; simpl; [reflexivity|]. rewrite IH. reflexivity.
Qed.

(** ** Interpolation of the quarterly series *)



Lemma month_end_of_is_month_end k : is_month_end (month_end_of k).
Proof.
  unfold is_month_end, month_end_of. simpl.
  pose proof (Z.mod_pos_bound k 12). split; [lia | reflexivity].
Qed.

Lemma knots_of_attach pts : forall sl,
  List.map (fun k => (knot_x k, Fin (knot_y k))) (attach_slopes pts sl)
  = List.map (fun p => (fst p, Fin (snd p))) pts.
Proof.
  induction pts as [|p pts IH]; intros sl; simpl; [reflexivity|].
  rewrite IH. reflexivity.
Qed.

Lemma stamped_combine (items : list (date * float)) : forall ys,
  List.map snd items = List.map Fin ys ->
  List.map (fun p => (fst p, Fin (snd p)))
           (combine (List.map timestamp (List.map fst items)) ys)
  = List.map (fun p => (timestamp (fst p), snd p)) items.
Proof.
  induction items as [|[d v] items IH]; intros [|y ys] E; simpl in *;
    try reflexivity; try discriminate.
  injection E as -> E. rewrite (IH ys E). reflexivity.
Qed.

Section Interpolation.
Context `{SplineSolver}.

Lemma CubicSpline_ok x y ys :
  (2 <= length x)%nat -> strictly_increasing x = true ->
  finite_values y = Some ys ->
  CubicSpline x y
  = Ok (mkSpline (attach_slopes (combine x ys) (solve_slopes (combine x ys)))).
Proof.
  intros Hlen Hs Hf. unfold CubicSpline.
  destruct (Nat.ltb_spec (length x) 2); [lia|]. rewrite Hf, Hs. reflexivity.
Qed.

Lemma spline_at_knots (items : list (date * float)) ys d v :
  (2 <= length items)%nat ->
  strictly_increasing (List.map timestamp (List.map fst items)) = true ->
  finite_values (List.map snd items) = Some ys ->
  In (d, v) items ->
  spline_call
    (mkSpline (attach_slopes
                 (combine (List.map timestamp (List.map fst items)) ys)
                 (solve_slopes
                    (combine (List.map timestamp (List.map fst items)) ys))))
    (timestamp d) = v.
Proof.
  intros Hlen Hs Hf Hin.
  pose proof (finite_values_map _ _ Hf) as Hys.
  assert (Hl : length (List.map timestamp (List.map fst items)) = length ys).
  { rewrite !List.length_map. rewrite <- (List.length_map snd items), Hys.
    apply List.length_map. }
  destruct (In_items_knots items ys d v Hys Hin) as (y & -> & Hk).
  destruct (In_attach_slopes _
              (solve_slopes (combine (List.map timestamp (List.map fst items)) ys))
              _ Hk) as (s & Hks).
  unfold spline_call. cbn [sp_knots]. f_equal.
  apply ppoly_eval_knot with (s := s).
  - rewrite knot_x_attach_slopes, map_fst_combine by exact Hl. exact Hs.
  - rewrite length_attach_slopes, List.length_combine, <- Hl, Nat.min_id,
      !List.length_map. exact Hlen.
  - exact Hks.
Qed.

Lemma interpolate_eq gdp sp d0 ds :
  CubicSpline (List.map timestamp (s_index (series_dropna gdp)))
              (s_values (series_dropna gdp)) = Ok sp ->
  s_index (series_dropna gdp) = d0 :: ds ->
  interpolate_gdp_to_monthly gdp
  = Ok (mkSeries "gdp_monthly"
          (List.map (fun d => (d, spline_call sp (timestamp d)))
                    (date_range_MS (date_min d0 ds) (date_max d0 ds)))).
Proof.
  intros Hsp Hidx. unfold interpolate_gdp_to_monthly. rewrite Hsp.
  cbn [rbind]. cbv zeta. rewrite Hidx, combine_map_self. reflexivity.
Qed.


End Interpolation.

Section InterpolationClaims.
Context `{SplineSolver}.

(** The interpolation of a series whose non-missing observations are at
    least two, at increasing dates, and finite. *)
Lemma interpolate_success gdp :
  (2 <= length (s_items (series_dropna gdp)))%nat ->
  strictly_increasing (List.map timestamp (s_index (series_dropna gdp))) = true ->
  forallb isfinite (s_values (series_dropna gdp)) = true ->
  exists sp d0 ds,
    CubicSpline (List.map timestamp (s_index (series_dropna gdp)))
                (s_values (series_dropna gdp)) = Ok sp
    /\ (forall d v, In (d, v) (s_items (series_dropna gdp)) ->
                    spline_call sp (timestamp d) = v)
    /\ List.map (fun k => (knot_x k, Fin (knot_y k))) (sp_knots sp)
       = stamped (series_dropna gdp)
    /\ s_index (series_dropna gdp) = d0 :: ds
    /\ interpolate_gdp_to_monthly gdp
       = Ok (mkSeries "gdp_monthly"
               (List.map (fun d => (d, spline_call sp (timestamp d)))
                         (date_range_MS (date_min d0 ds) (date_max d0 ds)))).
Proof.
  intros Hlen Hs Hf.
  destruct (finite_values_all _ Hf) as (ys & Hys).
  assert (Hsp := CubicSpline_ok
                   (List.map timestamp (s_index (series_dropna gdp)))
                   (s_values (series_dropna gdp)) ys).
  unfold s_index in Hsp at 1. rewrite !List.length_map in Hsp.
  specialize (Hsp Hlen Hs Hys).
  assert (Hex : exists d0 ds, s_index (series_dropna gdp) = d0 :: ds).
  { clear Hsp Hs Hf Hys. unfold s_index.
    destruct (s_items (series_dropna gdp)) as [|p l];
      [simpl in Hlen; lia | simpl; eauto]. }
  destruct Hex as (d0 & ds & Hidx).
  eexists _, d0, ds. split; [exact Hsp|]. split; [|split; [|split]].
  - intros d v Hin. unfold s_index.
    apply spline_at_knots; assumption.
  - cbn [sp_knots]. rewrite knots_of_attach. unfold s_index.
    apply stamped_combine. apply finite_values_map. exact Hys.
  - exact Hidx.
  - apply interpolate_eq; [exact Hsp | exact Hidx].
Qed.



End InterpolationClaims.

(** ** The sample run *)

Lemma sample_aligns :
  @align_all_series_to_monthly chord_slopes sample_m2 sample_cpi sample_gdp
    sample_fed_funds sample_tips sample_btc sample_sp500 sample_gold
  = Ok sample_aligned.
Proof. reflexivity. Qed.

(** February is dropped for its missing real yield, April is not common to
    all series. *)
Lemma sample_aligned_index :
  df_index sample_aligned = [mkDate 2015 1 31; mkDate 2015 3 31].
Proof. reflexivity. Qed.

Lemma saved_frame_columns_witness :
  exists out,
    @main chord_slopes sample_m2 sample_cpi sample_gdp sample_fed_funds
          sample_tips sample_btc sample_sp500 sample_gold = Ok out
    /\ col_names out = OUTPUT_COLUMNS.
Proof.
  destruct (@saved_frame_columns chord_slopes sample_m2 sample_cpi sample_gdp
              sample_fed_funds sample_tips sample_btc sample_sp500 sample_gold
              sample_aligned eq_refl) as (out & Hmain & Hcols & _).
  exists out. split; assumption.
Defined.

(** C1 as the specification words it fails on the sample: the frame that is
    saved keeps the policy-rate level and the real-yield level next to the
    derived columns. *)
Lemma saved_frame_keeps_rate_and_yield :
  exists out,
    @main chord_slopes sample_m2 sample_cpi sample_gdp sample_fed_funds
          sample_tips sample_btc sample_sp500 sample_gold = Ok out
    /\ In "fed_funds_rate" (col_names out)
    /\ In "tips_real_yield_10y" (col_names out)
    /\ col_names out <> DERIVED_COLUMNS.
Proof.
  exists (analysis_frame sample_aligned).
  split; [apply main_run; exact sample_aligns|].
  rewrite (col_names_analysis_frame sample_aligned
             (align_col_names _ _ _ _ _ _ _ _ _ sample_aligns)).
  split; [left; reflexivity|]. split; [right; left; reflexivity|].
  discriminate.
Qed.

Lemma aligned_table_witness :
  (forall c v x, In (c, v) (df_columns sample_aligned) -> In x v ->
                 isnan x = false)
  /\ List.NoDup (df_index sample_aligned)
  /\ rectangular sample_aligned.
Proof.
  destruct (@aligned_table_rows_and_completeness chord_slopes
              sample_m2 sample_cpi sample_gdp sample_fed_funds sample_tips
              sample_btc sample_sp500 sample_gold sample_aligned eq_refl)
    as (g & _ & Hnan & _ & Hnd & Hrect & _).
  split; [exact Hnan|]. split; [exact Hnd | exact Hrect].
Defined.

Lemma sample_gdp_interpolates :
  (2 <= length (s_items (series_dropna sample_gdp)))%nat
  /\ strictly_increasing
       (List.map timestamp (s_index (series_dropna sample_gdp))) = true
  /\ forallb isfinite (s_values (series_dropna sample_gdp)) = true
  /\ (forall d, In d (s_index (series_dropna sample_gdp)) -> valid_date d = true).
Proof.
  split; [simpl; lia|]. split; [reflexivity|]. split; [reflexivity|].
  intros d Hd. simpl in Hd. destruct Hd as [<-|[<-|[]]]; reflexivity.
Defined.



(** The monthly index of the series with the gap runs from January to July. *)
Lemma sample_gdp_gap_index :
  exists g,
    @interpolate_gdp_to_monthly chord_slopes sample_gdp_gap = Ok g
    /\ s_index g = List.map (fun m => mkDate 2015 m 1) [1; 2; 3; 4; 5; 6; 7].
Proof. eexists. split; reflexivity. Qed.

(** C6 as the specification words it fails: with bitcoin prices that start
    after every other series has ended, alignment returns a frame without
    rows and raises nothing. *)
Lemma disjoint_ranges_do_not_raise :
  exists df,
    @align_all_series_to_monthly chord_slopes sample_m2 sample_cpi sample_gdp
      sample_fed_funds sample_tips sample_btc_2016 sample_sp500 sample_gold
    = Ok df
    /\ df_index df = []
    /\ col_names df = ALIGNED_COLUMNS.
Proof. eexists. split; [reflexivity|]. split; reflexivity. Qed.

Lemma sample_m2_monthly_index :
  s_index (rename (resample_ME_last sample_m2) "m2")
  = [mkDate 2015 1 31; mkDate 2015 2 28; mkDate 2015 3 31].
Proof. reflexivity. Qed.

Lemma sample_btc_2016_monthly_index :
  s_index (rename (resample_daily_to_monthly_end sample_btc_2016) "btc_price")
  = [mkDate 2016 1 31; mkDate 2016 2 29].
Proof. reflexivity. Qed.

Lemma disjoint_ranges_witness :
  exists df,
    @align_all_series_to_monthly chord_slopes sample_m2 sample_cpi sample_gdp
      sample_fed_funds sample_tips sample_btc_2016 sample_sp500 sample_gold
    = Ok df
    /\ df_index df = [].
Proof.
  destruct (@interpolate_gdp_to_monthly chord_slopes sample_gdp) as [g|e] eqn:E;
    [|discriminate E].
  destruct (@disjoint_ranges_give_empty_frame chord_slopes sample_m2 sample_cpi
              sample_gdp sample_fed_funds sample_tips sample_btc_2016
              sample_sp500 sample_gold g E) as (df & Ha & Hidx & _).
  - intros d Hall.
    assert (H1 := Hall _ (or_introl eq_refl)).
    assert (H2 := Hall _ (or_intror (or_intror (or_intror (or_intror
                             (or_intror (or_introl eq_refl))))))).
    rewrite sample_m2_monthly_index in H1.
    rewrite sample_btc_2016_monthly_index in H2.
    destruct H1 as [<-|[<-|[<-|[]]]];
      destruct H2 as [H2|[H2|[]]]; discriminate H2.
  - exists df. split; assumption.
Defined.



(** ** Mean and standard deviation of a column *)

Local Open Scope R_scope.

Lemma fsum_fin rs : fsum (List.map Fin rs) = Fin (rsum rs).
Proof.
  unfold fsum. induction rs as [|r rs IH]; [reflexivity|].
  cbn [List.map fold_right rsum]. rewrite IH. reflexivity.
Qed.

Lemma INR_pos_length {A} (l : list A) : l <> [] -> INR (length l) <> 0.
Proof.
  intros Hne. apply not_0_INR. destruct l; [congruence | discriminate].
Qed.

Lemma series_mean_fin x rs :
  List.filter notna x = List.map Fin rs -> rs <> [] ->
  series_mean x = Fin (rsum rs / INR (length rs)).
Proof.
  intros E Hne. unfold series_mean. rewrite E.
  destruct rs as [|r rs]; [congruence|].
  change (List.map Fin (r :: rs)) with (Fin r :: List.map Fin rs) at 1.
  cbv iota beta. rewrite fsum_fin, List.length_map. unfold of_nat.
  apply fdiv_fin. apply INR_pos_length. discriminate.
Qed.

Lemma rsum_sq_nonneg (m : R) rs :
  0 <= rsum (List.map (fun r => (m - r) * (m - r)) rs).
Proof.
  unfold rsum. induction rs as [|r rs IH]; cbn [List.map fold_right]; [lra|].
  pose proof (Rle_0_sqr (m - r)) as Hsq. unfold Rsqr in Hsq. lra.
Qed.

Lemma rsum_sq_pos (m : R) rs :
  (exists r, In r rs /\ r <> m) ->
  0 < rsum (List.map (fun r => (m - r) * (m - r)) rs).
Proof.
  intros (r0 & Hin & Hne). induction rs as [|r rs IH]; [destruct Hin|].
  pose proof (rsum_sq_nonneg m rs). unfold rsum in *.
  cbn [List.map fold_right].
  pose proof (Rle_0_sqr (m - r)) as Hsq. unfold Rsqr in Hsq.
  destruct Hin as [->|Hin].
  - assert (0 < (m - r0) * (m - r0)).
    { apply Rsqr_pos_lt. lra. }
    lra.
  - specialize (IH Hin). lra.
Qed.

Lemma series_std_fin x rs :
  List.filter notna x = List.map Fin rs -> (2 <= length rs)%nat ->
  series_std x
  = Fin (sqrt (rsum (List.map (fun r => (rsum rs / INR (length rs) - r)
                                        * (rsum rs / INR (length rs) - r)) rs)
               / INR (length rs - 1))).
Proof.
  intros E Hlen. unfold series_std. rewrite E, List.length_map.
  destruct (Nat.leb_spec (length rs) 1); [lia|].
  rewrite fsum_fin. unfold of_nat.
  rewrite fdiv_fin by (apply not_0_INR; lia).
  rewrite List.map_map.
  rewrite (List.map_ext _ (fun r => Fin ((rsum rs / INR (length rs) - r)
                                         * (rsum rs / INR (length rs) - r))))
    by reflexivity.
  rewrite <- (List.map_map _ Fin), fsum_fin.
  rewrite fdiv_fin by (apply not_0_INR; lia).
  unfold fsqrt. destruct (Rle_dec 0 _) as [_|Hn]; [reflexivity|].
  exfalso. apply Hn.
  apply Rmult_le_pos; [apply rsum_sq_nonneg|].
  apply Rlt_le, Rinv_0_lt_compat, lt_0_INR. lia.
Qed.

Lemma zscore_fin x m s :
  finite_or_missing x -> s <> 0 ->
  zscore x (Fin m) (Fin s) = List.map (zcell m s) x.
Proof.
  unfold finite_or_missing, zscore. intros Hf Hs.
  apply List.map_ext_in. intros v Hv.
  destruct v as [| | |r].
  - reflexivity.
  - exfalso. rewrite forallb_forall in Hf.
    specialize (Hf PInf). rewrite List.filter_In in Hf.
    specialize (Hf (conj Hv eq_refl)). discriminate.
  - exfalso. rewrite forallb_forall in Hf.
    specialize (Hf NInf). rewrite List.filter_In in Hf.
    specialize (Hf (conj Hv eq_refl)). discriminate.
  - rewrite fsub_fin, fdiv_fin by exact Hs. reflexivity.
Qed.

Lemma filter_notna_zcell x rs m s :
  List.filter notna x = List.map Fin rs ->
  List.filter notna (List.map (zcell m s) x)
  = List.map Fin (List.map (fun r => (r - m) / s) rs).
Proof.
  revert rs. induction x as [|v x IH]; intros rs E.
  - destruct rs; [reflexivity | discriminate].
  - destruct v as [| | |r]; simpl in *.
    + apply IH. exact E.
    + destruct rs; discriminate.
    + destruct rs; discriminate.
    + destruct rs as [|r' rs]; [discriminate|]. injection E as <- E.
      simpl. rewrite (IH rs E). reflexivity.
Qed.

Lemma isnan_zcell m s v : isfinite v || isnan v = true ->
  isnan (zcell m s v) = isnan v.
Proof. destruct v; simpl; try discriminate; reflexivity. Qed.

Lemma finite_or_missing_reals x :
  finite_or_missing x -> exists rs, List.filter notna x = List.map Fin rs.
Proof.
  intros Hf. destruct (finite_values_all _ Hf) as (rs & Hrs).
  exists rs. apply finite_values_map. exact Hrs.
Qed.

Lemma rsum_centered m s rs :
  rsum (List.map (fun r => (r - m) / s) rs)
  = (rsum rs - INR (length rs) * m) / s.
Proof.
  unfold rsum. induction rs as [|r rs IH].
  - simpl. unfold Rdiv. ring.
  - change (length (r :: rs)) with (S (length rs)). rewrite S_INR.
    cbn [List.map fold_right]. rewrite IH. unfold Rdiv. ring.
Qed.

Lemma rsum_sq_scaled m s rs :
  rsum (List.map (fun z => (0 - z) * (0 - z))
                 (List.map (fun r => (r - m) / s) rs))
  = rsum (List.map (fun r => (m - r) * (m - r)) rs) * (/ s * / s).
Proof.
  unfold rsum. induction rs as [|r rs IH]; cbn [List.map fold_right]; [ring|].
  rewrite IH. unfold Rdiv. ring.
Qed.

(** The z-scores of a column with at least two present values, finite and
    not all equal, have mean 0 and sample standard deviation 1. *)
Lemma zscore_mean_std x :
  finite_or_missing x ->
  (2 <= length (List.filter notna x))%nat ->
  (exists a b, In a (List.filter notna x) /\ In b (List.filter notna x)
               /\ a <> b) ->
  exists m s,
    series_mean x = Fin m /\ series_std x = Fin s /\ 0 < s
    /\ zscore x (series_mean x) (series_std x) = List.map (zcell m s) x
    /\ series_mean (List.map (zcell m s) x) = Fin 0
    /\ series_std (List.map (zcell m s) x) = Fin 1.
Proof.
  intros Hf Hlen (a & b & Ha & Hb & Hab).
  destruct (finite_or_missing_reals x Hf) as (rs & E).
  rewrite E in Hlen, Ha, Hb. rewrite List.length_map in Hlen.
  assert (Hne : rs <> []) by (destruct rs; [simpl in Hlen; lia | discriminate]).
  set (n := length rs) in *.
  set (m := rsum rs / INR n).
  set (V := rsum (List.map (fun r => (m - r) * (m - r)) rs) / INR (n - 1)).
  assert (Hn : INR n <> 0) by (apply not_0_INR; lia).
  assert (Hn1 : 0 < INR (n - 1)) by (apply lt_0_INR; lia).
  assert (HSS : 0 < rsum (List.map (fun r => (m - r) * (m - r)) rs)).
  { apply rsum_sq_pos.
    apply List.in_map_iff in Ha as (ra & <- & Hra).
    apply List.in_map_iff in Hb as (rb & <- & Hrb).
    destruct (Req_dec_T ra m) as [Em|Em].
    - exists rb. split; [exact Hrb|]. intros Eb. apply Hab. congruence.
    - exists ra. split; [exact Hra | exact Em]. }
  assert (HV : 0 < V).
  { unfold V. apply Rmult_lt_0_compat; [exact HSS|].
    apply Rinv_0_lt_compat. exact Hn1. }
  assert (Hs : 0 < sqrt V) by (apply sqrt_lt_R0; exact HV).
  assert (Hmean : series_mean x = Fin m) by (apply series_mean_fin; assumption).
  assert (Hstd : series_std x = Fin (sqrt V))
    by (apply series_std_fin; assumption).
  exists m, (sqrt V). split; [exact Hmean|]. split; [exact Hstd|].
  split; [exact Hs|].
  rewrite Hmean, Hstd.
  split; [apply zscore_fin; [exact Hf | lra]|].
  pose proof (filter_notna_zcell x rs m (sqrt V) E) as Ez.
  assert (Hlz : length (List.map (fun r => (r - m) / sqrt V) rs) = n)
    by apply List.length_map.
  assert (Hzne : List.map (fun r => (r - m) / sqrt V) rs <> [])
    by (destruct rs; [congruence | discriminate]).
  assert (Hsum0 : rsum (List.map (fun r => (r - m) / sqrt V) rs) / INR n = 0).
  { rewrite rsum_centered. fold n. unfold m. field. split; [exact Hn | lra]. }
  split.
  - rewrite (series_mean_fin _ _ Ez Hzne), Hlz. f_equal. exact Hsum0.
  - rewrite (series_std_fin _ _ Ez) by (rewrite Hlz; exact Hlen).
    rewrite Hlz. f_equal. rewrite Hsum0, rsum_sq_scaled.
    rewrite <- sqrt_1. f_equal.
    assert (Hsq : sqrt V * sqrt V = V) by (apply sqrt_sqrt; lra).
    assert (HVeq : rsum (List.map (fun r => (m - r) * (m - r)) rs)
                   = V * INR (n - 1)).
    { unfold V. field. lra. }
    rewrite HVeq. clear HVeq Ez Hstd Hsum0 Hlz Hzne.
    revert Hsq Hs. generalize (sqrt V). intros s Hsq Hs. rewrite <- Hsq.
    field. split; lra.
Qed.

Local Close Scope R_scope.

(** ** The standardized columns *)

Lemma z_name_inj a b : z_name a = z_name b -> a = b.
Proof. unfold z_name. simpl. intros [= ->]. reflexivity. Qed.

Lemma get_column_fold_other cols : forall df k,
  (forall c', In c' cols -> z_name c' <> k) ->
  get_column (fold_left standardize_column cols df) k = get_column df k.
Proof.
  induction cols as [|c0 cols IH]; intros df k Hk; simpl; [reflexivity|].
  rewrite IH by (intros c' Hc'; apply Hk; right; exact Hc').
  unfold standardize_column. rewrite get_column_df_set.
  destruct (String.eqb_spec k (z_name c0)) as [->|_]; [|reflexivity].
  exfalso. apply (Hk c0); [left|]; reflexivity.
Qed.

Lemma get_column_fold_z cols : forall df c,
  In c cols -> List.NoDup cols ->
  (forall c' c'', In c' cols -> In c'' cols -> z_name c' <> c'') ->
  get_column (fold_left standardize_column cols df) (z_name c)
  = Some (zscore (col df c) (series_mean (col df c)) (series_std (col df c))).
Proof.
  induction cols as [|c0 cols IH]; intros df c Hin Hnd Hz; [destruct Hin|].
  apply List.NoDup_cons_iff in Hnd as [Hc0 Hnd]. simpl.
  destruct Hin as [->|Hin].
  - rewrite get_column_fold_other.
    + unfold standardize_column. rewrite get_column_df_set, String.eqb_refl.
      reflexivity.
    + intros c' Hc' E. apply z_name_inj in E. subst. contradiction.
  - rewrite (IH _ c Hin Hnd)
      by (intros c' c'' H1 H2; apply Hz; right; assumption).
    assert (Hcol : col (standardize_column df c0) c = col df c).
    { unfold standardize_column. rewrite col_df_set.
      destruct (String.eqb_spec c (z_name c0)) as [E|_]; [|reflexivity].
      exfalso. apply (Hz c0 c); [left; reflexivity | right; exact Hin |].
      symmetry. exact E. }
    rewrite Hcol. reflexivity.
Qed.

Lemma indicator_names_distinct : List.NoDup DEBASEMENT_INDICATOR_COLUMNS.
Proof.
  unfold DEBASEMENT_INDICATOR_COLUMNS.
  repeat (apply List.NoDup_cons; [simpl; intuition discriminate|]).
  apply List.NoDup_nil.
Qed.

Lemma z_names_are_new c' c'' :
  In c' DEBASEMENT_INDICATOR_COLUMNS -> In c'' DEBASEMENT_INDICATOR_COLUMNS ->
  z_name c' <> c''.
Proof.
  unfold DEBASEMENT_INDICATOR_COLUMNS. simpl. intros H1 H2.
  repeat (destruct H1 as [<-|H1]; [
    repeat (destruct H2 as [<-|H2]; [discriminate|]); destruct H2 |]).
  destruct H1.
Qed.

Lemma isnan_nth_zcell m s x i :
  finite_or_missing x ->
  isnan (nth i (List.map (zcell m s) x) NaN) = isnan (nth i x NaN).
Proof.
  intros Hf. destruct (Nat.lt_ge_cases i (length x)) as [Hi|Hi].
  - rewrite (nth_map_default _ _ _ NaN) by exact Hi.
    pose proof (List.nth_In x NaN Hi) as Hin.
    destruct (nth i x NaN) eqn:E; try reflexivity; exfalso;
      unfold finite_or_missing in Hf; rewrite forallb_forall in Hf.
    + specialize (Hf PInf). rewrite List.filter_In in Hf.
      specialize (Hf (conj Hin eq_refl)). discriminate.
    + specialize (Hf NInf). rewrite List.filter_In in Hf.
      specialize (Hf (conj Hin eq_refl)). discriminate.
  - rewrite !List.nth_overflow by (rewrite ?List.length_map; exact Hi).
    reflexivity.
Qed.

(** C5 (amended).  [standardize_debasement_indicators] keeps every indicator
    column and adds its z-score column, present exactly in the rows where the
    indicator is.  For an indicator with at least two present values, all
    finite and not all equal, the z-score column has mean 0 and sample
    standard deviation 1 over the rows of the frame that is standardized,
    which is the frame before the rows with a missing cell are dropped. *)
Theorem zscore_columns_standardized :
  forall (h : heap) (r : ref) (df : DataFrame) (c : string) (x : list float),
    h !! r = Some df ->
    forallb (has_column df) DEBASEMENT_INDICATOR_COLUMNS = true ->
    In c DEBASEMENT_INDICATOR_COLUMNS ->
    get_column df c = Some x ->
    finite_or_missing x ->
    (2 <= length (List.filter notna x))%nat ->
    (exists a b, In a (List.filter notna x) /\ In b (List.filter notna x)
                 /\ a <> b) ->
    exists df' z,
      standardize_debasement_indicators r h = (Ok r, <[r:=df']> h)
      /\ get_column df' c = Some x
      /\ get_column df' (z_name c) = Some z
      /\ length z = length x
      /\ (forall i, isnan (nth i z NaN) = isnan (nth i x NaN))
      /\ series_mean z = Fin 0
      /\ series_std z = Fin 1.
Proof.
  intros h r df c x Hl Hcols Hc Hx Hf Hlen Hdiff.
  destruct (zscore_mean_std x Hf Hlen Hdiff)
    as (m & s & Hm & Hs & Hpos & Hz & Hmean & Hstd).
  exists (standardized_frame df), (List.map (zcell m s) x).
  split; [apply standardize_debasement_indicators_run; assumption|].
  unfold standardized_frame.
  split.
  { rewrite get_column_fold_other; [exact Hx|].
    intros c' Hc'. apply z_names_are_new; assumption. }
  split.
  { rewrite (get_column_fold_z _ _ c Hc indicator_names_distinct
               z_names_are_new).
    unfold col. rewrite Hx, Hz. reflexivity. }
  split; [apply List.length_map|].
  split; [intros i; apply isnan_nth_zcell; exact Hf|].
  split; assumption.
Qed.

Lemma zscore_columns_standardized_witness :
  exists df' z,
    standardize_debasement_indicators 0%nat [indicators_frame]
    = (Ok 0%nat, [df'])
    /\ get_column df' "z_m2_yoy_pct" = Some z
    /\ series_mean z = Fin 0
    /\ series_std z = Fin 1.
Proof.
  destruct (zscore_columns_standardized [indicators_frame] 0%nat
              indicators_frame "m2_yoy_pct" [NaN; Fin 1%R; Fin 3%R])
    as (df' & z & Hrun & _ & Hz & _ & _ & Hmean & Hstd).
  - reflexivity.
  - reflexivity.
  - simpl. auto.
  - reflexivity.
  - reflexivity.
  - simpl. lia.
  - exists (Fin 1%R), (Fin 3%R). simpl.
    split; [auto|]. split; [auto|]. intros [= E]. lra.
  - exists df', z. split; [exact Hrun|]. split; [exact Hz|].
    split; assumption.
Defined.

(** ** A fourteen-month run *)

Lemma fmul_fin a b : fmul (Fin a) (Fin b) = Fin (a * b).
Proof. reflexivity. Qed.

Lemma fadd_fin a b : fadd (Fin a) (Fin b) = Fin (a + b).
Proof. reflexivity. Qed.

Lemma flog_fin a : (0 < a)%R -> flog (Fin a) = Fin (ln a).
Proof.
  intros Ha. unfold flog. destruct (Rlt_dec 0 a); [reflexivity|contradiction].
Qed.

Lemma fdiv_nan_r x : fdiv x NaN = NaN.
Proof. destruct x; reflexivity. Qed.

Lemma fsub_nan_r x : fsub x NaN = NaN.
Proof. destruct x; reflexivity. Qed.

Lemma fsub_nan_l x : fsub NaN x = NaN.
Proof. reflexivity. Qed.

Lemma fmul_nan_l x : fmul NaN x = NaN.
Proof. reflexivity. Qed.

Lemma fdiv_nan_l x : fdiv NaN x = NaN.
Proof. reflexivity. Qed.

Lemma flog_nan : flog NaN = NaN.
Proof. reflexivity. Qed.

Lemma series_mean_last_of_four a :
  series_mean [NaN; NaN; NaN; Fin a] = Fin (rsum [a] / INR 1).
Proof. apply (series_mean_fin _ [a]); [reflexivity | discriminate]. Qed.

Lemma series_mean_four a b c d :
  series_mean [Fin a; Fin b; Fin c; Fin d] = Fin (rsum [a; b; c; d] / INR 4).
Proof. apply (series_mean_fin _ [a; b; c; d]); [reflexivity | discriminate]. Qed.

Lemma filter_notna_reals x :
  finite_or_missing x -> List.filter notna x = List.map Fin (reals_of x).
Proof.
  unfold finite_or_missing. induction x as [|v x IH]; [reflexivity|].
  destruct v; simpl; intros Hf; try discriminate.
  - apply IH. exact Hf.
  - rewrite (IH Hf). reflexivity.
Qed.

Lemma series_mean_reals x :
  finite_or_missing x -> reals_of x <> [] ->
  series_mean x = Fin (rsum (reals_of x) / INR (length (reals_of x))).
Proof.
  intros Hf Hne. apply series_mean_fin; [apply filter_notna_reals|];
    assumption.
Qed.

Create Rewrite HintDb cells.
#[local] Hint Rewrite fmul_fin fadd_fin fsub_fin fdiv_nan_r fsub_nan_r
  fsub_nan_l fmul_nan_l fdiv_nan_l flog_nan series_mean_last_of_four
  series_mean_four : cells.
#[local] Hint Rewrite fdiv_fin using lra : cells.
#[local] Hint Rewrite flog_fin using lra : cells.

Ltac eval_frame :=
  cbn -[fdiv fsub fmul fadd flog fsqrt series_mean series_std zscore INR IZR
        Rplus Rminus Rmult Rdiv Ropp Rinv ln sqrt];
  autorewrite with cells.

(** Evaluate the innermost stage [f], applied to an explicit frame, and
    put the frame it returns in its place. *)
Ltac eval_stage f unfolder :=
  match goal with
  | |- context [f ?d] =>
      let E := fresh "E" in
      eassert (E : f d = _);
      [ unfolder; do 2 eval_frame; reflexivity
      | rewrite E; clear E ]
  end.

(** The same for one pass of the standardization loop: the mean and the
    standard deviation of the column are named, not computed. *)
Ltac eval_standardize :=
  match goal with
  | |- context [standardize_column ?d ?c] =>
      lazymatch d with
      | context [standardize_column] => fail
      | _ =>
          let x := eval cbn -[fdiv fsub fmul fadd flog fsqrt INR IZR Rplus
                              Rminus Rmult Rdiv Ropp Rinv ln sqrt]
                   in (col d c) in
          let m := fresh "m" in
          let s := fresh "s" in
          let Hm := fresh "Hm" in
          let Hpos := fresh "Hpos" in
          let Hz := fresh "Hz" in
          let E := fresh "E" in
          destruct (zscore_mean_std x) as (m & s & Hm & _ & Hpos & Hz & _);
          [ reflexivity
          | cbn; lia
          | exists (List.last (List.filter notna x) NaN),
                   (List.last (List.removelast (List.filter notna x)) NaN);
            cbn;
            split; [repeat (first [left; reflexivity | right])|];
            split; [repeat (first [left; reflexivity | right])|];
            let N := fresh "N" in intros [= N]; lra
          | eassert (E : standardize_column d c = _);
            [ unfold standardize_column; do 2 eval_frame; rewrite Hz;
              do 2 eval_frame; reflexivity
            | rewrite E; clear E Hz ] ]
      end
  end.

(** The frame returned for [aligned_14] has the two rows of 2016, and its
    standardized money-to-output ratio is centred on the mean over all
    fourteen aligned months, 17/14. *)
Lemma analysis_14_ratio_column :
  exists m s,
    (0 < s)%R /\ m = (17 / 14)%R
    /\ nrows (analysis_frame aligned_14) = 2%nat
    /\ col (analysis_frame aligned_14) "z_m2_to_gdp"
       = [Fin ((2 / 1 - m) / s); Fin ((3 / 1 - m) / s)].
Proof.
  unfold analysis_frame, features_frame, standardized_frame,
    DEBASEMENT_INDICATOR_COLUMNS.
  cbn [fold_left].
  eval_stage debasement_frame
    ltac:(unfold debasement_frame, debasement_filled, aligned_14, flat,
            times100, pct_change).
  eval_stage returns_frame
    ltac:(unfold returns_frame, returns_filled, log_return).
  eval_stage cash_frame ltac:(unfold cash_frame, cash_real_return).
  eval_stage spread_frame ltac:(unfold spread_frame).
  do 4 eval_standardize.
  eval_stage composite_frame
    ltac:(unfold composite_frame, row_mean, DEBASEMENT_INDICATOR_COLUMNS).
  eval_stage df_dropna ltac:(unfold df_dropna, filter_rows, row_has_nan).
  match goal with
  | |- context [("z_m2_to_gdp", [Fin ((_ - ?m) / ?s); Fin _])] => exists m, s
  end.
  split; [assumption|]. split; [|split; reflexivity].
  match goal with
  | H : series_mean _ = Fin ?m |- ?m = _ =>
      rewrite series_mean_reals in H by (reflexivity || discriminate);
      injection H as <-
  end.
  unfold rsum. cbn [reals_of flat_map app fold_right length].
  replace (INR 14) with 14%R by (simpl; lra). lra.
Qed.

(** C5 as the specification words it fails.  The z-score of the
    money-to-output ratio is taken over all fourteen aligned months, and the
    twelve months that the year-over-year lookback leaves incomplete are then
    dropped: over the two months that are saved its mean is positive, not
    zero. *)
Lemma zscore_not_centred_in_saved_frame :
  exists r' h' out,
    build_analysis_dataframe 0%nat [aligned_14] = (Ok r', h')
    /\ h' !! r' = Some out
    /\ nrows out = 2%nat
    /\ (exists mean_z, series_mean (col out "z_m2_to_gdp") = Fin mean_z
                       /\ (0 < mean_z)%R)
    /\ series_mean (col out "z_m2_to_gdp") <> Fin 0.
Proof.
  destruct (build_analysis_dataframe_run [aligned_14] 0%nat aligned_14 eq_refl)
    as (r' & h' & Hrun & Hl); [reflexivity|].
  destruct analysis_14_ratio_column as (m & s & Hs & Hm & Hn & Hc).
  exists r', h', (analysis_frame aligned_14).
  split; [exact Hrun|]. split; [exact Hl|]. split; [exact Hn|].
  assert (Hmean : exists mean_z,
             series_mean (col (analysis_frame aligned_14) "z_m2_to_gdp")
             = Fin mean_z /\ (0 < mean_z)%R).
  { rewrite Hc.
    rewrite (series_mean_fin _ [((2 / 1 - m) / s)%R; ((3 / 1 - m) / s)%R])
      by (reflexivity || discriminate).
    eexists. split; [reflexivity|].
    unfold rsum. cbn [fold_right length].
    replace (INR 2) with 2%R by (simpl; lra).
    assert (Ha : (0 < (2 / 1 - m) / s)%R)
      by (apply Rdiv_lt_0_compat; [rewrite Hm; lra | exact Hs]).
    assert (Hb : (0 < (3 / 1 - m) / s)%R)
      by (apply Rdiv_lt_0_compat; [rewrite Hm; lra | exact Hs]).
    revert Ha Hb. generalize ((2 / 1 - m) / s)%R, ((3 / 1 - m) / s)%R.
    intros a b Ha Hb. lra. }
  split; [exact Hmean|].
  destruct Hmean as (mean_z & -> & Hpos). intros [= E]. lra.
Qed.

(** ** Resampling to month ends *)

Lemma fold_min_le l : forall a, fold_left Z.min l a <= a.
Proof.
  induction l as [|x l IH]; intros a; simpl; [lia|].
  specialize (IH (Z.min a x)). lia.
Qed.

Lemma fold_min_le_In l : forall a x, In x l -> fold_left Z.min l a <= x.
Proof.
  induction l as [|y l IH]; intros a x Hin; simpl; [destruct Hin|].
  destruct Hin as [->|Hin].
  - pose proof (fold_min_le l (Z.min a x)). lia.
  - apply IH. exact Hin.
Qed.

Lemma fold_max_ge l : forall a, a <= fold_left Z.max l a.
Proof.
  induction l as [|x l IH]; intros a; simpl; [lia|].
  specialize (IH (Z.max a x)). lia.
Qed.

Lemma fold_max_ge_In l : forall a x, In x l -> x <= fold_left Z.max l a.
Proof.
  induction l as [|y l IH]; intros a x Hin; simpl; [destruct Hin|].
  destruct Hin as [->|Hin].
  - pose proof (fold_max_ge l (Z.max a x)). lia.
  - apply IH. exact Hin.
Qed.

Lemma fold_min_lower l b : forall a,
  b <= a -> (forall x, In x l -> b <= x) -> b <= fold_left Z.min l a.
Proof.
  induction l as [|y l IH]; intros a Ha Hl; simpl; [exact Ha|].
  apply IH.
  - pose proof (Hl y (or_introl eq_refl)). lia.
  - intros x Hx. apply Hl. right. exact Hx.
Qed.

Lemma fold_max_upper l b : forall a,
  a <= b -> (forall x, In x l -> x <= b) -> fold_left Z.max l a <= b.
Proof.
  induction l as [|y l IH]; intros a Ha Hl; simpl; [exact Ha|].
  apply IH.
  - pose proof (Hl y (or_introl eq_refl)). lia.
  - intros x Hx. apply Hl. right. exact Hx.
Qed.

(** The shape of a resampled series that has an observation. *)
Lemma resample_items s d0 v0 rest :
  s_items s = (d0, v0) :: rest ->
  s_items (resample_ME_last s)
  = List.map (fun k => (month_end_of k, last_valid (month_group s k)))
      (zrange (fold_left Z.min (List.map month_index (s_index s)) (month_index d0))
              (fold_left Z.max (List.map month_index (s_index s)) (month_index d0))).
Proof.
  intros E. unfold resample_ME_last, month_group. rewrite E. reflexivity.
Qed.

Lemma series_at_resample s d0 v0 rest k :
  s_items s = (d0, v0) :: rest ->
  fold_left Z.min (List.map month_index (s_index s)) (month_index d0) <= k ->
  k <= fold_left Z.max (List.map month_index (s_index s)) (month_index d0) ->
  series_at (resample_ME_last s) (month_end_of k) = last_valid (month_group s k).
Proof.
  intros E Hlo Hhi. unfold series_at. rewrite (resample_items _ _ _ _ E).
  rewrite (find_map_key month_end_of (fun k => last_valid (month_group s k))).
  - reflexivity.
  - exact month_end_of_inj.
  - apply In_zrange. lia.
Qed.

Lemma last_valid_all_missing (g : list (date * float)) : forall acc,
  (forall p, In p g -> isnan (snd p) = true) ->
  fold_left (fun acc p => if isnan (snd p) then acc else snd p) g acc = acc.
Proof.
  induction g as [|p g IH]; intros acc Hg; simpl; [reflexivity|].
  rewrite (Hg p (or_introl eq_refl)). apply IH.
  intros q Hq. apply Hg. right. exact Hq.
Qed.

Lemma last_valid_app (g : list (date * float)) d v post :
  isnan v = false ->
  (forall p, In p post -> isnan (snd p) = true) ->
  last_valid (g ++ (d, v) :: post)%list = v.
Proof.
  intros Hv Hpost. unfold last_valid. rewrite fold_left_app. simpl.
  rewrite Hv. apply last_valid_all_missing. exact Hpost.
Qed.

Lemma month_index_in_range s d :
  In d (s_index s) ->
  forall a,
    fold_left Z.min (List.map month_index (s_index s)) a <= month_index d
    /\ month_index d <= fold_left Z.max (List.map month_index (s_index s)) a.
Proof.
  intros Hin a. split.
  - apply fold_min_le_In. apply List.in_map. exact Hin.
  - apply fold_max_ge_In. apply List.in_map. exact Hin.
Qed.

(** X1.  Month-end close: an observation that is not missing and is
    followed, within its calendar month, by missing observations only, is the
    value the resampled series holds at the last day of that month. *)
Theorem resample_keeps_last_observation_of_month :
  forall (s : Series) (pre post : list (date * float)) (d : date) (v : float),
    ascending (s_index s) = true ->
    s_items s = (pre ++ (d, v) :: post)%list ->
    isnan v = false ->
    (forall p, In p post -> month_index (fst p) = month_index d ->
               isnan (snd p) = true) ->
    In (MonthEnd0 d) (s_index (resample_daily_to_monthly_end s))
    /\ series_at (resample_daily_to_monthly_end s) (MonthEnd0 d) = v.
Proof.
  intros s pre post d v _ E Hv Hpost.
  assert (Hin : In d (s_index s)).
  { unfold s_index. rewrite E, List.map_app. apply List.in_or_app. right. left.
    reflexivity. }
  destruct (s_items s) as [|[d0 v0] rest] eqn:Es.
  { destruct pre; discriminate E. }
  destruct (month_index_in_range s d Hin (month_index d0)) as [Hlo Hhi].
  unfold resample_daily_to_monthly_end, MonthEnd0. split.
  - unfold s_index at 1. rewrite (resample_items _ _ _ _ Es), List.map_map.
    cbn [fst]. apply List.in_map. apply In_zrange. lia.
  - rewrite (series_at_resample _ _ _ _ _ Es Hlo Hhi).
    unfold month_group. rewrite Es, E, List.filter_app. cbn [List.filter].
    unfold in_month at 2. cbn [fst]. rewrite Z.eqb_refl.
    apply last_valid_app; [exact Hv|].
    intros p Hp. apply List.filter_In in Hp as [Hp Hk].
    apply Hpost; [exact Hp|]. unfold in_month in Hk. apply Z.eqb_eq. exact Hk.
Qed.

Lemma date_leb_month_index a b :
  valid_date a = true -> valid_date b = true ->
  date_leb a b = true -> month_index a <= month_index b.
Proof.
  intros Ha Hb Hab. apply valid_date_month in Ha. apply valid_date_month in Hb.
  apply date_leb_spec in Hab. unfold month_index. lia.
Qed.

Lemma last_default {A} (l : list A) a b :
  l <> [] -> List.last l a = List.last l b.
Proof.
  induction l as [|x l IH]; intros Hl; [congruence|].
  destruct l as [|y l]; [reflexivity|].
  change (List.last (y :: l) a = List.last (y :: l) b). apply IH. discriminate.
Qed.

Lemma ascending_tail a l : ascending (a :: l) = true -> ascending l = true.
Proof.
  destruct l as [|b l]; [reflexivity|]. cbn [ascending].
  intros Hasc. apply andb_prop in Hasc. tauto.
Qed.

Lemma ascending_head_le a l :
  (forall d, In d (a :: l) -> valid_date d = true) ->
  ascending (a :: l) = true ->
  forall d, In d l -> month_index a <= month_index d.
Proof.
  revert a. induction l as [|b l IH]; intros a Hv Hasc d Hin; [destruct Hin|].
  cbn [ascending] in Hasc. apply andb_prop in Hasc as [Hab Hasc].
  assert (Hle : month_index a <= month_index b).
  { apply date_leb_month_index; [apply Hv; simpl; auto ..| exact Hab]. }
  destruct Hin as [<-|Hin]; [exact Hle|].
  assert (month_index b <= month_index d); [|lia].
  apply IH; [|exact Hasc | exact Hin].
  intros x Hx. apply Hv. right. exact Hx.
Qed.

Lemma ascending_le_last a l :
  (forall d, In d (a :: l) -> valid_date d = true) ->
  ascending (a :: l) = true ->
  forall d, In d (a :: l) -> month_index d <= month_index (List.last (a :: l) a).
Proof.
  revert a. induction l as [|b l IH]; intros a Hv Hasc d Hin.
  - destruct Hin as [<-|[]]. simpl. lia.
  - assert (Hv' : forall x, In x (b :: l) -> valid_date x = true).
    { intros x Hx. apply Hv. right. exact Hx. }
    pose proof (ascending_tail _ _ Hasc) as Hasc'.
    assert (El : List.last (a :: b :: l) a = List.last (b :: l) b).
    { change (List.last (a :: b :: l) a) with (List.last (b :: l) a).
      apply last_default. discriminate. }
    rewrite El. destruct Hin as [<-|Hin].
    + assert (month_index a <= month_index b).
      { apply (ascending_head_le a (b :: l) Hv Hasc). left. reflexivity. }
      assert (month_index b <= month_index (List.last (b :: l) b)); [|lia].
      apply IH; [exact Hv' | exact Hasc' | left; reflexivity].
    + apply IH; assumption.
Qed.

Lemma fold_min_ascending l a :
  (forall x, In x l -> a <= x) -> fold_left Z.min l a = a.
Proof.
  intros Hl. apply Z.le_antisymm; [apply fold_min_le|].
  apply fold_min_lower; [lia | exact Hl].
Qed.

Lemma fold_max_ascending l a b :
  a <= b -> In b l -> (forall x, In x l -> x <= b) -> fold_left Z.max l a = b.
Proof.
  intros Hab Hb Hl. apply Z.le_antisymm.
  - apply fold_max_upper; assumption.
  - apply fold_max_ge_In. exact Hb.
Qed.

Lemma last_In {A} (l : list A) a : l <> [] -> In (List.last l a) l.
Proof.
  induction l as [|x l IH]; intros Hl; [congruence|].
  destruct l as [|y l]; [left; reflexivity|].
  right. change (In (List.last (y :: l) a) (y :: l)). apply IH. discriminate.
Qed.

(** The first and the last month of an ascending series. *)
Lemma resample_bounds s d0 v0 rest :
  s_items s = (d0, v0) :: rest ->
  ascending (s_index s) = true ->
  (forall d, In d (s_index s) -> valid_date d = true) ->
  fold_left Z.min (List.map month_index (s_index s)) (month_index d0)
  = month_index d0
  /\ fold_left Z.max (List.map month_index (s_index s)) (month_index d0)
     = month_index (List.last (s_index s) d0).
Proof.
  intros E Hasc Hv.
  assert (Ei : s_index s = d0 :: List.map fst rest).
  { unfold s_index. rewrite E. reflexivity. }
  rewrite Ei in *. split.
  - apply fold_min_ascending. intros x Hx. apply List.in_map_iff in Hx.
    destruct Hx as (d & <- & [<-|Hd]); [lia|].
    apply (ascending_head_le d0 (List.map fst rest) Hv Hasc). exact Hd.
  - apply fold_max_ascending.
    + apply (ascending_le_last d0 _ Hv Hasc). left. reflexivity.
    + apply List.in_map. apply last_In. discriminate.
    + intros x Hx. apply List.in_map_iff in Hx. destruct Hx as (d & <- & Hd).
      apply (ascending_le_last d0 _ Hv Hasc). exact Hd.
Qed.

(** X2.  The resampled series has one row for every calendar month from the
    month of its first observation to the month of its last one, labelled
    with the last day of the month; a month in between in which nothing was
    observed (or only missing values) is kept, with a missing value. *)
Theorem resample_spans_first_to_last_month :
  forall (s : Series) (d0 : date) (v0 : float) (rest : list (date * float)),
    s_items s = (d0, v0) :: rest ->
    ascending (s_index s) = true ->
    (forall d, In d (s_index s) -> valid_date d = true) ->
    let d1 := List.last (s_index s) d0 in
    s_index (resample_daily_to_monthly_end s)
    = List.map month_end_of (zrange (month_index d0) (month_index d1))
    /\ (forall k,
          month_index d0 <= k <= month_index d1 ->
          (forall p, In p (s_items s) -> month_index (fst p) = k ->
                     isnan (snd p) = true) ->
          In (month_end_of k) (s_index (resample_daily_to_monthly_end s))
          /\ series_at (resample_daily_to_monthly_end s) (month_end_of k) = NaN).
Proof.
  intros s d0 v0 rest E Hasc Hv d1.
  destruct (resample_bounds _ _ _ _ E Hasc Hv) as [Elo Ehi].
  assert (Eidx : s_index (resample_daily_to_monthly_end s)
                 = List.map month_end_of (zrange (month_index d0) (month_index d1))).
  { unfold resample_daily_to_monthly_end, s_index at 1.
    rewrite (resample_items _ _ _ _ E), List.map_map, Elo, Ehi. reflexivity. }
  split; [exact Eidx|].
  intros k Hk Hmiss. split.
  - rewrite Eidx. apply List.in_map. apply In_zrange. exact Hk.
  - unfold resample_daily_to_monthly_end.
    rewrite (series_at_resample _ _ _ _ _ E) by (rewrite ?Elo, ?Ehi; apply Hk).
    unfold last_valid. apply last_valid_all_missing.
    intros p Hp. unfold month_group in Hp. apply List.filter_In in Hp as [Hp Hm].
    apply Hmiss; [exact Hp|]. unfold in_month in Hm. apply Z.eqb_eq. exact Hm.
Qed.

Lemma zrange_cons lo hi : lo <= hi -> zrange lo hi = lo :: zrange (lo + 1) hi.
Proof.
  intros Hle. unfold zrange.
  replace (Z.to_nat (hi - lo + 1)) with (S (Z.to_nat (hi - (lo + 1) + 1))) by lia.
  cbn [seq List.map]. f_equal; [lia|].
  rewrite <- List.seq_shift, List.map_map. apply List.map_ext. intros i. lia.
Qed.

Lemma filter_no_key (g : Z -> float) k l :
  ~ In k l ->
  List.filter (in_month k) (List.map (fun j => (month_end_of j, g j)) l) = [].
Proof.
  induction l as [|j l IH]; intros Hk; [reflexivity|].
  cbn [List.map List.filter]. unfold in_month at 1. cbn [fst].
  rewrite month_index_month_end_of.
  destruct (Z.eqb_spec j k) as [->|_].
  - exfalso. apply Hk. left. reflexivity.
  - apply IH. intros H. apply Hk. right. exact H.
Qed.

Lemma filter_single_key (g : Z -> float) k l :
  List.NoDup l -> In k l ->
  List.filter (in_month k) (List.map (fun j => (month_end_of j, g j)) l)
  = [(month_end_of k, g k)].
Proof.
  induction l as [|j l IH]; intros Hnd Hin; [destruct Hin|].
  inversion Hnd as [|? ? Hj Hnd']; subst. cbn [List.map List.filter].
  unfold in_month at 1. cbn [fst]. rewrite month_index_month_end_of.
  destruct Hin as [->|Hin].
  - rewrite Z.eqb_refl. f_equal. apply filter_no_key. exact Hj.
  - destruct (Z.eqb_spec j k) as [->|_]; [contradiction|].
    apply IH; assumption.
Qed.

Lemma last_valid_single d v : last_valid [(d, v)] = v.
Proof. unfold last_valid. simpl. destruct v; reflexivity. Qed.

Lemma series_eq (a b : Series) :
  s_name a = s_name b -> s_items a = s_items b -> a = b.
Proof. destruct a, b. simpl. intros -> ->. reflexivity. Qed.

Lemma s_name_resample s : s_name (resample_ME_last s) = s_name s.
Proof.
  unfold resample_ME_last. destruct (s_items s) as [|[d v] l]; reflexivity.
Qed.

(** X3.  Resampling a series that has been resampled changes nothing: a
    series with one row per month end is its own month-end resampling. *)
Theorem resample_idempotent :
  forall s : Series,
    ascending (s_index s) = true ->
    resample_daily_to_monthly_end (resample_daily_to_monthly_end s)
    = resample_daily_to_monthly_end s.
Proof.
  intros s _. unfold resample_daily_to_monthly_end.
  destruct (s_items s) as [|[d0 v0] rest] eqn:E.
  { unfold resample_ME_last. rewrite E. cbn [s_items]. reflexivity. }
  pose proof (resample_items _ _ _ _ E) as Ei.
  set (lo := fold_left Z.min (List.map month_index (s_index s)) (month_index d0)) in *.
  set (hi := fold_left Z.max (List.map month_index (s_index s)) (month_index d0)) in *.
  assert (Hlohi : lo <= hi).
  { pose proof (fold_min_le (List.map month_index (s_index s)) (month_index d0)).
    pose proof (fold_max_ge (List.map month_index (s_index s)) (month_index d0)).
    subst lo hi. lia. }
  set (t := resample_ME_last s) in *.
  apply series_eq; [apply s_name_resample|].
  assert (Eks : List.map month_index (s_index t) = zrange lo hi).
  { unfold s_index. rewrite Ei, !List.map_map. cbn [fst].
    rewrite <- (List.map_id (zrange lo hi)) at 2.
    apply List.map_ext. intros k. apply month_index_month_end_of. }
  assert (Ecut : s_items t
                 = (month_end_of lo, last_valid (month_group s lo))
                   :: List.map (fun k => (month_end_of k, last_valid (month_group s k)))
                        (zrange (lo + 1) hi)).
  { rewrite Ei, (zrange_cons lo hi Hlohi). reflexivity. }
  rewrite (resample_items _ _ _ _ Ecut), Eks, month_index_month_end_of.
  assert (Elo : fold_left Z.min (zrange lo hi) lo = lo).
  { apply fold_min_ascending. intros x Hx. apply In_zrange in Hx. lia. }
  assert (Ehi : fold_left Z.max (zrange lo hi) lo = hi).
  { apply fold_max_ascending; [exact Hlohi | apply In_zrange; lia |].
    intros x Hx. apply In_zrange in Hx. lia. }
  rewrite Elo, Ehi, Ei. apply List.map_ext_in. intros k Hk. f_equal.
  unfold month_group at 1. rewrite Ei.
  rewrite (filter_single_key (fun k => last_valid (month_group s k)) k)
    by (exact Hk || apply NoDup_zrange).
  apply last_valid_single.
Qed.

(** ** The index of the aligned frame *)

Lemma strictly_increasing_cons a l :
  strictly_increasing l = true -> (forall x, In x l -> a < x) ->
  strictly_increasing (a :: l) = true.
Proof.
  destruct l as [|b l]; [reflexivity|]. intros Hl Ha.
  change (strictly_increasing (a :: b :: l))
    with ((a <? b) && strictly_increasing (b :: l)).
  rewrite Hl, andb_true_r. apply Z.ltb_lt.
  apply Ha. left. reflexivity.
Qed.

Lemma strictly_increasing_filter_zrange (f : Z -> bool) hi n : forall lo,
  Z.to_nat (hi - lo + 1) = n ->
  strictly_increasing (List.filter f (zrange lo hi)) = true.
Proof.
  induction n as [|n IH]; intros lo Hn.
  - unfold zrange. rewrite Hn. reflexivity.
  - rewrite (zrange_cons lo hi) by lia. cbn [List.filter].
    specialize (IH (lo + 1) ltac:(lia)).
    destruct (f lo); [|exact IH].
    apply strictly_increasing_cons; [exact IH|].
    intros x Hx. apply List.filter_In in Hx as [Hx _]. apply In_zrange in Hx. lia.
Qed.

Lemma filter_map_comm {A B} (f : B -> bool) (g : A -> B) l :
  List.filter f (List.map g l) = List.map g (List.filter (fun a => f (g a)) l).
Proof.
  induction l as [|a l IH]; [reflexivity|]. cbn [List.map List.filter].
  destruct (f (g a)); cbn [List.map]; rewrite IH; reflexivity.
Qed.

Lemma filter_filter_and {A} (f g : A -> bool) l :
  List.filter f (List.filter g l) = List.filter (fun a => g a && f a) l.
Proof.
  induction l as [|a l IH]; [reflexivity|]. cbn [List.filter].
  destruct (g a); cbn [List.filter andb]; [destruct (f a)|]; rewrite IH;
    reflexivity.
Qed.

Lemma map_month_index_month_end l :
  List.map month_index (List.map month_end_of l) = l.
Proof.
  rewrite List.map_map. rewrite <- (List.map_id l) at 2.
  apply List.map_ext. intros k. apply month_index_month_end_of.
Qed.

(** The labels kept from a resampled index are month ends in calendar
    order. *)
Lemma filtered_resample_index s (f : date -> bool) :
  strictly_increasing
    (List.map month_index (List.filter f (s_index (resample_ME_last s)))) = true
  /\ forall d, In d (List.filter f (s_index (resample_ME_last s))) ->
               is_month_end d.
Proof.
  destruct (resample_index s) as (lo & hi & [E|E]); rewrite E.
  - split.
    + rewrite filter_map_comm, map_month_index_month_end.
      apply (strictly_increasing_filter_zrange _ hi _ lo eq_refl).
    + intros d Hd. apply List.filter_In in Hd as [Hd _].
      apply List.in_map_iff in Hd as (k & <- & _).
      apply month_end_of_is_month_end.
  - split; [reflexivity|]. intros d [].
Qed.

Lemma strictly_increasing_strict x l :
  strictly_increasing (x :: l) = true -> forall y, In y l -> x < y.
Proof.
  destruct l as [|a l]; intros Hs y Hy; [destruct Hy|].
  change (((x <? a) && strictly_increasing (a :: l)) = true) in Hs.
  apply andb_prop in Hs as [Hxa Hs]. apply Z.ltb_lt in Hxa.
  pose proof (strictly_increasing_head a l Hs y Hy). lia.
Qed.

Lemma strictly_increasing_nth l : forall i j d,
  strictly_increasing l = true -> (i < j < length l)%nat ->
  nth i l d < nth j l d.
Proof.
  induction l as [|a l IH]; intros i j d Hs Hij; [simpl in Hij; lia|].
  destruct j as [|j]; [lia|]. destruct i as [|i].
  - cbn [nth]. apply (strictly_increasing_strict a l Hs).
    apply List.nth_In. simpl in Hij. lia.
  - cbn [nth]. apply IH; [apply (strictly_increasing_tail _ _ Hs)|].
    simpl in Hij. lia.
Qed.

Section AlignedIndex.
Context `{SplineSolver}.

(** The index of the aligned frame: month ends in calendar order, none
    before the start date. *)
Lemma aligned_index_shape m2 cpi gdp ff tips btc sp gold df :
  align_all_series_to_monthly m2 cpi gdp ff tips btc sp gold = Ok df ->
  strictly_increasing (List.map month_index (df_index df)) = true
  /\ (forall d, In d (df_index df) ->
                is_month_end d /\ date_leb BTC_SERIES_START d = true).
Proof.
  intros Ha. apply align_inv in Ha as (g & _ & ->).
  rewrite aligned_frame_closed_form by (unfold monthly_series; discriminate).
  cbn [frame_of df_index]. unfold monthly_series, aligned_index.
  rewrite s_index_rename, !filter_filter_and.
  match goal with
  | |- context [List.filter ?f (s_index (resample_ME_last m2))] =>
      destruct (filtered_resample_index m2 f) as [Hinc Hme];
      split; [exact Hinc|]; intros d Hd; split; [apply Hme; exact Hd|];
      apply List.filter_In in Hd as [_ Hd]
  end.
  apply andb_prop in Hd as [_ Hd]. apply andb_prop in Hd as [Hd _]. exact Hd.
Qed.

(** X4.  The rows of the aligned frame are month-end dates in calendar
    order, one row per month at most, none before the configured start. *)
Theorem aligned_index_ascending_month_ends :
  forall (m2 cpi gdp fed_funds tips_real_yield btc sp500 gold : Series)
         (df : DataFrame),
    align_all_series_to_monthly m2 cpi gdp fed_funds tips_real_yield
                                btc sp500 gold = Ok df ->
    strictly_increasing (List.map month_index (df_index df)) = true
    /\ (forall d, In d (df_index df) ->
                  is_month_end d /\ date_leb BTC_SERIES_START d = true)
    /\ (forall i j, (i < j < nrows df)%nat ->
          month_index (nth i (df_index df) BTC_SERIES_START)
          < month_index (nth j (df_index df) BTC_SERIES_START)).
Proof.
  intros m2 cpi gdp ff tips btc sp gold df Ha.
  destruct (aligned_index_shape _ _ _ _ _ _ _ _ _ Ha) as [Hinc Hidx].
  split; [exact Hinc|]. split; [exact Hidx|].
  intros i j Hij. unfold nrows in Hij.
  rewrite <- !(List.map_nth month_index).
  apply strictly_increasing_nth; [exact Hinc | rewrite List.length_map; lia].
Qed.

End AlignedIndex.

(** ** Timestamps *)

Lemma days_from_civil_day y m d :
  days_from_civil (mkDate y m d) = days_from_civil (mkDate y m 1) + (d - 1).
Proof. unfold days_from_civil. cbn [year month day]. lia. Qed.

Lemma is_leap_cases y :
  (is_leap y = true /\ (y mod 4 = 0 /\ y mod 100 <> 0 \/ y mod 400 = 0))
  \/ (is_leap y = false /\ (y mod 4 <> 0 \/ y mod 100 = 0) /\ y mod 400 <> 0).
Proof.
  unfold is_leap.
  destruct (Z.eqb_spec (y mod 4) 0), (Z.eqb_spec (y mod 100) 0),
    (Z.eqb_spec (y mod 400) 0); cbn; lia.
Qed.

(** The days from the first of a year to the first of the next one. *)
Lemma days_from_civil_year y :
  days_from_civil (mkDate (y + 1) 1 1)
  = days_from_civil (mkDate y 1 1) + (if is_leap y then 366 else 365).
Proof.
  unfold days_from_civil. cbn [year month day].
  change (1 <=? 2) with true. cbv iota.
  destruct (is_leap_cases y) as [[-> Hl]|[-> Hl]];
    Z.div_mod_to_equations; lia.
Qed.

Ltac month_step y k :=
  let k1 := eval cbv in (k + 1) in
  change (k + 1) with k1;
  unfold days_from_civil, days_in_month; cbn [year month day];
  cbn -[Z.div Z.mul Z.add Z.sub is_leap];
  destruct (is_leap_cases y) as [[Hb Hl]|[Hb Hl]]; rewrite ?Hb;
  Z.div_mod_to_equations; lia.

(** The days from the first of a month to the first of the next one. *)
Lemma days_from_civil_month y m :
  1 <= m <= 11 ->
  days_from_civil (mkDate y (m + 1) 1)
  = days_from_civil (mkDate y m 1) + days_in_month y m.
Proof.
  intros Hm.
  assert (Hc : m = 1 \/ m = 2 \/ m = 3 \/ m = 4 \/ m = 5 \/ m = 6 \/ m = 7
               \/ m = 8 \/ m = 9 \/ m = 10 \/ m = 11) by lia.
  clear Hm.
  destruct Hc as [->|[->|[->|[->|[->|[->|[->|[->|[->|[->| ->]]]]]]]]]];
    [month_step y 1 | month_step y 2 | month_step y 3 | month_step y 4 | month_step y 5
    | month_step y 6 | month_step y 7 | month_step y 8 | month_step y 9
    | month_step y 10 | month_step y 11].
Qed.

Lemma days_in_month_pos y m : 28 <= days_in_month y m <= 31.
Proof.
  unfold days_in_month.
  destruct (m =? 2); [destruct (is_leap y); lia|].
  destruct ((m =? 4) || (m =? 6) || (m =? 9) || (m =? 11)); lia.
Qed.

(** Within a year, the first of a later month is later by at least the
    length of the earlier month. *)
Lemma days_from_civil_months y m n :
  1 <= m -> (Z.of_nat n + m < 12) ->
  days_from_civil (mkDate y m 1) + days_in_month y m
  <= days_from_civil (mkDate y (m + 1 + Z.of_nat n) 1).
Proof.
  intros Hm. induction n as [|n IH]; intros Hn.
  - replace (m + 1 + Z.of_nat 0) with (m + 1) by lia.
    rewrite days_from_civil_month by lia. lia.
  - replace (m + 1 + Z.of_nat (S n)) with ((m + 1 + Z.of_nat n) + 1) by lia.
    rewrite days_from_civil_month by lia.
    pose proof (days_in_month_pos y (m + 1 + Z.of_nat n)).
    specialize (IH ltac:(lia)). lia.
Qed.

Lemma days_from_civil_december y :
  days_from_civil (mkDate (y + 1) 1 1)
  = days_from_civil (mkDate y 12 1) + 31.
Proof.
  unfold days_from_civil. cbn -[Z.div Z.mul Z.add Z.sub].
  Z.div_mod_to_equations; lia.
Qed.

(** Across years: the first of January of a later year is later than the
    last day of any month of an earlier year. *)
Lemma days_from_civil_years y n :
  days_from_civil (mkDate (y + 1) 1 1)
  <= days_from_civil (mkDate (y + 1 + Z.of_nat n) 1 1).
Proof.
  induction n as [|n IH].
  - replace (y + 1 + Z.of_nat 0) with (y + 1) by lia. lia.
  - replace (y + 1 + Z.of_nat (S n)) with ((y + 1 + Z.of_nat n) + 1) by lia.
    rewrite (days_from_civil_year (y + 1 + Z.of_nat n)).
    destruct (is_leap _); lia.
Qed.

Lemma days_from_civil_january y m :
  1 <= m <= 12 ->
  days_from_civil (mkDate y 1 1) <= days_from_civil (mkDate y m 1)
  /\ days_from_civil (mkDate y m 1) + days_in_month y m
     <= days_from_civil (mkDate (y + 1) 1 1).
Proof.
  intros Hm. split.
  - destruct (Z.eq_dec m 1) as [->|Hne]; [lia|].
    pose proof (days_from_civil_months y 1 (Z.to_nat (m - 2)) ltac:(lia) ltac:(lia)) as Hs.
    replace (1 + 1 + Z.of_nat (Z.to_nat (m - 2))) with m in Hs by lia.
    pose proof (days_in_month_pos y 1). lia.
  - destruct (Z.eq_dec m 12) as [->|Hne].
    + rewrite days_from_civil_december. unfold days_in_month. simpl. lia.
    + pose proof (days_from_civil_months y m (Z.to_nat (11 - m)) ltac:(lia) ltac:(lia)) as Hs.
      replace (m + 1 + Z.of_nat (Z.to_nat (11 - m))) with 12 in Hs by lia.
      rewrite days_from_civil_december. lia.
Qed.

(** [days_from_civil] is strictly increasing on the dates of the
    calendar. *)
Lemma days_from_civil_lt a b :
  valid_date a = true -> valid_date b = true ->
  date_leb a b = true -> a <> b ->
  days_from_civil a < days_from_civil b.
Proof.
  intros Ha Hb Hab Hne.
  assert (Hda : day a <= days_in_month (year a) (month a)).
  { unfold valid_date in Ha. rewrite !andb_true_iff, !Z.leb_le in Ha. tauto. }
  apply valid_date_month in Ha. apply valid_date_month in Hb.
  apply date_leb_spec in Hab.
  destruct a as [ya ma da], b as [yb mb db]. cbn [year month day] in *.
  rewrite (days_from_civil_day ya ma da), (days_from_civil_day yb mb db).
  destruct Hab as [Hy|[-> [Hm|[-> Hd]]]].
  - pose proof (days_from_civil_january ya ma ltac:(lia)) as [_ H1].
    pose proof (days_from_civil_years ya (Z.to_nat (yb - ya - 1))) as H2.
    replace (ya + 1 + Z.of_nat (Z.to_nat (yb - ya - 1))) with yb in H2 by lia.
    pose proof (days_from_civil_january yb mb ltac:(lia)) as [H3 _]. lia.
  - pose proof (days_from_civil_months yb ma (Z.to_nat (mb - ma - 1))
                  ltac:(lia) ltac:(lia)) as Hs.
    replace (ma + 1 + Z.of_nat (Z.to_nat (mb - ma - 1))) with mb in Hs by lia.
    lia.
  - assert (da <> db) by (intros ->; apply Hne; reflexivity). lia.
Qed.

Lemma timestamp_lt a b :
  valid_date a = true -> valid_date b = true ->
  date_leb a b = true -> a <> b -> timestamp a < timestamp b.
Proof.
  intros Ha Hb Hab Hne. unfold timestamp.
  pose proof (days_from_civil_lt a b Ha Hb Hab Hne). lia.
Qed.

Lemma timestamp_le a b :
  valid_date a = true -> valid_date b = true ->
  date_leb a b = true -> timestamp a <= timestamp b.
Proof.
  intros Ha Hb Hab.
  destruct (date_eqb a b) eqn:E.
  - apply date_eqb_eq in E. subst. lia.
  - assert (a <> b) by (intros ->; rewrite (proj2 (date_eqb_eq b b) eq_refl) in E;
                        discriminate).
    pose proof (timestamp_lt a b Ha Hb Hab H). lia.
Qed.

(** ** The interpolation: when it fails, when it cannot *)

Lemma finite_values_none l :
  (exists x, In x l /\ isfinite x = false) -> finite_values l = None.
Proof.
  intros (x & Hin & Hx). induction l as [|y l IH]; [destruct Hin|].
  destruct Hin as [->|Hin].
  - destruct x; try reflexivity. discriminate Hx.
  - simpl. rewrite (IH Hin). destruct y; reflexivity.
Qed.

Lemma finite_values_some l :
  forallb isfinite l = true -> exists ys, finite_values l = Some ys.
Proof.
  induction l as [|y l IH]; intros Hf; [exists []; reflexivity|].
  simpl in Hf. apply andb_prop in Hf as [Hy Hl].
  destruct (IH Hl) as (ys & E). destruct y; try discriminate Hy.
  exists (r :: ys). simpl. rewrite E. reflexivity.
Qed.

Lemma strictly_increasing_app_false l1 a b l2 :
  b <= a -> strictly_increasing (l1 ++ a :: b :: l2)%list = false.
Proof.
  intros Hba. induction l1 as [|x l1 IH].
  - change (((a <? b) && strictly_increasing (b :: l2)) = false).
    destruct (Z.ltb_spec a b); [lia | reflexivity].
  - destruct l1 as [|y l1].
    + change (((x <? a) && strictly_increasing ([] ++ a :: b :: l2)%list) = false).
      rewrite IH. apply andb_false_r.
    + change (((x <? y) && strictly_increasing ((y :: l1) ++ a :: b :: l2)%list)
              = false).
      rewrite IH. apply andb_false_r.
Qed.


Section InterpolationOutcomes.
Context `{SplineSolver}.

Lemma length_dropna_index gdp :
  length (List.map timestamp (s_index (series_dropna gdp)))
  = length (s_items (series_dropna gdp)).
Proof. unfold s_index. rewrite !List.length_map. reflexivity. Qed.

Lemma two_or_more (n : nat) : (2 <= n)%nat -> (n <? 2)%nat = false.
Proof. intros Hn. apply Nat.ltb_ge. exact Hn. Qed.

(** X5.  A quarterly observation that is infinite is not dropped with the
    missing ones: the spline constructor refuses it, and so does the
    alignment as a whole. *)
Theorem interpolate_rejects_infinite_observation :
  forall (m2 cpi gdp fed_funds tips_real_yield btc sp500 gold : Series),
    (2 <= length (s_items (series_dropna gdp)))%nat ->
    (exists d v, In (d, v) (s_items gdp) /\ (v = PInf \/ v = NInf)) ->
    interpolate_gdp_to_monthly gdp
    = Err (ValueError "`y` must contain only finite values.")
    /\ align_all_series_to_monthly m2 cpi gdp fed_funds tips_real_yield
                                   btc sp500 gold
       = Err (ValueError "`y` must contain only finite values.").
Proof.
  intros m2 cpi gdp ff tips btc sp gold Hlen (d & v & Hin & Hv).
  assert (E : interpolate_gdp_to_monthly gdp
              = Err (ValueError "`y` must contain only finite values.")).
  { unfold interpolate_gdp_to_monthly, CubicSpline.
    rewrite length_dropna_index, (two_or_more _ Hlen).
    rewrite finite_values_none; [reflexivity|].
    exists v. split; [|destruct Hv as [-> | ->]; reflexivity].
    unfold s_values, series_dropna. cbn [s_items].
    apply List.in_map_iff. exists (d, v). split; [reflexivity|].
    apply List.filter_In. split; [exact Hin|].
    destruct Hv as [-> | ->]; reflexivity. }
  split; [exact E|]. apply align_err. exact E.
Qed.

(** X6.  Two observations at the same date, or a later observation listed
    before an earlier one, make the spline constructor refuse the series:
    the dates of the non-missing observations must strictly increase. *)
Theorem interpolate_rejects_repeated_date :
  forall (m2 cpi gdp fed_funds tips_real_yield btc sp500 gold : Series)
         (pre post : list (date * float)) (d1 d2 : date) (v1 v2 : float),
    s_items (series_dropna gdp) = (pre ++ (d1, v1) :: (d2, v2) :: post)%list ->
    forallb isfinite (s_values (series_dropna gdp)) = true ->
    valid_date d1 = true -> valid_date d2 = true ->
    date_leb d2 d1 = true ->
    interpolate_gdp_to_monthly gdp
    = Err (ValueError "`x` must be strictly increasing sequence.")
    /\ align_all_series_to_monthly m2 cpi gdp fed_funds tips_real_yield
                                   btc sp500 gold
       = Err (ValueError "`x` must be strictly increasing sequence.").
Proof.
  intros m2 cpi gdp ff tips btc sp gold pre post d1 d2 v1 v2 E Hfin Hv1 Hv2 Hle.
  assert (Ei : interpolate_gdp_to_monthly gdp
               = Err (ValueError "`x` must be strictly increasing sequence.")).
  { unfold interpolate_gdp_to_monthly, CubicSpline.
    rewrite length_dropna_index, two_or_more
      by (rewrite E, List.length_app; simpl; lia).
    destruct (finite_values_some _ Hfin) as (ys & ->).
    unfold s_index. rewrite E, !List.map_app. cbn [List.map fst].
    rewrite strictly_increasing_app_false; [reflexivity|].
    apply timestamp_le; assumption. }
  split; [exact Ei|]. apply align_err. exact Ei.
Qed.


End InterpolationOutcomes.

(** ** The monthly index of the interpolated series *)

Lemma date_leb_months a b :
  1 <= month a <= 12 -> 1 <= month b <= 12 ->
  (date_leb a b = true
   <-> month_index a < month_index b
       \/ (month_index a = month_index b /\ day a <= day b)).
Proof.
  intros Ha Hb. rewrite date_leb_spec. unfold month_index. lia.
Qed.

Lemma first_of_month_fields k :
  1 <= month (first_of_month k) <= 12 /\ day (first_of_month k) = 1.
Proof.
  unfold first_of_month. cbn [month day].
  pose proof (Z.mod_pos_bound k 12). lia.
Qed.

Lemma valid_first_of_month k : valid_date (first_of_month k) = true.
Proof.
  unfold valid_date.
  destruct (first_of_month_fields k) as [Hm Hd]. rewrite Hd.
  pose proof (days_in_month_pos (year (first_of_month k))
                                (month (first_of_month k))).
  rewrite !andb_true_iff, !Z.leb_le. lia.
Qed.

(** Every date that [date_range] generates lies between its two ends. *)
Lemma date_range_MS_between dmin dmax d :
  valid_date dmin = true -> valid_date dmax = true ->
  In d (date_range_MS dmin dmax) ->
  date_leb dmin d = true /\ date_leb d dmax = true /\ day d = 1
  /\ valid_date d = true.
Proof.
  intros Hmin Hmax Hin. unfold date_range_MS in Hin.
  apply List.in_map_iff in Hin as (k & <- & Hk). apply In_zrange in Hk.
  destruct (first_of_month_fields k) as [Hm Hd].
  apply valid_date_month in Hmin. apply valid_date_month in Hmax.
  split; [|split; [|split]].
  - apply date_leb_months; [tauto | exact Hm |].
    rewrite month_index_first_of_month, Hd.
    destruct (Z.leb_spec (day dmin) 1); lia.
  - apply date_leb_months; [exact Hm | tauto |].
    rewrite month_index_first_of_month, Hd. lia.
  - exact Hd.
  - apply valid_first_of_month.
Qed.

Lemma length_zrange lo hi : length (zrange lo hi) = Z.to_nat (hi - lo + 1).
Proof. unfold zrange. rewrite List.length_map, List.length_seq. reflexivity. Qed.

Section InterpolatedIndex.
Context `{SplineSolver}.

(** X8.  The spline is never extrapolated: every date at which the monthly
    series is evaluated is the first of a month and lies between the
    earliest and the latest non-missing observation, so its timestamp lies
    between the first and the last knot. *)
Theorem interpolation_never_extrapolates :
  forall gdp : Series,
    (2 <= length (s_items (series_dropna gdp)))%nat ->
    strictly_increasing (List.map timestamp (s_index (series_dropna gdp))) = true ->
    forallb isfinite (s_values (series_dropna gdp)) = true ->
    (forall d, In d (s_index (series_dropna gdp)) -> valid_date d = true) ->
    exists g dmin dmax,
      interpolate_gdp_to_monthly gdp = Ok g
      /\ In dmin (s_index (series_dropna gdp))
      /\ In dmax (s_index (series_dropna gdp))
      /\ forall d, In d (s_index g) ->
           day d = 1
           /\ date_leb dmin d = true /\ date_leb d dmax = true
           /\ timestamp dmin <= timestamp d <= timestamp dmax.
Proof.
  intros gdp Hlen Hinc Hfin Hv.
  destruct (interpolate_success gdp Hlen Hinc Hfin)
    as (spl & d0 & ds & _ & _ & _ & Ei & Eg).
  destruct (date_min_spec ds d0) as [Hmin _].
  destruct (date_max_spec ds d0) as [Hmax _].
  rewrite <- Ei in Hmin, Hmax.
  eexists _, (date_min d0 ds), (date_max d0 ds).
  split; [exact Eg|]. split; [exact Hmin|]. split; [exact Hmax|].
  intros d Hd. unfold s_index in Hd. cbn [s_items] in Hd.
  rewrite List.map_map in Hd. cbn [fst] in Hd. rewrite List.map_id in Hd.
  destruct (date_range_MS_between _ _ _ (Hv _ Hmin) (Hv _ Hmax) Hd)
    as (Hlo & Hhi & Hday & Hvd).
  split; [exact Hday|]. split; [exact Hlo|]. split; [exact Hhi|].
  split; apply timestamp_le; auto.
Qed.

(** X9.  When the earliest and the latest non-missing observation are dated
    on the first of a month, the monthly series starts at the one and ends
    at the other, with one row for every month between them. *)
Theorem interpolated_index_covers_observed_range :
  forall gdp : Series,
    (2 <= length (s_items (series_dropna gdp)))%nat ->
    strictly_increasing (List.map timestamp (s_index (series_dropna gdp))) = true ->
    forallb isfinite (s_values (series_dropna gdp)) = true ->
    (forall d, In d (s_index (series_dropna gdp)) ->
               valid_date d = true /\ day d = 1) ->
    exists g dmin dmax,
      interpolate_gdp_to_monthly gdp = Ok g
      /\ In dmin (s_index (series_dropna gdp))
      /\ In dmax (s_index (series_dropna gdp))
      /\ (forall d, In d (s_index (series_dropna gdp)) ->
                    date_leb dmin d = true /\ date_leb d dmax = true)
      /\ s_index g
         = List.map first_of_month (zrange (month_index dmin) (month_index dmax))
      /\ length (s_items g)
         = Z.to_nat (month_index dmax - month_index dmin + 1)
      /\ List.hd dmin (s_index g) = dmin
      /\ List.last (s_index g) dmax = dmax.
Proof.
  intros gdp Hlen Hinc Hfin Hv.
  destruct (interpolate_success gdp Hlen Hinc Hfin)
    as (spl & d0 & ds & _ & _ & _ & Ei & Eg).
  destruct (date_min_spec ds d0) as [Hmin Hminle].
  destruct (date_max_spec ds d0) as [Hmax Hmaxle].
  rewrite <- Ei in Hmin, Hmax, Hminle, Hmaxle.
  set (dmin := date_min d0 ds) in *. set (dmax := date_max d0 ds) in *.
  destruct (Hv _ Hmin) as [Hvmin Hdmin]. destruct (Hv _ Hmax) as [Hvmax Hdmax].
  pose proof (valid_date_month _ Hvmin) as [Hmmin _].
  pose proof (valid_date_month _ Hvmax) as [Hmmax _].
  assert (Hle : month_index dmin <= month_index dmax).
  { apply date_leb_month_index; [assumption ..|]. apply Hminle. exact Hmax. }
  assert (Eidx : s_index (mkSeries "gdp_monthly"
                   (List.map (fun d => (d, spline_call spl (timestamp d)))
                             (date_range_MS dmin dmax)))
                 = List.map first_of_month
                     (zrange (month_index dmin) (month_index dmax))).
  { unfold s_index. cbn [s_items]. rewrite List.map_map. cbn [fst].
    rewrite List.map_id. unfold date_range_MS. rewrite Hdmin. reflexivity. }
  eexists _, dmin, dmax. split; [exact Eg|].
  split; [exact Hmin|]. split; [exact Hmax|].
  split; [intros d Hd; split; [apply Hminle | apply Hmaxle]; exact Hd|].
  split; [exact Eidx|]. split; [|split].
  - cbn [s_items]. rewrite List.length_map. unfold date_range_MS.
    rewrite Hdmin, List.length_map, length_zrange. reflexivity.
  - rewrite Eidx, (zrange_cons _ _ Hle). cbn [List.map List.hd].
    apply first_of_month_month_index; assumption.
  - rewrite Eidx.
    assert (Ez : zrange (month_index dmin) (month_index dmax)
                 = (zrange (month_index dmin) (month_index dmax - 1)
                    ++ [month_index dmax])%list).
    { unfold zrange.
      replace (Z.to_nat (month_index dmax - month_index dmin + 1))
        with (Z.to_nat (month_index dmax - 1 - month_index dmin + 1) + 1)%nat
        by lia.
      rewrite List.seq_app, List.map_app. cbn [seq List.map]. do 2 f_equal. lia. }
    rewrite Ez, List.map_app. cbn [List.map]. rewrite List.last_last.
    apply first_of_month_month_index; assumption.
Qed.

End InterpolatedIndex.

(** ** Shifted columns *)

Lemma length_shift n v : length (shift n v) = length v.
Proof.
  unfold shift. rewrite List.length_firstn, List.length_app, List.repeat_length.
  lia.
Qed.

Lemma nth_shift_lt n v i : (i < n)%nat -> nth i (shift n v) NaN = NaN.
Proof.
  intros Hi. unfold shift.
  destruct (Nat.lt_ge_cases i (length v)) as [Hl|Hl].
  - rewrite List.nth_firstn.
    destruct (Nat.ltb_spec i (length v)); [|lia].
    rewrite List.app_nth1 by (rewrite List.repeat_length; exact Hi).
    apply List.nth_repeat.
  - apply List.nth_overflow. rewrite List.length_firstn. lia.
Qed.

Lemma nth_shift_ge n v i :
  (n <= i)%nat -> (i < length v)%nat ->
  nth i (shift n v) NaN = nth (i - n) v NaN.
Proof.
  intros Hi Hl. unfold shift. rewrite List.nth_firstn.
  destruct (Nat.ltb_spec i (length v)); [|lia].
  rewrite List.app_nth2 by (rewrite List.repeat_length; exact Hi).
  rewrite List.repeat_length. reflexivity.
Qed.

Lemma nth_fin_lt (v : list float) i a : nth i v NaN = Fin a -> (i < length v)%nat.
Proof.
  intros E. destruct (Nat.lt_ge_cases i (length v)) as [Hi|Hi]; [exact Hi|].
  rewrite List.nth_overflow in E by exact Hi. discriminate.
Qed.

Lemma length_map2 {A B C} (f : A -> B -> C) l l' :
  length (map2 f l l') = Nat.min (length l) (length l').
Proof.
  revert l'. induction l as [|a l IH]; intros [|b l']; simpl; auto.
Qed.

Lemma nth_map2_nan (f : float -> float -> float) l l' i :
  f NaN NaN = NaN ->
  (length l = length l') ->
  nth i (map2 f l l') NaN = f (nth i l NaN) (nth i l' NaN).
Proof.
  intros Hf Hlen. destruct (Nat.lt_ge_cases i (length l)) as [Hi|Hi].
  - apply nth_map2; lia.
  - rewrite !List.nth_overflow; [symmetry; exact Hf | lia | lia |].
    rewrite length_map2. lia.
Qed.

Lemma length_pct_change n v : length (pct_change n v) = length v.
Proof.
  unfold pct_change. rewrite List.length_map, length_map2, length_shift. lia.
Qed.

Lemma length_times100 v : length (times100 v) = length v.
Proof. apply List.length_map. Qed.

(** A cell of [s.pct_change(periods=n) * 100]. *)
Lemma nth_yoy n v i :
  nth i (times100 (pct_change n v)) NaN
  = fmul (fsub (fdiv (nth i v NaN) (nth i (shift n v) NaN)) (Fin 1)) (Fin 100).
Proof.
  unfold times100, pct_change.
  destruct (Nat.lt_ge_cases i (length v)) as [Hi|Hi].
  - rewrite (nth_map_default _ _ _ NaN)
      by (rewrite List.length_map, length_map2, length_shift; lia).
    rewrite (nth_map_default _ _ _ NaN) by (rewrite length_map2, length_shift; lia).
    rewrite (nth_map2 _ _ _ _ NaN NaN) by (rewrite ?length_shift; lia).
    reflexivity.
  - rewrite !List.nth_overflow;
      rewrite ?List.length_map, ?length_map2, ?length_shift; try lia.
    reflexivity.
Qed.

Lemma nth_yoy_lookback n v i :
  (i < n)%nat -> nth i (times100 (pct_change n v)) NaN = NaN.
Proof.
  intros Hi. rewrite nth_yoy, (nth_shift_lt _ _ _ Hi).
  destruct (nth i v NaN); reflexivity.
Qed.

Lemma nth_yoy_fin n v i a b :
  (n <= i)%nat -> nth i v NaN = Fin a -> nth (i - n) v NaN = Fin b ->
  b <> 0%R ->
  nth i (times100 (pct_change n v)) NaN = Fin ((a / b - 1) * 100).
Proof.
  intros Hi Ha Hb Hb0.
  rewrite nth_yoy, (nth_shift_ge _ _ _ Hi (nth_fin_lt _ _ _ Ha)), Ha, Hb.
  rewrite fdiv_fin by exact Hb0. reflexivity.
Qed.

(** ** The debasement indicators *)

(** The columns of the frame [compute_debasement_indicators] returns. *)
Lemma debasement_frame_columns df m2 cpi gdp :
  get_column df "m2" = Some m2 -> get_column df "cpi" = Some cpi ->
  get_column df "gdp_monthly" = Some gdp ->
  get_column (debasement_frame df) "m2_yoy_pct"
  = Some (times100 (pct_change 12 m2))
  /\ get_column (debasement_frame df) "cpi_yoy_pct"
     = Some (times100 (pct_change 12 cpi))
  /\ get_column (debasement_frame df) "real_m2_growth"
     = Some (map2 fsub (times100 (pct_change 12 m2))
                       (times100 (pct_change 12 cpi)))
  /\ get_column (debasement_frame df) "m2_to_gdp" = Some (map2 fdiv m2 gdp).
Proof.
  intros E1 E2 E3. unfold debasement_frame, debasement_filled. cbv zeta.
  rewrite !get_column_df_drop, !get_column_df_set, !col_df_set.
  unfold col. rewrite E1, E2, E3. cbn. repeat split; reflexivity.
Qed.

Lemma debasement_frame_other df c :
  mem c ["m2_yoy_pct"; "cpi_yoy_pct"; "real_m2_growth"; "m2_to_gdp";
         "m2"; "cpi"; "gdp_monthly"] = false ->
  get_column (debasement_frame df) c = get_column df c.
Proof.
  unfold mem. cbn [existsb]. rewrite !orb_false_iff.
  intros (H1 & H2 & H3 & H4 & H5 & H6 & H7 & _).
  unfold debasement_frame, debasement_filled. cbv zeta.
  rewrite get_column_df_drop, !get_column_df_set. cbn [existsb].
  rewrite H1, H2, H3, H4, H5, H6, H7. reflexivity.
Qed.

Lemma cell_of_column df c v i : get_column df c = Some v -> cell df c i = nth i v NaN.
Proof. intros E. unfold cell. rewrite E. reflexivity. Qed.

(** X10.  The first twelve rows of the year-over-year columns are missing:
    [compute_debasement_indicators] looks twelve rows back, so in rows 0 to
    11 the money-supply growth, the inflation and their difference are all
    missing, whatever the levels are. *)
Theorem debasement_indicators_lookback :
  forall (h : heap) (r : ref) (df : DataFrame),
    h !! r = Some df ->
    has_column df "m2" = true -> has_column df "cpi" = true ->
    has_column df "gdp_monthly" = true ->
    exists r' h' out,
      compute_debasement_indicators r h = (Ok r', h')
      /\ h' !! r' = Some out
      /\ df_index out = df_index df
      /\ forall i, (i < 12)%nat ->
           cell out "m2_yoy_pct" i = NaN
           /\ cell out "cpi_yoy_pct" i = NaN
           /\ cell out "real_m2_growth" i = NaN.
Proof.
  intros h r df Hl H1 H2 H3.
  exists (length h), (<[r:=debasement_filled df]> h ++ [debasement_frame df])%list,
    (debasement_frame df).
  split; [apply compute_debasement_indicators_run; assumption|].
  split; [apply lookup_alloc_insert|].
  split.
  { unfold debasement_frame, debasement_filled, df_drop. cbn [df_index].
    rewrite !df_index_df_set. reflexivity. }
  destruct (debasement_frame_columns df _ _ _ (has_column_get _ _ H1)
              (has_column_get _ _ H2) (has_column_get _ _ H3))
    as (E1 & E2 & E3 & _).
  intros i Hi.
  rewrite (cell_of_column _ _ _ _ E1), (cell_of_column _ _ _ _ E2),
    (cell_of_column _ _ _ _ E3).
  rewrite !nth_yoy_lookback by exact Hi. split; [reflexivity|].
  split; [reflexivity|].
  destruct (Nat.lt_ge_cases i
              (length (map2 fsub (times100 (pct_change 12 (col df "m2")))
                                 (times100 (pct_change 12 (col df "cpi"))))))
    as [Hlt|Hge].
  - rewrite length_map2 in Hlt.
    rewrite (nth_map2 _ _ _ _ NaN NaN) by lia.
    rewrite !nth_yoy_lookback by exact Hi. reflexivity.
  - apply List.nth_overflow. exact Hge.
Qed.

(** X11.  From the thirteenth row on, the indicators are the formulas of
    the module on the cells of the frame: the year-over-year growth of a
    level that is [a] now and was [b] (not zero) twelve rows earlier is
    (a / b - 1) * 100; the real growth is the difference of the two growth
    rates of that row; the money-to-output ratio of a row is its money
    supply over its output, in every row. *)
Theorem debasement_indicators_formulas :
  forall (h : heap) (r : ref) (df : DataFrame) (m2 cpi gdp : list float),
    h !! r = Some df ->
    get_column df "m2" = Some m2 -> get_column df "cpi" = Some cpi ->
    get_column df "gdp_monthly" = Some gdp ->
    length m2 = length cpi -> length m2 = length gdp ->
    exists r' h' out,
      compute_debasement_indicators r h = (Ok r', h')
      /\ h' !! r' = Some out
      /\ (forall i a b, (12 <= i)%nat ->
            nth i m2 NaN = Fin a -> nth (i - 12) m2 NaN = Fin b -> b <> 0%R ->
            cell out "m2_yoy_pct" i = Fin ((a / b - 1) * 100))
      /\ (forall i a b, (12 <= i)%nat ->
            nth i cpi NaN = Fin a -> nth (i - 12) cpi NaN = Fin b -> b <> 0%R ->
            cell out "cpi_yoy_pct" i = Fin ((a / b - 1) * 100))
      /\ (forall i,
            cell out "real_m2_growth" i
            = fsub (cell out "m2_yoy_pct" i) (cell out "cpi_yoy_pct" i))
      /\ (forall i,
            cell out "m2_to_gdp" i = fdiv (nth i m2 NaN) (nth i gdp NaN))
      /\ (forall i a g, nth i m2 NaN = Fin a -> nth i gdp NaN = Fin g ->
            g <> 0%R -> cell out "m2_to_gdp" i = Fin (a / g)).
Proof.
  intros h r df m2 cpi gdp Hl E1 E2 E3 Hlc Hlg.
  exists (length h), (<[r:=debasement_filled df]> h ++ [debasement_frame df])%list,
    (debasement_frame df).
  split.
  { apply compute_debasement_indicators_run;
      [exact Hl | eapply get_column_has; eassumption ..]. }
  split; [apply lookup_alloc_insert|].
  destruct (debasement_frame_columns df _ _ _ E1 E2 E3) as (C1 & C2 & C3 & C4).
  split; [|split; [|split; [|split]]].
  - intros i a b Hi Ha Hb Hb0. rewrite (cell_of_column _ _ _ _ C1).
    apply nth_yoy_fin; assumption.
  - intros i a b Hi Ha Hb Hb0. rewrite (cell_of_column _ _ _ _ C2).
    apply nth_yoy_fin; assumption.
  - intros i. rewrite (cell_of_column _ _ _ _ C1), (cell_of_column _ _ _ _ C2),
      (cell_of_column _ _ _ _ C3).
    apply nth_map2_nan; [reflexivity|].
    rewrite !length_times100, !length_pct_change. exact Hlc.
  - intros i. rewrite (cell_of_column _ _ _ _ C4).
    apply nth_map2_nan; [reflexivity | exact Hlg].
  - intros i a g Ha Hg Hg0. rewrite (cell_of_column _ _ _ _ C4).
    rewrite nth_map2_nan by (reflexivity || exact Hlg).
    rewrite Ha, Hg. apply fdiv_fin. exact Hg0.
Qed.

(** ** The frame a stage is handed *)

Lemma lookup_insert_alloc_old (h : heap) r x d :
  (r < length h)%nat -> (<[r:=x]> h ++ [d])%list !! r = Some x.
Proof.
  intros Hr. rewrite lookup_app_l by (rewrite length_insert; exact Hr).
  apply list_lookup_insert_eq. exact Hr.
Qed.

Lemma lookup_insert_alloc_other (h : heap) r x d i :
  (i < length h)%nat -> i <> r -> (<[r:=x]> h ++ [d])%list !! i = h !! i.
Proof.
  intros Hi Hne. rewrite lookup_app_l by (rewrite length_insert; exact Hi).
  apply list_lookup_insert_ne. congruence.
Qed.

(** X12.  The two stages that drop their inputs return a new frame but
    assign into the frame they are handed first: after
    [compute_debasement_indicators] (or [compute_asset_returns]) the
    caller's frame has gained the derived columns and still has the level
    (or price) columns, the returned frame is another object that lacks
    them, and no other frame of the store has changed. *)
Theorem dropping_stages_mutate_their_argument :
  forall (h : heap) (r : ref) (df : DataFrame),
    h !! r = Some df ->
    (has_column df "m2" = true -> has_column df "cpi" = true ->
     has_column df "gdp_monthly" = true ->
     exists r' h' mutated out,
       compute_debasement_indicators r h = (Ok r', h')
       /\ r' <> r
       /\ h' !! r = Some mutated /\ h' !! r' = Some out
       /\ (forall c, In c ["m2_yoy_pct"; "cpi_yoy_pct"; "real_m2_growth";
                           "m2_to_gdp"; "m2"; "cpi"; "gdp_monthly"] ->
                     has_column mutated c = true)
       /\ (forall c, In c ["m2"; "cpi"; "gdp_monthly"] ->
                     has_column out c = false)
       /\ (forall i, (i < length h)%nat -> i <> r -> h' !! i = h !! i))
    /\ (has_column df "btc_price" = true -> has_column df "sp500_price" = true ->
        has_column df "gold_price" = true ->
        exists r' h' mutated out,
          compute_asset_returns r h = (Ok r', h')
          /\ r' <> r
          /\ h' !! r = Some mutated /\ h' !! r' = Some out
          /\ (forall c, In c ["btc_return_monthly"; "sp500_return_monthly";
                              "gold_return_monthly"; "btc_price";
                              "sp500_price"; "gold_price"] ->
                        has_column mutated c = true)
          /\ (forall c, In c ["btc_price"; "sp500_price"; "gold_price"] ->
                        has_column out c = false)
          /\ (forall i, (i < length h)%nat -> i <> r -> h' !! i = h !! i)).
Proof.
  intros h r df Hl. pose proof (lookup_lt_Some _ _ _ Hl) as Hr. split.
  - intros H1 H2 H3.
    exists (length h),
      (<[r:=debasement_filled df]> h ++ [debasement_frame df])%list,
      (debasement_filled df), (debasement_frame df).
    split; [apply compute_debasement_indicators_run; assumption|].
    split; [lia|]. split; [apply lookup_insert_alloc_old; exact Hr|].
    split; [apply lookup_alloc_insert|].
    split; [|split].
    + intros c Hc. unfold debasement_filled. cbv zeta.
      rewrite !has_column_df_set. simpl in Hc.
      repeat (destruct Hc as [<-|Hc]; [cbn; rewrite ?H1, ?H2, ?H3, ?orb_true_r;
                                        reflexivity|]).
      destruct Hc.
    + intros c Hc. rewrite has_column_debasement_frame. simpl in Hc.
      repeat (destruct Hc as [<-|Hc]; [cbn; apply andb_false_r|]).
      destruct Hc.
    + intros i Hi Hne. apply lookup_insert_alloc_other; assumption.
  - intros H1 H2 H3.
    exists (length h),
      (<[r:=returns_filled df]> h ++ [returns_frame df])%list,
      (returns_filled df), (returns_frame df).
    split; [apply compute_asset_returns_run; assumption|].
    split; [lia|]. split; [apply lookup_insert_alloc_old; exact Hr|].
    split; [apply lookup_alloc_insert|].
    split; [|split].
    + intros c Hc. unfold returns_filled. cbv zeta.
      rewrite !has_column_df_set. simpl in Hc.
      repeat (destruct Hc as [<-|Hc]; [cbn; rewrite ?H1, ?H2, ?H3, ?orb_true_r;
                                        reflexivity|]).
      destruct Hc.
    + intros c Hc. rewrite has_column_returns_frame. simpl in Hc.
      repeat (destruct Hc as [<-|Hc]; [cbn; apply andb_false_r|]).
      destruct Hc.
    + intros i Hi Hne. apply lookup_insert_alloc_other; assumption.
Qed.

(** ** Asset returns *)

Lemma returns_frame_values df btc sp gold :
  get_column df "btc_price" = Some btc ->
  get_column df "sp500_price" = Some sp ->
  get_column df "gold_price" = Some gold ->
  get_column (returns_frame df) "btc_return_monthly"
  = Some (log_return btc (shift 1 btc))
  /\ get_column (returns_frame df) "sp500_return_monthly"
     = Some (log_return sp (shift 1 sp))
  /\ get_column (returns_frame df) "gold_return_monthly"
     = Some (log_return gold (shift 1 gold)).
Proof.
  intros E1 E2 E3. unfold returns_frame, returns_filled. cbv zeta.
  rewrite !get_column_df_drop, !get_column_df_set, !col_df_set.
  unfold col. rewrite E1, E2, E3. cbn. repeat split; reflexivity.
Qed.

Lemma nth_log_return p i :
  nth i (log_return p (shift 1 p)) NaN
  = flog (fdiv (nth i p NaN) (nth i (shift 1 p) NaN)).
Proof.
  unfold log_return. destruct (Nat.lt_ge_cases i (length p)) as [Hi|Hi].
  - rewrite (nth_map_default _ _ _ NaN) by (rewrite length_map2, length_shift; lia).
    rewrite (nth_map2 _ _ _ _ NaN NaN) by (rewrite ?length_shift; lia).
    reflexivity.
  - rewrite !List.nth_overflow;
      rewrite ?List.length_map, ?length_map2, ?length_shift; try lia.
    reflexivity.
Qed.

Lemma nth_log_return_first p : nth 0 (log_return p (shift 1 p)) NaN = NaN.
Proof.
  rewrite nth_log_return, nth_shift_lt by lia.
  destruct (nth 0 p NaN); reflexivity.
Qed.

Lemma nth_log_return_fin p i a b :
  nth (S i) p NaN = Fin a -> nth i p NaN = Fin b ->
  (0 < a)%R -> (0 < b)%R ->
  nth (S i) (log_return p (shift 1 p)) NaN = Fin (ln (a / b)).
Proof.
  intros Ha Hb Ha0 Hb0.
  rewrite nth_log_return, nth_shift_ge by (lia || exact (nth_fin_lt _ _ _ Ha)).
  replace (S i - 1)%nat with i by lia. rewrite Ha, Hb.
  rewrite fdiv_fin by lra. apply flog_fin.
  apply Rdiv_lt_0_compat; assumption.
Qed.

Lemma ln_quotient x y : (0 < x)%R -> (0 < y)%R -> ln (x / y) = (ln x - ln y)%R.
Proof.
  intros Hx Hy. unfold Rdiv.
  rewrite ln_mult by (try apply Rinv_0_lt_compat; assumption).
  rewrite ln_Rinv by exact Hy. lra.
Qed.

(** The sum of the returns of the [n] rows after row [i]. *)
Lemma log_return_telescopes p n : forall i a b,
  nth i p NaN = Fin a -> nth (i + n) p NaN = Fin b ->
  (forall k, (i <= k <= i + n)%nat -> exists x, nth k p NaN = Fin x /\ (0 < x)%R) ->
  fsum (firstn n (skipn (S i) (log_return p (shift 1 p)))) = Fin (ln (b / a)).
Proof.
  induction n as [|n IH]; intros i a b Ha Hb Hpos.
  - replace (i + 0)%nat with i in Hb by lia. rewrite Ha in Hb.
    injection Hb as <-. rewrite List.firstn_O. unfold fsum. cbn [fold_right].
    destruct (Hpos i ltac:(lia)) as (x & Hx & Hx0). rewrite Ha in Hx.
    injection Hx as <-. f_equal. unfold Rdiv. rewrite Rinv_r by lra.
    symmetry. apply ln_1.
  - destruct (Hpos (S i) ltac:(lia)) as (c & Hc & Hc0).
    destruct (Hpos i ltac:(lia)) as (a' & Ha' & Ha0). rewrite Ha in Ha'.
    injection Ha' as <-.
    destruct (Hpos (i + S n)%nat ltac:(lia)) as (b' & Hb' & Hb0).
    rewrite Hb in Hb'. injection Hb' as <-.
    pose proof (nth_fin_lt _ _ _ Hc) as Hlen.
    assert (Hsk : skipn (S i) (log_return p (shift 1 p))
                  = nth (S i) (log_return p (shift 1 p)) NaN
                    :: skipn (S (S i)) (log_return p (shift 1 p))).
    { assert (Hl : (S i < length (log_return p (shift 1 p)))%nat).
      { unfold log_return. rewrite List.length_map, length_map2, length_shift. lia. }
      revert Hl. generalize (log_return p (shift 1 p)) (S i). clear.
      intros l k. revert l. induction k as [|k IH]; intros [|x l] Hl;
        simpl in Hl; try lia; [reflexivity|].
      change (skipn (S k) (x :: l)) with (skipn k l).
      change (skipn (S (S k)) (x :: l)) with (skipn (S k) l).
      change (nth (S k) (x :: l) NaN) with (nth k l NaN).
      apply IH. lia. }
    rewrite Hsk. cbn [firstn]. unfold fsum. cbn [fold_right].
    fold (fsum (firstn n (skipn (S (S i)) (log_return p (shift 1 p))))).
    rewrite (IH (S i) c b Hc);
      [| replace (S i + n)%nat with (i + S n)%nat by lia; exact Hb
       | intros k Hk; apply Hpos; lia].
    rewrite (nth_log_return_fin p i c a Hc Ha Hc0 Ha0). cbn [fadd]. f_equal.
    rewrite !ln_quotient by assumption. lra.
Qed.

(** X13.  The monthly log return of an asset is missing in the first row;
    in a later row, with a positive price [a] and a positive price [b] one
    row earlier, it is ln (a / b).  [compute_asset_returns] computes it for
    the three assets. *)
Theorem asset_returns_formula :
  forall (h : heap) (r : ref) (df : DataFrame) (asset : string)
         (price : list float),
    h !! r = Some df ->
    has_column df "btc_price" = true -> has_column df "sp500_price" = true ->
    has_column df "gold_price" = true ->
    In asset ["btc"; "sp500"; "gold"] ->
    get_column df (asset ++ "_price") = Some price ->
    exists r' h' out,
      compute_asset_returns r h = (Ok r', h')
      /\ h' !! r' = Some out
      /\ cell out (asset ++ "_return_monthly") 0 = NaN
      /\ forall i a b,
           nth (S i) price NaN = Fin a -> nth i price NaN = Fin b ->
           (0 < a)%R -> (0 < b)%R ->
           cell out (asset ++ "_return_monthly") (S i) = Fin (ln (a / b)).
Proof.
  intros h r df asset price Hl H1 H2 H3 Hin Hp.
  exists (length h), (<[r:=returns_filled df]> h ++ [returns_frame df])%list,
    (returns_frame df).
  split; [apply compute_asset_returns_run; assumption|].
  split; [apply lookup_alloc_insert|].
  destruct (returns_frame_values df _ _ _ (has_column_get _ _ H1)
              (has_column_get _ _ H2) (has_column_get _ _ H3))
    as (E1 & E2 & E3).
  assert (E : get_column (returns_frame df) (asset ++ "_return_monthly")
              = Some (log_return price (shift 1 price))).
  { simpl in Hin. destruct Hin as [<-|[<-|[<-|[]]]]; cbn in Hp |- *;
      [rewrite E1 | rewrite E2 | rewrite E3]; unfold col; rewrite Hp;
      reflexivity. }
  split.
  - rewrite (cell_of_column _ _ _ _ E). apply nth_log_return_first.
  - intros i a b Ha Hb Ha0 Hb0. rewrite (cell_of_column _ _ _ _ E).
    apply nth_log_return_fin; assumption.
Qed.

(** X14.  Log returns add up across time: over any stretch of rows with
    positive prices, the sum of the monthly returns of the rows after the
    first is the log return of the whole stretch, ln (last / first). *)
Theorem log_returns_add_up :
  forall (h : heap) (r : ref) (df : DataFrame) (asset : string)
         (price : list float) (i n : nat) (a b : R),
    h !! r = Some df ->
    has_column df "btc_price" = true -> has_column df "sp500_price" = true ->
    has_column df "gold_price" = true ->
    In asset ["btc"; "sp500"; "gold"] ->
    get_column df (asset ++ "_price") = Some price ->
    nth i price NaN = Fin a -> nth (i + n) price NaN = Fin b ->
    (forall k, (i <= k <= i + n)%nat ->
               exists x, nth k price NaN = Fin x /\ (0 < x)%R) ->
    exists r' h' out ret,
      compute_asset_returns r h = (Ok r', h')
      /\ h' !! r' = Some out
      /\ get_column out (asset ++ "_return_monthly") = Some ret
      /\ fsum (firstn n (skipn (S i) ret)) = Fin (ln (b / a)).
Proof.
  intros h r df asset price i n a b Hl H1 H2 H3 Hin Hp Ha Hb Hpos.
  exists (length h), (<[r:=returns_filled df]> h ++ [returns_frame df])%list,
    (returns_frame df), (log_return price (shift 1 price)).
  split; [apply compute_asset_returns_run; assumption|].
  split; [apply lookup_alloc_insert|].
  destruct (returns_frame_values df _ _ _ (has_column_get _ _ H1)
              (has_column_get _ _ H2) (has_column_get _ _ H3))
    as (E1 & E2 & E3).
  split.
  - simpl in Hin. destruct Hin as [<-|[<-|[<-|[]]]]; cbn in Hp |- *;
      [rewrite E1 | rewrite E2 | rewrite E3]; unfold col; rewrite Hp;
      reflexivity.
  - apply log_return_telescopes; assumption.
Qed.

(** ** Spreads over cash *)

Lemma spread_frame_values df btc gold sp cash :
  get_column df "btc_return_monthly" = Some btc ->
  get_column df "gold_return_monthly" = Some gold ->
  get_column df "sp500_return_monthly" = Some sp ->
  get_column df "cash_real_return_monthly" = Some cash ->
  get_column (spread_frame df) "btc_vs_cash_real_spread" = Some (map2 fsub btc cash)
  /\ get_column (spread_frame df) "gold_vs_cash_real_spread"
     = Some (map2 fsub gold cash)
  /\ get_column (spread_frame df) "sp500_vs_cash_real_spread"
     = Some (map2 fsub sp cash)
  /\ forall c, mem c ["btc_vs_cash_real_spread"; "gold_vs_cash_real_spread";
                      "sp500_vs_cash_real_spread"] = false ->
               get_column (spread_frame df) c = get_column df c.
Proof.
  intros E1 E2 E3 E4. unfold spread_frame. cbv zeta.
  rewrite !get_column_df_set, !col_df_set. unfold col.
  rewrite E1, E2, E3, E4. cbn. repeat split; try reflexivity.
  intros c Hc. unfold mem in Hc. cbn [existsb] in Hc.
  rewrite !orb_false_iff in Hc. destruct Hc as (H1 & H2 & H3 & _).
  rewrite !get_column_df_set, H1, H2, H3. reflexivity.
Qed.

(** X15.  [compute_spread_features] assigns into the frame it is handed and
    returns that same frame: three columns are added, each the return of the
    asset minus the real return of cash in the same row, and every other
    column is left as it was.  With finite cells the spread is the real
    difference, and the difference of two spreads is the difference of the
    two returns. *)
Theorem spread_features_formula :
  forall (h : heap) (r : ref) (df : DataFrame) (btc gold sp cash : list float),
    h !! r = Some df ->
    get_column df "btc_return_monthly" = Some btc ->
    get_column df "gold_return_monthly" = Some gold ->
    get_column df "sp500_return_monthly" = Some sp ->
    get_column df "cash_real_return_monthly" = Some cash ->
    length btc = length cash -> length gold = length cash ->
    length sp = length cash ->
    exists df',
      compute_spread_features r h = (Ok r, <[r:=df']> h)
      /\ (forall i,
            cell df' "btc_vs_cash_real_spread" i
            = fsub (nth i btc NaN) (nth i cash NaN)
            /\ cell df' "gold_vs_cash_real_spread" i
               = fsub (nth i gold NaN) (nth i cash NaN)
            /\ cell df' "sp500_vs_cash_real_spread" i
               = fsub (nth i sp NaN) (nth i cash NaN))
      /\ (forall i a b c,
            nth i btc NaN = Fin a -> nth i gold NaN = Fin b ->
            nth i cash NaN = Fin c ->
            cell df' "btc_vs_cash_real_spread" i = Fin (a - c)
            /\ fsub (cell df' "btc_vs_cash_real_spread" i)
                    (cell df' "gold_vs_cash_real_spread" i)
               = Fin (a - b))
      /\ (forall c, mem c ["btc_vs_cash_real_spread"; "gold_vs_cash_real_spread";
                           "sp500_vs_cash_real_spread"] = false ->
                    get_column df' c = get_column df c).
Proof.
  intros h r df btc gold sp cash Hl E1 E2 E3 E4 L1 L2 L3.
  exists (spread_frame df).
  split.
  { apply compute_spread_features_run;
      [exact Hl | eapply get_column_has; eassumption ..]. }
  destruct (spread_frame_values df _ _ _ _ E1 E2 E3 E4) as (C1 & C2 & C3 & C4).
  assert (Hcells : forall i,
            cell (spread_frame df) "btc_vs_cash_real_spread" i
            = fsub (nth i btc NaN) (nth i cash NaN)
            /\ cell (spread_frame df) "gold_vs_cash_real_spread" i
               = fsub (nth i gold NaN) (nth i cash NaN)
            /\ cell (spread_frame df) "sp500_vs_cash_real_spread" i
               = fsub (nth i sp NaN) (nth i cash NaN)).
  { intros i. rewrite (cell_of_column _ _ _ _ C1), (cell_of_column _ _ _ _ C2),
      (cell_of_column _ _ _ _ C3).
    rewrite !nth_map2_nan by (reflexivity || assumption). auto. }
  split; [exact Hcells|]. split; [|exact C4].
  intros i a b c Ha Hb Hc. destruct (Hcells i) as (-> & -> & _).
  rewrite Ha, Hb, Hc, !fsub_fin. split; [reflexivity|]. f_equal. lra.
Qed.

(** ** Standardization with too few values *)

Lemma zscore_nan_std v m : forall i, nth i (zscore v m NaN) NaN = NaN.
Proof.
  intros i. unfold zscore.
  destruct (Nat.lt_ge_cases i (length v)) as [Hi|Hi].
  - rewrite (nth_map_default _ _ _ NaN) by exact Hi.
    destruct (fsub (nth i v NaN) m); reflexivity.
  - apply List.nth_overflow. rewrite List.length_map. exact Hi.
Qed.

Lemma series_std_few v :
  (length (List.filter notna v) <= 1)%nat -> series_std v = NaN.
Proof.
  intros Hn. unfold series_std.
  destruct (Nat.leb_spec (length (List.filter notna v)) 1); [reflexivity | lia].
Qed.

(** X16.  An indicator with fewer than two present values cannot be
    standardized: its sample standard deviation is missing, and so is every
    cell of its z-score column.  No error is raised. *)
Theorem standardize_needs_two_values :
  forall (h : heap) (r : ref) (df : DataFrame) (c : string) (x : list float),
    h !! r = Some df ->
    forallb (has_column df) DEBASEMENT_INDICATOR_COLUMNS = true ->
    In c DEBASEMENT_INDICATOR_COLUMNS ->
    get_column df c = Some x ->
    (length (List.filter notna x) <= 1)%nat ->
    series_std x = NaN
    /\ exists df' z,
         standardize_debasement_indicators r h = (Ok r, <[r:=df']> h)
         /\ get_column df' (z_name c) = Some z
         /\ length z = length x
         /\ forall i, nth i z NaN = NaN.
Proof.
  intros h r df c x Hl Hall Hin Hx Hfew.
  pose proof (series_std_few x Hfew) as Hstd. split; [exact Hstd|].
  exists (standardized_frame df), (zscore x (series_mean x) (series_std x)).
  split; [apply standardize_debasement_indicators_run; assumption|].
  split.
  { unfold standardized_frame.
    rewrite (get_column_fold_z _ _ c Hin indicator_names_distinct z_names_are_new).
    unfold col. rewrite Hx. reflexivity. }
  split; [unfold zscore; apply List.length_map|].
  rewrite Hstd. apply zscore_nan_std.
Qed.

(** ** The composite score *)

Lemma nth_row_mean cols n i :
  (i < n)%nat ->
  nth i (row_mean cols n) NaN
  = series_mean (List.map (fun c => nth i c NaN) cols).
Proof.
  intros Hi. unfold row_mean.
  rewrite (nth_map_default _ _ _ 0%nat) by (rewrite List.length_seq; exact Hi).
  rewrite List.seq_nth by exact Hi. reflexivity.
Qed.

Lemma nth_cells df c n i :
  (i < n)%nat -> nth i (List.map (cell df c) (seq 0 n)) NaN = cell df c i.
Proof.
  intros Hi.
  rewrite (nth_map_default _ _ _ 0%nat) by (rewrite List.length_seq; exact Hi).
  rewrite List.seq_nth by exact Hi. reflexivity.
Qed.

(** X17.  The composite score of a row is the mean of the z-scores that are
    present in that row: of all four when all are there, of the only one
    when three are missing (the rows of the first year, where only the
    money-to-output z-score exists), and missing only when all four are.
    The score is assigned into the frame that was handed in. *)
Theorem composite_score_skips_missing :
  forall (h : heap) (r : ref) (df : DataFrame),
    h !! r = Some df ->
    forallb (has_column df) (List.map z_name DEBASEMENT_INDICATOR_COLUMNS) = true ->
    exists df',
      compute_zscore_composite_debasement_score r h = (Ok r, <[r:=df']> h)
      /\ df_index df' = df_index df
      /\ forall i, (i < nrows df)%nat ->
           let z := fun c => cell df (z_name c) i in
           let score := cell df' "zscore_composite_debasement_score" i in
           score = series_mean [z "m2_yoy_pct"; z "cpi_yoy_pct";
                                z "real_m2_growth"; z "m2_to_gdp"]
           /\ (forall a b c d,
                 z "m2_yoy_pct" = Fin a -> z "cpi_yoy_pct" = Fin b ->
                 z "real_m2_growth" = Fin c -> z "m2_to_gdp" = Fin d ->
                 score = Fin ((a + b + c + d) / 4))
           /\ (forall d,
                 z "m2_yoy_pct" = NaN -> z "cpi_yoy_pct" = NaN ->
                 z "real_m2_growth" = NaN -> z "m2_to_gdp" = Fin d ->
                 score = Fin d)
           /\ (z "m2_yoy_pct" = NaN -> z "cpi_yoy_pct" = NaN ->
               z "real_m2_growth" = NaN -> z "m2_to_gdp" = NaN ->
               score = NaN).
Proof.
  intros h r df Hl Hz. exists (composite_frame df).
  split; [apply compute_zscore_composite_debasement_score_run; assumption|].
  split; [unfold composite_frame; apply df_index_df_set|].
  intros i Hi z score.
  assert (E : score = series_mean [z "m2_yoy_pct"; z "cpi_yoy_pct";
                                   z "real_m2_growth"; z "m2_to_gdp"]).
  { subst score z. unfold composite_frame. rewrite cell_df_set.
    rewrite (nth_row_mean _ _ _ Hi). cbn [List.map DEBASEMENT_INDICATOR_COLUMNS].
    rewrite !(nth_cells _ _ _ _ Hi). reflexivity. }
  split; [exact E|]. rewrite E. clear E. split; [|split].
  - intros a b c d -> -> -> ->. rewrite series_mean_four. f_equal.
    unfold rsum. cbn [fold_right INR]. lra.
  - intros d -> -> -> ->. rewrite series_mean_last_of_four. f_equal.
    unfold rsum. cbn [fold_right INR]. lra.
  - intros -> -> -> ->. reflexivity.
Qed.

(** ** When a stage succeeds *)

Lemma forallb_false_witness {A} (f : A -> bool) l :
  forallb f l = false -> exists x, In x l /\ f x = false.
Proof.
  induction l as [|a l IH]; [discriminate|]. simpl.
  destruct (f a) eqn:E.
  - intros Hl. destruct (IH Hl) as (x & Hx & Hf). exists x. auto.
  - intros _. exists a. auto.
Qed.

Lemma stage_run_ok (st : stage) (h : heap) r df :
  h !! r = Some df ->
  forallb (has_column df) (required_columns st) = true ->
  exists r' h', run_stage st r h = (Ok r', h').
Proof.
  intros Hl Hall.
  destruct st; cbn [required_columns forallb] in Hall;
    unfold DEBASEMENT_INDICATOR_COLUMNS in Hall; cbn [forallb List.map] in Hall;
    rewrite ?andb_true_iff in Hall; cbn [run_stage].
  - destruct Hall as (H1 & H2 & H3 & _). eexists _, _.
    exact (compute_debasement_indicators_run h r df Hl H1 H2 H3).
  - destruct Hall as (H1 & H2 & H3 & _). eexists _, _.
    exact (compute_asset_returns_run h r df Hl H1 H2 H3).
  - destruct Hall as (H1 & H2 & _). eexists _, _.
    exact (compute_cash_real_return_run h r df Hl H1 H2).
  - destruct Hall as (H1 & H2 & H3 & H4 & _). eexists _, _.
    exact (compute_spread_features_run h r df Hl H1 H2 H3 H4).
  - destruct Hall as (H1 & H2 & H3 & H4 & _). eexists _, _.
    exact (standardize_debasement_indicators_run h r df Hl
             (forallb_4 _ _ _ _ _ H1 H2 H3 H4)).
  - destruct Hall as (H1 & H2 & H3 & H4 & _). eexists _, _.
    exact (compute_zscore_composite_debasement_score_run h r df Hl
             (forallb_4 _ _ _ _ _ H1 H2 H3 H4)).
Qed.

Lemma stage_run_err (st : stage) (h : heap) r df c :
  h !! r = Some df ->
  In c (required_columns st) -> has_column df c = false ->
  key_error_outcome st df (run_stage st r h).
Proof.
  intros Hl Hin Habs. destruct st; cbn [run_stage].
  - exact (debasement_missing h r df c Hl Hin Habs).
  - exact (returns_missing h r df c Hl Hin Habs).
  - exact (cash_missing h r df c Hl Hin Habs).
  - exact (spread_missing h r df c Hl Hin Habs).
  - exact (standardize_missing h r df c Hl Hin Habs).
  - exact (composite_missing h r df c Hl Hin Habs).
Qed.

(** X18.  A feature stage succeeds exactly when the frame it is handed has
    every column the stage reads; the values in the columns play no part, and
    a frame without rows is accepted like any other. *)
Theorem stage_succeeds_iff_columns_present :
  forall (st : stage) (h : heap) (r : ref) (df : DataFrame),
    h !! r = Some df ->
    (exists r' h', run_stage st r h = (Ok r', h'))
    <-> forallb (has_column df) (required_columns st) = true.
Proof.
  intros st h r df Hl. split.
  - intros (r' & h' & Hrun).
    destruct (forallb (has_column df) (required_columns st)) eqn:E;
      [reflexivity|].
    apply forallb_false_witness in E as (c & Hin & Habs).
    destruct (stage_run_err st h r df c Hl Hin Habs) as (ls & h2 & Herr & _).
    rewrite Hrun in Herr. discriminate.
  - apply stage_run_ok. exact Hl.
Qed.

(** ** Rectangular frames *)

Lemma rectangular_df_set df c v :
  rectangular df -> length v = nrows df -> rectangular (df_set df c v).
Proof.
  unfold rectangular. intros Hr Hv. rewrite nrows_df_set. unfold df_set.
  destruct (has_column df c); cbn [df_columns].
  - induction Hr as [|p l Hp Hl IH]; [constructor|].
    cbn [List.map]. constructor; [|exact IH].
    destruct (String.eqb (fst p) c); [exact Hv | exact Hp].
  - apply Forall_app. split; [exact Hr|]. constructor; [exact Hv | constructor].
Qed.

Lemma rectangular_df_drop df cs : rectangular df -> rectangular (df_drop df cs).
Proof.
  unfold rectangular, df_drop, nrows. cbn [df_columns df_index]. intros Hr.
  induction Hr as [|p l Hp Hl IH]; [constructor|]. cbn [List.filter].
  destruct (negb _); [constructor; assumption | exact IH].
Qed.

Lemma nrows_df_drop df cs : nrows (df_drop df cs) = nrows df.
Proof. reflexivity. Qed.

Lemma get_column_In df c v : get_column df c = Some v -> In (c, v) (df_columns df).
Proof.
  unfold get_column.
  destruct (List.find _ (df_columns df)) as [[n w]|] eqn:E; [|discriminate].
  intros [= <-]. apply List.find_some in E as [Hin Hn]. cbn in Hn.
  apply String.eqb_eq in Hn. subst. exact Hin.
Qed.

Lemma rectangular_column df c v :
  rectangular df -> get_column df c = Some v -> length v = nrows df.
Proof.
  intros Hr E. apply get_column_In in E. unfold rectangular in Hr.
  rewrite List.Forall_forall in Hr. exact (Hr _ E).
Qed.

Lemma rectangular_col df c :
  rectangular df -> has_column df c = true -> length (col df c) = nrows df.
Proof.
  intros Hr Hc. apply (rectangular_column df c); [exact Hr|].
  apply has_column_get. exact Hc.
Qed.

Lemma length_log_return p : length (log_return p (shift 1 p)) = length p.
Proof.
  unfold log_return. rewrite List.length_map, length_map2, length_shift. lia.
Qed.

Lemma length_row_mean cols n : length (row_mean cols n) = n.
Proof. unfold row_mean. rewrite List.length_map, List.length_seq. reflexivity. Qed.

Lemma length_zscore v m s : length (zscore v m s) = length v.
Proof. unfold zscore. apply List.length_map. Qed.

Lemma df_index_debasement_frame df : df_index (debasement_frame df) = df_index df.
Proof.
  unfold debasement_frame, debasement_filled, df_drop. cbn [df_index].
  rewrite !df_index_df_set. reflexivity.
Qed.

Lemma df_index_returns_frame df : df_index (returns_frame df) = df_index df.
Proof.
  unfold returns_frame, returns_filled, df_drop. cbn [df_index].
  rewrite !df_index_df_set. reflexivity.
Qed.

Lemma df_index_cash_frame df : df_index (cash_frame df) = df_index df.
Proof. unfold cash_frame. apply df_index_df_set. Qed.

Lemma df_index_spread_frame df : df_index (spread_frame df) = df_index df.
Proof. unfold spread_frame. cbv zeta. rewrite !df_index_df_set. reflexivity. Qed.

Lemma df_index_standardized cols : forall df,
  df_index (fold_left standardize_column cols df) = df_index df.
Proof.
  induction cols as [|c cols IH]; intros d; [reflexivity|]. cbn [fold_left].
  rewrite IH. unfold standardize_column. apply df_index_df_set.
Qed.

Lemma df_index_features_frame df : df_index (features_frame df) = df_index df.
Proof.
  unfold features_frame, composite_frame, standardized_frame.
  rewrite df_index_df_set, df_index_standardized, df_index_spread_frame,
    df_index_cash_frame, df_index_returns_frame, df_index_debasement_frame.
  reflexivity.
Qed.

Ltac rect_step :=
  apply rectangular_df_set;
  [| rewrite ?nrows_df_set, ?length_times100, ?length_pct_change,
       ?length_log_return, ?length_map2, ?length_zscore, ?length_row_mean,
       ?col_df_set; cbn [String.eqb Ascii.eqb Bool.eqb];
     rewrite ?length_times100, ?length_pct_change, ?rectangular_col
       by assumption; try lia; try reflexivity].

Lemma rectangular_debasement_frame df :
  rectangular df ->
  has_column df "m2" = true -> has_column df "cpi" = true ->
  has_column df "gdp_monthly" = true ->
  rectangular (debasement_frame df) /\ nrows (debasement_frame df) = nrows df.
Proof.
  intros Hr H1 H2 H3. unfold debasement_frame, debasement_filled. cbv zeta.
  split.
  - apply rectangular_df_drop. do 4 rect_step. exact Hr.
  - rewrite nrows_df_drop, !nrows_df_set. reflexivity.
Qed.

Lemma rectangular_returns_frame df :
  rectangular df ->
  has_column df "btc_price" = true -> has_column df "sp500_price" = true ->
  has_column df "gold_price" = true ->
  rectangular (returns_frame df) /\ nrows (returns_frame df) = nrows df.
Proof.
  intros Hr H1 H2 H3. unfold returns_frame, returns_filled. cbv zeta.
  split.
  - apply rectangular_df_drop. do 3 rect_step. exact Hr.
  - rewrite nrows_df_drop, !nrows_df_set. reflexivity.
Qed.

Lemma rectangular_cash_frame df :
  rectangular df ->
  has_column df "fed_funds_rate" = true -> has_column df "cpi_yoy_pct" = true ->
  rectangular (cash_frame df) /\ nrows (cash_frame df) = nrows df.
Proof.
  intros Hr H1 H2. unfold cash_frame. split.
  - rect_step. exact Hr.
  - apply nrows_df_set.
Qed.

Lemma rectangular_spread_frame df :
  rectangular df ->
  has_column df "btc_return_monthly" = true ->
  has_column df "cash_real_return_monthly" = true ->
  has_column df "gold_return_monthly" = true ->
  has_column df "sp500_return_monthly" = true ->
  rectangular (spread_frame df) /\ nrows (spread_frame df) = nrows df.
Proof.
  intros Hr H1 H2 H3 H4. unfold spread_frame. cbv zeta. split.
  - do 3 rect_step. exact Hr.
  - rewrite !nrows_df_set. reflexivity.
Qed.

Lemma rectangular_standardized cols : forall df,
  rectangular df -> forallb (has_column df) cols = true ->
  rectangular (fold_left standardize_column cols df)
  /\ nrows (fold_left standardize_column cols df) = nrows df.
Proof.
  induction cols as [|c cols IH]; intros df Hr Hc; [split; [exact Hr | reflexivity]|].
  cbn [forallb] in Hc. apply andb_prop in Hc as [Hc Hcs]. cbn [fold_left].
  destruct (IH (standardize_column df c)) as [IHr IHn].
  - unfold standardize_column. apply rectangular_df_set; [exact Hr|].
    rewrite length_zscore. apply rectangular_col; assumption.
  - apply forallb_forall. intros x Hx. unfold standardize_column.
    rewrite has_column_df_set, (proj1 (forallb_forall _ _) Hcs x Hx).
    apply orb_true_r.
  - split; [exact IHr|]. rewrite IHn. unfold standardize_column.
    apply nrows_df_set.
Qed.

Lemma rectangular_composite_frame df :
  rectangular df ->
  rectangular (composite_frame df) /\ nrows (composite_frame df) = nrows df.
Proof.
  intros Hr. unfold composite_frame. split.
  - apply rectangular_df_set; [exact Hr | apply length_row_mean].
  - apply nrows_df_set.
Qed.

(** The feature frame of a rectangular aligned frame is rectangular and has
    the same rows. *)
Lemma rectangular_features_frame df :
  rectangular df -> forallb (has_column df) ALIGNED_COLUMNS = true ->
  rectangular (features_frame df)
  /\ df_index (features_frame df) = df_index df.
Proof.
  intros Hr Hall.
  destruct (aligned_columns_present _ Hall)
    as (Hm2 & Hcpi & Hgdp & Hff & Htips & Hbtc & Hsp & Hgold).
  destruct (returns_frame_columns df Hff) as (E1 & E2 & E3 & E4 & E5 & E6).
  destruct (rectangular_debasement_frame df Hr Hm2 Hcpi Hgdp) as [R1 N1].
  destruct (rectangular_returns_frame (debasement_frame df) R1) as [R2 N2];
    [rewrite has_column_debasement_frame, ?Hbtc, ?Hsp, ?Hgold; reflexivity ..|].
  destruct (rectangular_cash_frame _ R2 E1 E2) as [R3 N3].
  destruct (rectangular_spread_frame _ R3) as [R4 N4];
    [rewrite has_column_cash_frame, ?E3, ?E4, ?E5; reflexivity ..|].
  destruct (rectangular_standardized DEBASEMENT_INDICATOR_COLUMNS _ R4) as [R5 N5].
  { apply forallb_forall. intros x Hx. apply spread_frame_columns.
    exact (proj1 (forallb_forall _ _) E6 x Hx). }
  destruct (rectangular_composite_frame _ R5) as [R6 N6].
  split; [exact R6 | apply df_index_features_frame].
Qed.

(** ** Columns that pass through the stages *)

Lemma get_column_returns_other df c :
  mem c ["btc_return_monthly"; "sp500_return_monthly"; "gold_return_monthly";
         "btc_price"; "sp500_price"; "gold_price"] = false ->
  get_column (returns_frame df) c = get_column df c.
Proof.
  unfold mem. cbn [existsb]. rewrite !orb_false_iff.
  intros (H1 & H2 & H3 & H4 & H5 & H6 & _).
  unfold returns_frame, returns_filled. cbv zeta.
  rewrite get_column_df_drop, !get_column_df_set. cbn [existsb].
  rewrite H1, H2, H3, H4, H5, H6. reflexivity.
Qed.

Lemma get_column_cash_other df c :
  String.eqb c "cash_real_return_monthly" = false ->
  get_column (cash_frame df) c = get_column df c.
Proof.
  intros Hc. unfold cash_frame. rewrite get_column_df_set, Hc. reflexivity.
Qed.

Lemma get_column_spread_other df c :
  mem c ["btc_vs_cash_real_spread"; "gold_vs_cash_real_spread";
         "sp500_vs_cash_real_spread"] = false ->
  get_column (spread_frame df) c = get_column df c.
Proof.
  unfold mem. cbn [existsb]. rewrite !orb_false_iff. intros (H1 & H2 & H3 & _).
  unfold spread_frame. cbv zeta. rewrite !get_column_df_set, H1, H2, H3.
  reflexivity.
Qed.

Lemma get_column_standardized_other df c :
  mem c (List.map z_name DEBASEMENT_INDICATOR_COLUMNS) = false ->
  get_column (standardized_frame df) c = get_column df c.
Proof.
  intros Hc. unfold standardized_frame. apply get_column_fold_other.
  intros c' Hc' E. subst c. unfold mem in Hc.
  assert (Ht : existsb (String.eqb (z_name c'))
                 (List.map z_name DEBASEMENT_INDICATOR_COLUMNS) = true).
  { apply existsb_exists. exists (z_name c'). split.
    - apply List.in_map. exact Hc'.
    - apply String.eqb_refl. }
  congruence.
Qed.

Lemma get_column_composite_other df c :
  String.eqb c "zscore_composite_debasement_score" = false ->
  get_column (composite_frame df) c = get_column df c.
Proof.
  intros Hc. unfold composite_frame. rewrite get_column_df_set, Hc. reflexivity.
Qed.

Lemma mem_app c l l' : mem c (l ++ l')%list = mem c l || mem c l'.
Proof. unfold mem. apply existsb_app. Qed.

Lemma features_frame_other df c :
  mem c TOUCHED_COLUMNS = false ->
  get_column (features_frame df) c = get_column df c.
Proof.
  unfold TOUCHED_COLUMNS, DERIVED_COLUMNS, mem. cbn [existsb app].
  rewrite !orb_false_iff.
  intros (D1 & D2 & D3 & D4 & R1 & R2 & R3 & C1 & S1 & S2 & S3 & Z1 & Z2 & Z3
          & Z4 & K & L1 & L2 & L3 & P1 & P2 & P3 & _).
  unfold features_frame.
  rewrite get_column_composite_other by exact K.
  rewrite get_column_standardized_other
    by (unfold mem; cbn; rewrite Z1, Z2, Z3, Z4; reflexivity).
  rewrite get_column_spread_other
    by (unfold mem; cbn [existsb]; rewrite S1, S2, S3; reflexivity).
  rewrite get_column_cash_other by exact C1.
  rewrite get_column_returns_other
    by (unfold mem; cbn [existsb]; rewrite R1, R2, R3, P1, P2, P3; reflexivity).
  apply debasement_frame_other.
  unfold mem; cbn [existsb]; rewrite D1, D2, D3, D4, L1, L2, L3; reflexivity.
Qed.

(** The year-over-year growth of the money supply, in the feature frame. *)
Lemma features_frame_m2_yoy df m2 :
  get_column df "m2" = Some m2 -> has_column df "cpi" = true ->
  has_column df "gdp_monthly" = true ->
  get_column (features_frame df) "m2_yoy_pct"
  = Some (times100 (pct_change 12 m2))
  /\ get_column (features_frame df) "z_m2_yoy_pct"
     = Some (zscore (times100 (pct_change 12 m2))
                    (series_mean (times100 (pct_change 12 m2)))
                    (series_std (times100 (pct_change 12 m2)))).
Proof.
  intros E1 H2 H3.
  destruct (debasement_frame_columns df _ _ _ E1 (has_column_get _ _ H2)
              (has_column_get _ _ H3)) as (C1 & _).
  assert (Hs : get_column
                 (spread_frame (cash_frame (returns_frame (debasement_frame df))))
                 "m2_yoy_pct"
               = Some (times100 (pct_change 12 m2))).
  { rewrite get_column_spread_other by reflexivity.
    rewrite get_column_cash_other by reflexivity.
    rewrite get_column_returns_other by reflexivity. exact C1. }
  unfold features_frame. split.
  - rewrite get_column_composite_other by reflexivity.
    rewrite get_column_standardized_other by reflexivity. exact Hs.
  - rewrite get_column_composite_other by reflexivity.
    unfold standardized_frame.
    rewrite (get_column_fold_z _ _ "m2_yoy_pct")
      by (try (left; reflexivity); try apply indicator_names_distinct;
          apply z_names_are_new).
    unfold col. rewrite Hs. reflexivity.
Qed.

(** ** Rows kept by [dropna] *)

Lemma In_select {A} (mask : list bool) : forall (l : list A) x,
  In x (select mask l) ->
  exists i, nth_error mask i = Some true /\ nth_error l i = Some x.
Proof.
  induction mask as [|b mask IH]; intros l x Hin; [destruct Hin|].
  destruct l as [|a l]; [destruct Hin|].
  cbn [select] in Hin. destruct b.
  - destruct Hin as [<-|Hin]; [exists 0%nat; split; reflexivity|].
    destruct (IH l x Hin) as (i & Hm & Hl). exists (S i). split; assumption.
  - destruct (IH l x Hin) as (i & Hm & Hl). exists (S i). split; assumption.
Qed.

Lemma In_select_In {A} (mask : list bool) (l : list A) x :
  In x (select mask l) -> In x l.
Proof.
  intros Hin. apply In_select in Hin as (i & _ & Hl).
  eapply List.nth_error_In. exact Hl.
Qed.

Lemma length_select_le {A} (mask : list bool) : forall l : list A,
  (length (select mask l) <= length l)%nat.
Proof.
  induction mask as [|b mask IH]; intros [|a l]; cbn [select length]; try lia.
  specialize (IH l). destruct b; cbn [length]; lia.
Qed.

Lemma select_skip {A} (mask : list bool) n : forall l : list A,
  (forall i, (i < n)%nat -> nth i mask false = false) ->
  select mask l = select (skipn n mask) (skipn n l).
Proof.
  revert mask. induction n as [|n IH]; intros mask l Hm; [reflexivity|].
  destruct mask as [|b mask]; [reflexivity|].
  destruct l as [|a l].
  - cbn [skipn select]. destruct (skipn n mask); reflexivity.
  - pose proof (Hm 0%nat ltac:(lia)) as H0. cbn in H0. subst b.
    cbn [select skipn]. apply IH. intros i Hi. apply (Hm (S i)). lia.
Qed.

Lemma select_all_false {A} (mask : list bool) : forall l : list A,
  (forall i, nth i mask false = false) -> select mask l = [].
Proof.
  induction mask as [|b mask IH]; intros l Hm; [reflexivity|].
  destruct l as [|a l]; [reflexivity|].
  pose proof (Hm 0%nat) as H0. cbn in H0. subst b. cbn [select].
  apply IH. intros i. apply (Hm (S i)).
Qed.

Lemma select_combine {A B} (mask : list bool) : forall (l : list A) (l' : list B),
  combine (select mask l) (select mask l') = select mask (combine l l').
Proof.
  induction mask as [|b mask IH]; intros [|a l] [|a' l']; cbn [select combine];
    try reflexivity.
  - destruct b; cbn [combine]; [reflexivity|].
    destruct (select mask l); reflexivity.
  - destruct b; cbn [combine]; rewrite IH; reflexivity.
Qed.

Lemma df_dropna_mask df : df_dropna df = filter_rows (complete_rows df) df.
Proof. reflexivity. Qed.

Lemma nth_complete_rows df i :
  nth i (complete_rows df) false = true ->
  (i < nrows df)%nat /\ row_has_nan df i = false.
Proof.
  unfold complete_rows. intros Hi.
  destruct (Nat.lt_ge_cases i (nrows df)) as [Hlt|Hge].
  - rewrite (nth_map_default _ _ _ 0%nat) in Hi by (rewrite List.length_seq; exact Hlt).
    rewrite List.seq_nth in Hi by exact Hlt. apply negb_true_iff in Hi. auto.
  - rewrite List.nth_overflow in Hi
      by (rewrite List.length_map, List.length_seq; exact Hge).
    discriminate.
Qed.

Lemma complete_rows_missing_cell df c v i :
  get_column df c = Some v -> isnan (nth i v NaN) = true ->
  nth i (complete_rows df) false = false.
Proof.
  intros E Hn. destruct (nth i (complete_rows df) false) eqn:Hi; [|reflexivity].
  apply nth_complete_rows in Hi as [_ Hrow]. unfold row_has_nan in Hrow.
  assert (Ht : existsb (fun p => isnan (nth i (snd p) NaN)) (df_columns df) = true).
  { apply existsb_exists. exists (c, v). split; [|exact Hn].
    apply get_column_In. exact E. }
  congruence.
Qed.

Lemma nth_error_nth_bool (l : list bool) i b :
  nth_error l i = Some b -> nth i l false = b.
Proof. intros E. apply (List.nth_error_nth l i false E). Qed.

(** No cell of a frame is missing after [dropna]. *)
Lemma df_dropna_no_missing df c v x :
  rectangular df ->
  In (c, v) (df_columns (df_dropna df)) -> In x v -> isnan x = false.
Proof.
  intros Hr Hin Hx. rewrite df_dropna_mask in Hin. unfold filter_rows in Hin.
  cbn [df_columns] in Hin. apply List.in_map_iff in Hin as ([n w] & [= <- <-] & Hw).
  cbn [snd] in Hx. apply In_select in Hx as (i & Hm & Hl).
  apply nth_error_nth_bool in Hm. apply nth_complete_rows in Hm as [_ Hrow].
  unfold row_has_nan in Hrow.
  destruct (isnan x) eqn:E; [|reflexivity].
  assert (Ht : existsb (fun p => isnan (nth i (snd p) NaN)) (df_columns df) = true).
  { apply existsb_exists. exists (n, w). split; [exact Hw|]. cbn [snd].
    rewrite (List.nth_error_nth w i NaN Hl). exact E. }
  congruence.
Qed.

Lemma length_select_mask {A B} (mask : list bool) : forall (l : list A) (l' : list B),
  length l = length l' -> length (select mask l) = length (select mask l').
Proof.
  induction mask as [|b mask IH]; intros [|a l] [|a' l'] Hl; cbn [select];
    try reflexivity; try discriminate Hl.
  injection Hl as Hl. destruct b; cbn [length]; rewrite (IH l l' Hl); reflexivity.
Qed.

Lemma rectangular_filter_rows mask df :
  rectangular df -> rectangular (filter_rows mask df).
Proof.
  unfold rectangular, filter_rows, nrows. cbn [df_columns df_index]. intros Hr.
  apply List.Forall_forall. intros p Hp.
  apply List.in_map_iff in Hp as (q & <- & Hq). cbn [snd].
  rewrite List.Forall_forall in Hr. apply length_select_mask. exact (Hr q Hq).
Qed.

(** ** The frame [build_analysis_dataframe] returns *)



(** The rows of the first year have no year-over-year growth. *)
Lemma complete_rows_lookback df :
  forallb (has_column df) ALIGNED_COLUMNS = true ->
  forall i, (i < 12)%nat -> nth i (complete_rows (features_frame df)) false = false.
Proof.
  intros Hall i Hi.
  destruct (aligned_columns_present _ Hall) as (Hm2 & Hcpi & Hgdp & _).
  destruct (features_frame_m2_yoy df _ (has_column_get _ _ Hm2) Hcpi Hgdp)
    as [E _].
  apply (complete_rows_missing_cell _ _ _ _ E).
  rewrite nth_yoy_lookback by exact Hi. reflexivity.
Qed.

Lemma filter_notna_lookback n v :
  (forall i, (i < n)%nat -> nth i v NaN = NaN) ->
  List.filter notna v = List.filter notna (skipn n v).
Proof.
  revert v. induction n as [|n IH]; intros v Hv; [reflexivity|].
  destruct v as [|x v]; [reflexivity|].
  pose proof (Hv 0%nat ltac:(lia)) as H0. cbn in H0. subst x.
  cbn [List.filter notna isnan negb skipn]. apply IH.
  intros i Hi. apply (Hv (S i)). lia.
Qed.

(** With thirteen rows or fewer, one growth rate at most can be computed,
    which is not enough for a standard deviation. *)
Lemma complete_rows_short df :
  rectangular df ->
  forallb (has_column df) ALIGNED_COLUMNS = true ->
  (nrows df <= 13)%nat ->
  forall i, nth i (complete_rows (features_frame df)) false = false.
Proof.
  intros Hr Hall Hn i.
  destruct (aligned_columns_present _ Hall) as (Hm2 & Hcpi & Hgdp & _).
  destruct (features_frame_m2_yoy df _ (has_column_get _ _ Hm2) Hcpi Hgdp)
    as [_ E].
  apply (complete_rows_missing_cell _ _ _ _ E).
  rewrite series_std_few; [rewrite zscore_nan_std; reflexivity|].
  rewrite (filter_notna_lookback 12)
    by (intros j Hj; apply nth_yoy_lookback; exact Hj).
  etransitivity; [apply List.filter_length_le|].
  rewrite List.length_skipn, length_times100, length_pct_change.
  rewrite (rectangular_col df "m2" Hr Hm2). lia.
Qed.

Lemma df_index_analysis_frame df :
  df_index (analysis_frame df)
  = select (complete_rows (features_frame df)) (df_index df).
Proof.
  unfold analysis_frame. rewrite df_dropna_mask. unfold filter_rows.
  cbn [df_index]. rewrite df_index_features_frame. reflexivity.
Qed.

Lemma get_column_analysis_frame df c :
  get_column (analysis_frame df) c
  = option_map (select (complete_rows (features_frame df)))
               (get_column (features_frame df) c).
Proof.
  unfold analysis_frame. rewrite df_dropna_mask. apply get_column_filter_rows.
Qed.

Lemma analysis_frame_no_missing df c v x :
  rectangular (features_frame df) ->
  In (c, v) (df_columns (analysis_frame df)) -> In x v -> isnan x = false.
Proof.
  intros Hr. unfold analysis_frame.
  exact (df_dropna_no_missing (features_frame df) c v x Hr).
Qed.

Lemma rectangular_analysis_frame df :
  rectangular (features_frame df) -> rectangular (analysis_frame df).
Proof.
  intros Hr. unfold analysis_frame. rewrite df_dropna_mask.
  exact (rectangular_filter_rows _ _ Hr).
Qed.

(** X19.  The frame [build_analysis_dataframe] returns for a rectangular
    aligned frame has no missing cell and is rectangular; its rows are rows
    of the aligned frame, in the same order. *)
Theorem analysis_frame_has_no_missing_cell :
  forall (h : heap) (r : ref) (df : DataFrame),
    h !! r = Some df ->
    rectangular df ->
    forallb (has_column df) ALIGNED_COLUMNS = true ->
    exists r' h' out,
      build_analysis_dataframe r h = (Ok r', h')
      /\ h' !! r' = Some out
      /\ (forall c v x, In (c, v) (df_columns out) -> In x v -> isnan x = false)
      /\ rectangular out
      /\ (exists mask, df_index out = select mask (df_index df))
      /\ (forall d, In d (df_index out) -> In d (df_index df)).
Proof.
  intros h r df Hl Hr Hall.
  destruct (build_analysis_dataframe_run h r df Hl Hall) as (r' & h' & Hrun & Hout).
  destruct (rectangular_features_frame df Hr Hall) as [Hrf _].
  exists r', h', (analysis_frame df).
  split; [exact Hrun|]. split; [exact Hout|].
  split; [|split; [|split]].
  - intros c v x. exact (analysis_frame_no_missing df c v x Hrf).
  - exact (rectangular_analysis_frame df Hrf).
  - exists (complete_rows (features_frame df)). apply df_index_analysis_frame.
  - intros d. rewrite df_index_analysis_frame. apply In_select_In.
Qed.

(** X20.  The first twelve aligned months never reach the output: every row
    returned is one of the rows after the twelfth, so the output has at
    least twelve rows fewer than the aligned frame; and an aligned frame of
    thirteen months or fewer gives an output without rows, since one growth
    rate has no standard deviation. *)
Theorem analysis_frame_drops_first_year :
  forall (h : heap) (r : ref) (df : DataFrame),
    h !! r = Some df ->
    rectangular df ->
    forallb (has_column df) ALIGNED_COLUMNS = true ->
    exists r' h' out,
      build_analysis_dataframe r h = (Ok r', h')
      /\ h' !! r' = Some out
      /\ (forall d, In d (df_index out) -> In d (skipn 12 (df_index df)))
      /\ (nrows out <= nrows df - 12)%nat
      /\ ((nrows df <= 13)%nat -> nrows out = 0%nat).
Proof.
  intros h r df Hl Hr Hall.
  destruct (build_analysis_dataframe_run h r df Hl Hall) as (r' & h' & Hrun & Hout).
  exists r', h', (analysis_frame df).
  split; [exact Hrun|]. split; [exact Hout|].
  pose proof (df_index_analysis_frame df) as Eidx.
  assert (Eskip : df_index (analysis_frame df)
                  = select (skipn 12 (complete_rows (features_frame df)))
                           (skipn 12 (df_index df))).
  { rewrite Eidx. apply select_skip. apply complete_rows_lookback. exact Hall. }
  split; [|split].
  - intros d. rewrite Eskip. apply In_select_In.
  - unfold nrows. rewrite Eskip.
    etransitivity; [apply length_select_le|]. rewrite List.length_skipn. lia.
  - intros Hn. unfold nrows. rewrite Eidx, select_all_false; [reflexivity|].
    apply complete_rows_short; assumption.
Qed.

(** X21.  A column the feature stages neither assign nor drop passes through
    [build_analysis_dataframe]: the policy rate, the real yield, and any
    other column the caller's frame carries.  Each (date, value) pair of the
    column in the output is a pair of the aligned frame. *)
Theorem untouched_columns_pass_through :
  forall (h : heap) (r : ref) (df : DataFrame) (c : string) (v : list float),
    h !! r = Some df ->
    forallb (has_column df) ALIGNED_COLUMNS = true ->
    mem c TOUCHED_COLUMNS = false ->
    get_column df c = Some v ->
    exists r' h' out mask,
      build_analysis_dataframe r h = (Ok r', h')
      /\ h' !! r' = Some out
      /\ df_index out = select mask (df_index df)
      /\ get_column out c = Some (select mask v)
      /\ forall d x, In (d, x) (combine (df_index out) (col out c)) ->
                     In (d, x) (combine (df_index df) v).
Proof.
  intros h r df c v Hl Hall Hc Hv.
  destruct (build_analysis_dataframe_run h r df Hl Hall) as (r' & h' & Hrun & Hout).
  exists r', h', (analysis_frame df), (complete_rows (features_frame df)).
  split; [exact Hrun|]. split; [exact Hout|].
  pose proof (df_index_analysis_frame df) as Eidx.
  assert (Ecol : get_column (analysis_frame df) c
                 = Some (select (complete_rows (features_frame df)) v)).
  { rewrite get_column_analysis_frame, (features_frame_other df c Hc), Hv.
    reflexivity. }
  split; [exact Eidx|]. split; [exact Ecol|].
  intros d x. unfold col. rewrite Ecol, Eidx, select_combine.
  apply In_select_In.
Qed.

(** ** The dates of the saved frame *)


Section SavedDates.
Context `{SplineSolver}.


End SavedDates.

(** ** The cells of the aligned frame *)

Lemma series_at_resample_In s d :
  In d (s_index (resample_ME_last s)) ->
  series_at (resample_ME_last s) d = last_valid (month_group s (month_index d)).
Proof.
  destruct (s_items s) as [|[d0 v0] rest] eqn:E.
  { unfold resample_ME_last. rewrite E. intros []. }
  unfold s_index at 1. rewrite (resample_items _ _ _ _ E), List.map_map.
  cbn [fst]. intros Hin. apply List.in_map_iff in Hin as (k & <- & Hk).
  apply In_zrange in Hk. rewrite month_index_month_end_of.
  apply (series_at_resample _ _ _ _ _ E); lia.
Qed.

Lemma nth_In_index (idx : list date) i d0 :
  (i < length idx)%nat -> In (nth i idx d0) idx.
Proof. apply List.nth_In. Qed.

Section AlignedCells.
Context `{SplineSolver}.

(** X23.  Each cell of the aligned frame in a column that comes from a
    resampled series is the month-end close of its month: the last
    observation of that series in the calendar month of the row that is not
    missing. *)
Theorem aligned_cells_are_month_end_closes :
  forall (m2 cpi gdp fed_funds tips_real_yield btc sp500 gold : Series)
         (df : DataFrame),
    List.Forall (fun s => ascending (s_index s) = true)
                [m2; cpi; fed_funds; tips_real_yield; btc; sp500; gold] ->
    align_all_series_to_monthly m2 cpi gdp fed_funds tips_real_yield
                                btc sp500 gold = Ok df ->
    forall i, (i < nrows df)%nat ->
      let k := month_index (nth i (df_index df) BTC_SERIES_START) in
      cell df "m2" i = last_valid (month_group m2 k)
      /\ cell df "cpi" i = last_valid (month_group cpi k)
      /\ cell df "fed_funds_rate" i = last_valid (month_group fed_funds k)
      /\ cell df "tips_real_yield_10y" i
         = last_valid (month_group tips_real_yield k)
      /\ cell df "btc_price" i = last_valid (month_group btc k)
      /\ cell df "sp500_price" i = last_valid (month_group sp500 k)
      /\ cell df "gold_price" i = last_valid (month_group gold k).
Proof.
  intros m2 cpi gdp ff tips btc sp gold df _ Ha i.
  apply align_inv in Ha as (g & Hg & ->).
  pose proof (interpolate_name _ _ Hg) as Hname.
  set (ss := monthly_series g m2 cpi ff tips btc sp gold).
  assert (Hne : ss <> []) by (unfold ss, monthly_series; discriminate).
  rewrite (aligned_frame_closed_form ss Hne).
  change (nrows (frame_of ss (aligned_index ss)))
    with (length (aligned_index ss)).
  change (df_index (frame_of ss (aligned_index ss))) with (aligned_index ss).
  intros Hi k.
  set (d := nth i (aligned_index ss) BTC_SERIES_START) in *.
  assert (Hd : In d (aligned_index ss)) by (apply List.nth_In; exact Hi).
  apply In_aligned_index in Hd as (_ & Hcommon & _ & _).
  assert (Hcell : forall s name,
            In (rename (resample_ME_last s) name) ss ->
            get_column (frame_of ss (aligned_index ss)) name
            = Some (List.map (series_at (rename (resample_ME_last s) name))
                             (aligned_index ss)) ->
            cell (frame_of ss (aligned_index ss)) name i
            = last_valid (month_group s k)).
  { intros s name Hin Hcol. rewrite (cell_of_column _ _ _ _ Hcol).
    rewrite (nth_map_default _ _ _ BTC_SERIES_START) by exact Hi.
    fold d. rewrite series_at_rename. apply series_at_resample_In.
    specialize (Hcommon _ Hin). rewrite s_index_rename in Hcommon.
    exact Hcommon. }
  unfold resample_daily_to_monthly_end in *.
  repeat split; apply Hcell;
    try (unfold ss, monthly_series, resample_daily_to_monthly_end; simpl; tauto);
    unfold frame_of, get_column, ss, monthly_series,
      resample_daily_to_monthly_end;
    cbn [df_columns List.map List.find s_name rename index_to_month_end fst];
    rewrite ?Hname; reflexivity.
Qed.

End AlignedCells.

(** ** The output column of the aligned frame *)

Section AlignedOutput.
Context `{SplineSolver}.

(** The shape of an interpolated series: the spline read at a run of
    first-of-month dates. *)
Lemma interpolate_inv gdp g :
  interpolate_gdp_to_monthly gdp = Ok g ->
  exists sp lo hi,
    CubicSpline (List.map timestamp (s_index (series_dropna gdp)))
                (s_values (series_dropna gdp)) = Ok sp
    /\ s_items g
       = List.map (fun k => (first_of_month k,
                             spline_call sp (timestamp (first_of_month k))))
                  (zrange lo hi).
Proof.
  intros Hg.
  destruct (CubicSpline (List.map timestamp (s_index (series_dropna gdp)))
                        (s_values (series_dropna gdp))) as [sp|e] eqn:Hsp.
  - destruct (s_index (series_dropna gdp)) as [|d0 ds] eqn:Hidx.
    { unfold CubicSpline in Hsp. cbn in Hsp. discriminate. }
    rewrite (interpolate_eq gdp sp d0 ds) in Hg
      by (rewrite ?Hidx; first [assumption | reflexivity]).
    injection Hg as <-. unfold date_range_MS. cbn [s_items].
    eexists sp, _, _. split; [reflexivity|]. rewrite List.map_map. reflexivity.
  - unfold interpolate_gdp_to_monthly in Hg. rewrite Hsp in Hg. discriminate.
Qed.

(** X26.  The output column of the aligned frame holds the spline read at
    the first day of the month of each row: the interpolated values are
    computed at month starts and carried, unchanged, under the month-end
    label of the same month. *)
Theorem aligned_output_is_spline_at_month_start :
  forall (m2 cpi gdp fed_funds tips_real_yield btc sp500 gold : Series)
         (df : DataFrame),
    align_all_series_to_monthly m2 cpi gdp fed_funds tips_real_yield
                                btc sp500 gold = Ok df ->
    exists sp,
      CubicSpline (List.map timestamp (s_index (series_dropna gdp)))
                  (s_values (series_dropna gdp)) = Ok sp
      /\ forall i, (i < nrows df)%nat ->
           cell df "gdp_monthly" i
           = spline_call sp
               (timestamp
                  (first_of_month
                     (month_index (nth i (df_index df) BTC_SERIES_START)))).
Proof.
  intros m2 cpi gdp ff tips btc sp500 gold df Ha.
  apply align_inv in Ha as (g & Hg & ->).
  pose proof (interpolate_name _ _ Hg) as Hname.
  destruct (interpolate_inv gdp g Hg) as (sp & lo & hi & Hsp & Hitems).
  exists sp. split; [exact Hsp|].
  set (ss := monthly_series g m2 cpi ff tips btc sp500 gold).
  assert (Hne : ss <> []) by (unfold ss, monthly_series; discriminate).
  rewrite (aligned_frame_closed_form ss Hne).
  change (nrows (frame_of ss (aligned_index ss)))
    with (length (aligned_index ss)).
  change (df_index (frame_of ss (aligned_index ss))) with (aligned_index ss).
  intros i Hi.
  set (d := nth i (aligned_index ss) BTC_SERIES_START).
  assert (Hd : In d (aligned_index ss)) by (apply List.nth_In; exact Hi).
  apply In_aligned_index in Hd as (_ & Hcommon & _ & _).
  assert (Hcol : get_column (frame_of ss (aligned_index ss)) "gdp_monthly"
                 = Some (List.map (series_at (index_to_month_end g))
                                  (aligned_index ss))).
  { unfold frame_of, get_column, ss, monthly_series.
    cbn [df_columns List.map List.find s_name rename index_to_month_end fst].
    rewrite Hname. reflexivity. }
  rewrite (cell_of_column _ _ _ _ Hcol).
  rewrite (nth_map_default _ _ _ BTC_SERIES_START) by exact Hi. fold d.
  assert (Hin : In d (s_index (index_to_month_end g))).
  { apply Hcommon. unfold ss, monthly_series. simpl. tauto. }
  assert (Eitems : s_items (index_to_month_end g)
                   = List.map (fun k => (month_end_of k,
                                spline_call sp (timestamp (first_of_month k))))
                              (zrange lo hi)).
  { unfold index_to_month_end. cbn [s_items]. rewrite Hitems, List.map_map.
    apply List.map_ext. intros k. cbn [fst snd].
    rewrite MonthEnd0_first_of_month. reflexivity. }
  unfold s_index in Hin. rewrite Eitems, List.map_map in Hin. cbn [fst] in Hin.
  apply List.in_map_iff in Hin as (k & Hk & Hrange).
  unfold series_at. rewrite Eitems, <- Hk.
  rewrite (find_map_key month_end_of
             (fun k => spline_call sp (timestamp (first_of_month k))))
    by (exact month_end_of_inj || exact Hrange).
  rewrite month_index_month_end_of. reflexivity.
Qed.

End AlignedOutput.

Lemma aligned_output_witness :
  exists sp,
    @CubicSpline chord_slopes
      (List.map timestamp (s_index (series_dropna sample_gdp)))
      (s_values (series_dropna sample_gdp)) = Ok sp
    /\ cell sample_aligned "gdp_monthly" 1
       = spline_call sp (timestamp (mkDate 2015 3 1)).
Proof.
  destruct (@aligned_output_is_spline_at_month_start chord_slopes
              sample_m2 sample_cpi sample_gdp sample_fed_funds sample_tips
              sample_btc sample_sp500 sample_gold sample_aligned eq_refl)
    as (sp & Hsp & Hcells).
  exists sp. split; [exact Hsp|].
  rewrite (Hcells 1%nat)
    by (unfold nrows; rewrite sample_aligned_index; simpl; lia).
  rewrite sample_aligned_index. reflexivity.
Defined.

(** ** Z-scores and the unit of an indicator *)

Local Open Scope R_scope.

Lemma filter_notna_rescaled a b x rs :
  List.filter notna x = List.map Fin rs ->
  List.filter notna (List.map (rescale a b) x)
  = List.map Fin (List.map (fun r => a * r + b) rs).
Proof.
  revert rs. induction x as [|v x IH]; intros rs E.
  - destruct rs; [reflexivity | discriminate].
  - destruct v as [| | |r]; simpl in *.
    + apply IH. exact E.
    + destruct rs; discriminate.
    + destruct rs; discriminate.
    + destruct rs as [|r' rs]; [discriminate|]. injection E as <- E.
      simpl. rewrite (IH rs E). reflexivity.
Qed.

Lemma finite_or_missing_rescaled a b x :
  finite_or_missing x -> finite_or_missing (List.map (rescale a b) x).
Proof.
  intros Hf. destruct (finite_or_missing_reals x Hf) as (rs & E).
  unfold finite_or_missing. rewrite (filter_notna_rescaled a b x rs E).
  clear. induction rs as [|r rs IH]; [reflexivity|]. exact IH.
Qed.

Lemma rsum_rescaled a b rs :
  rsum (List.map (fun r => a * r + b) rs) = a * rsum rs + INR (length rs) * b.
Proof.
  unfold rsum. induction rs as [|r rs IH].
  - simpl. ring.
  - change (length (r :: rs)) with (S (length rs)). rewrite S_INR.
    cbn [List.map fold_right]. rewrite IH. ring.
Qed.

Lemma rsum_sq_rescaled a b m rs :
  rsum (List.map (fun r => (a * m + b - r) * (a * m + b - r))
                 (List.map (fun r => a * r + b) rs))
  = a * a * rsum (List.map (fun r => (m - r) * (m - r)) rs).
Proof.
  unfold rsum. induction rs as [|r rs IH]; cbn [List.map fold_right]; [ring|].
  rewrite IH. ring.
Qed.

(** The z-scores of a column are those of the column on another scale. *)
Lemma zscore_rescaled a b x :
  0 < a ->
  finite_or_missing x ->
  (2 <= length (List.filter notna x))%nat ->
  (exists u v, In u (List.filter notna x) /\ In v (List.filter notna x)
               /\ u <> v) ->
  zscore (List.map (rescale a b) x)
         (series_mean (List.map (rescale a b) x))
         (series_std (List.map (rescale a b) x))
  = zscore x (series_mean x) (series_std x).
Proof.
  intros Ha Hf Hlen (u & v & Hu & Hv & Huv).
  destruct (finite_or_missing_reals x Hf) as (rs & E).
  rewrite E in Hlen, Hu, Hv. rewrite List.length_map in Hlen.
  assert (Hne : rs <> []) by (destruct rs; [simpl in Hlen; lia | discriminate]).
  set (n := length rs) in *.
  set (m := rsum rs / INR n).
  set (SS := rsum (List.map (fun r => (m - r) * (m - r)) rs)).
  set (V := SS / INR (n - 1)).
  assert (Hn : INR n <> 0) by (apply not_0_INR; lia).
  assert (Hn1 : 0 < INR (n - 1)) by (apply lt_0_INR; lia).
  assert (HSS : 0 < SS).
  { apply rsum_sq_pos.
    apply List.in_map_iff in Hu as (ra & <- & Hra).
    apply List.in_map_iff in Hv as (rb & <- & Hrb).
    destruct (Req_dec_T ra m) as [Em|Em].
    - exists rb. split; [exact Hrb|]. intros Eb. apply Huv. congruence.
    - exists ra. split; [exact Hra | exact Em]. }
  assert (HV : 0 < V).
  { unfold V. apply Rmult_lt_0_compat; [exact HSS|].
    apply Rinv_0_lt_compat. exact Hn1. }
  assert (Hs : 0 < sqrt V) by (apply sqrt_lt_R0; exact HV).
  assert (Hmean : series_mean x = Fin m) by (apply series_mean_fin; assumption).
  assert (Hstd : series_std x = Fin (sqrt V))
    by (apply series_std_fin; assumption).
  pose proof (filter_notna_rescaled a b x rs E) as Ey.
  assert (Hly : length (List.map (fun r => a * r + b) rs) = n)
    by apply List.length_map.
  assert (Hyne : List.map (fun r => a * r + b) rs <> [])
    by (destruct rs; [congruence | discriminate]).
  assert (Hm' : rsum (List.map (fun r => a * r + b) rs) / INR n = a * m + b).
  { rewrite rsum_rescaled. fold n. unfold m. field. exact Hn. }
  assert (Hmean' : series_mean (List.map (rescale a b) x) = Fin (a * m + b)).
  { rewrite (series_mean_fin _ _ Ey Hyne), Hly, Hm'. reflexivity. }
  assert (Hstd' : series_std (List.map (rescale a b) x) = Fin (a * sqrt V)).
  { rewrite (series_std_fin _ _ Ey) by (rewrite Hly; exact Hlen).
    rewrite Hly, Hm', rsum_sq_rescaled. fold SS. f_equal.
    replace (a * a * SS / INR (n - 1)) with (a * a * V)
      by (unfold V; field; lra).
    assert (Haa : 0 <= a * a) by (apply Rmult_le_pos; lra).
    assert (HV0 : 0 <= V) by lra.
    rewrite (sqrt_mult _ _ Haa HV0), sqrt_square by lra. reflexivity. }
  rewrite Hmean, Hstd, Hmean', Hstd'.
  rewrite (zscore_fin x m (sqrt V) Hf) by lra.
  rewrite (zscore_fin _ (a * m + b) (a * sqrt V)
             (finite_or_missing_rescaled a b x Hf))
    by (apply Rgt_not_eq, Rmult_lt_0_compat; assumption).
  rewrite List.map_map. apply List.map_ext. intros w.
  destruct w as [| | |r];
    [reflexivity
    | unfold rescale; cbn [fmul]; destruct (fsign (Fin a)) as [[|]|]; reflexivity
    | unfold rescale; cbn [fmul]; destruct (fsign (Fin a)) as [[|]|]; reflexivity
    |].
  unfold rescale. cbn [fmul fadd]. unfold zcell. f_equal. field. split; lra.
Qed.

Local Close Scope R_scope.

(** X24.  The z-scores of an indicator do not depend on its unit: the same
    column on another scale (each value multiplied by a positive factor and
    shifted) is standardized to the same z-score column, in the exact
    arithmetic of the model. *)
Theorem zscores_do_not_depend_on_unit :
  forall (h h2 : heap) (r r2 : ref) (df df2 : DataFrame) (c : string)
         (x : list float) (a b : R),
    h !! r = Some df -> h2 !! r2 = Some df2 ->
    forallb (has_column df) DEBASEMENT_INDICATOR_COLUMNS = true ->
    forallb (has_column df2) DEBASEMENT_INDICATOR_COLUMNS = true ->
    In c DEBASEMENT_INDICATOR_COLUMNS ->
    get_column df c = Some x ->
    get_column df2 c = Some (List.map (rescale a b) x) ->
    (0 < a)%R ->
    finite_or_missing x ->
    (2 <= length (List.filter notna x))%nat ->
    (exists u v, In u (List.filter notna x) /\ In v (List.filter notna x)
                 /\ u <> v) ->
    exists df' df2' z,
      standardize_debasement_indicators r h = (Ok r, <[r:=df']> h)
      /\ standardize_debasement_indicators r2 h2 = (Ok r2, <[r2:=df2']> h2)
      /\ get_column df' (z_name c) = Some z
      /\ get_column df2' (z_name c) = Some z.
Proof.
  intros h h2 r r2 df df2 c x a b Hl Hl2 Hall Hall2 Hin Hx Hx2 Ha Hf Hlen Hdist.
  exists (standardized_frame df), (standardized_frame df2),
    (zscore x (series_mean x) (series_std x)).
  split; [apply standardize_debasement_indicators_run; assumption|].
  split; [apply standardize_debasement_indicators_run; assumption|].
  unfold standardized_frame.
  rewrite !(get_column_fold_z _ _ c Hin indicator_names_distinct z_names_are_new).
  unfold col. rewrite Hx, Hx2. split; [reflexivity|].
  f_equal. apply zscore_rescaled; assumption.
Qed.

(** ** The metadata of a pulled series *)

Lemma length_filter_split {A} (f : A -> bool) l :
  length l = (length (List.filter f l)
              + length (List.filter (fun x => negb (f x)) l))%nat.
Proof.
  induction l as [|a l IH]; [reflexivity|]. cbn [List.filter].
  destruct (f a); cbn [negb length]; lia.
Qed.

Lemma filter_map_values (f : float -> bool) (l : list (date * float)) :
  length (List.filter f (List.map snd l))
  = length (List.filter (fun p => f (snd p)) l).
Proof.
  induction l as [|p l IH]; [reflexivity|]. cbn [List.map List.filter].
  destruct (f (snd p)); cbn [length]; rewrite IH; reflexivity.
Qed.

(** X25.  The metadata written for a pulled series is consistent with the
    series: the two counts add up (observations = missing ones + present
    ones), the date range is absent exactly when the series is empty, and
    otherwise it is the span of the index: both ends are dates of the
    series, written as year-month-day, and every observation lies between
    them. *)
Theorem metadata_entry_describes_series :
  forall (name source identifier frequency filename pulled_at : string)
         (series : Series),
    let e := build_metadata_entry name source identifier frequency filename
                                  series pulled_at in
    (meta_n_nans e <= meta_n_obs e)%nat
    /\ meta_n_obs e
       = (meta_n_nans e + length (s_items (series_dropna series)))%nat
    /\ (meta_date_start e = None <-> meta_n_obs e = 0%nat)
    /\ (meta_date_end e = None <-> meta_n_obs e = 0%nat)
    /\ ((0 < meta_n_obs e)%nat ->
        exists dmin dmax,
          In dmin (s_index series) /\ In dmax (s_index series)
          /\ meta_date_start e = Some (strftime_ymd dmin)
          /\ meta_date_end e = Some (strftime_ymd dmax)
          /\ forall d, In d (s_index series) ->
               date_leb dmin d = true /\ date_leb d dmax = true).
Proof.
  intros name source identifier frequency filename pulled_at series e.
  subst e. cbn [build_metadata_entry meta_n_nans meta_n_obs meta_date_start
                meta_date_end].
  assert (Hsplit : length (s_items series)
                   = (length (List.filter isnan (s_values series))
                      + length (s_items (series_dropna series)))%nat).
  { unfold s_values, series_dropna. cbn [s_items].
    rewrite filter_map_values.
    apply (length_filter_split (fun p => isnan (snd p))). }
  split; [lia|]. split; [exact Hsplit|].
  unfold index_min, index_max, s_index.
  destruct (s_items series) as [|[d0 v0] rest] eqn:E; cbn [List.map fst length].
  - repeat split; try reflexivity. intros Hlt. lia.
  - split; [split; [discriminate | intros Hz; lia]|].
    split; [split; [discriminate | intros Hz; lia]|].
    intros _.
    destruct (date_min_spec (List.map fst rest) d0) as [Hmin Hminle].
    destruct (date_max_spec (List.map fst rest) d0) as [Hmax Hmaxle].
    exists (date_min d0 (List.map fst rest)), (date_max d0 (List.map fst rest)).
    split; [exact Hmin|]. split; [exact Hmax|].
    split; [reflexivity|]. split; [reflexivity|].
    intros d Hd. split; [apply Hminle | apply Hmaxle]; exact Hd.
Qed.

(** ** The properties on the sample data *)

Lemma resample_keeps_last_observation_witness :
  series_at (resample_daily_to_monthly_end sample_fed_funds) (mkDate 2015 1 31)
  = Fin 2.
Proof.
  refine (proj2 (resample_keeps_last_observation_of_month sample_fed_funds
                   [(mkDate 2015 1 29, Fin 1%R)]
                   [(mkDate 2015 2 27, Fin 2%R); (mkDate 2015 3 31, Fin 3%R)]
                   (mkDate 2015 1 30) (Fin 2%R) eq_refl eq_refl eq_refl _)).
  intros p [<-|[<-|[]]] Hm; vm_compute in Hm; discriminate.
Defined.

Lemma resample_spans_witness :
  s_index (resample_daily_to_monthly_end sample_tips)
  = [mkDate 2015 1 31; mkDate 2015 2 28; mkDate 2015 3 31]
  /\ series_at (resample_daily_to_monthly_end sample_tips) (mkDate 2015 2 28)
     = NaN.
Proof.
  destruct (resample_spans_first_to_last_month sample_tips (mkDate 2015 1 30)
              (Fin 1%R)
              [(mkDate 2015 2 27, NaN); (mkDate 2015 3 31, Fin 1%R)]
              eq_refl eq_refl) as [Hidx Hgap].
  - intros d Hd. simpl in Hd. destruct Hd as [<-|[<-|[<-|[]]]]; reflexivity.
  - split; [exact Hidx|].
    destruct (Hgap 24181) as [_ Hnan];
      [split; apply Z.leb_le; reflexivity | | exact Hnan].
    intros p [<-|[<-|[<-|[]]]] Hm; try reflexivity; vm_compute in Hm;
      discriminate.
Defined.

Lemma resample_idempotent_witness :
  resample_daily_to_monthly_end (resample_daily_to_monthly_end sample_fed_funds)
  = resample_daily_to_monthly_end sample_fed_funds.
Proof. exact (resample_idempotent sample_fed_funds eq_refl). Defined.

Lemma aligned_index_witness :
  strictly_increasing (List.map month_index (df_index sample_aligned)) = true
  /\ forall d, In d (df_index sample_aligned) -> is_month_end d.
Proof.
  destruct (@aligned_index_ascending_month_ends chord_slopes
              sample_m2 sample_cpi sample_gdp sample_fed_funds sample_tips
              sample_btc sample_sp500 sample_gold sample_aligned eq_refl)
    as (Hinc & Hme & _).
  split; [exact Hinc|]. intros d Hd. exact (proj1 (Hme d Hd)).
Defined.

Lemma interpolate_rejects_infinite_witness :
  @interpolate_gdp_to_monthly chord_slopes sample_gdp_infinite
  = Err (ValueError "`y` must contain only finite values.").
Proof.
  refine (proj1 (@interpolate_rejects_infinite_observation chord_slopes
                   sample_m2 sample_cpi sample_gdp_infinite sample_fed_funds
                   sample_tips sample_btc sample_sp500 sample_gold _ _)).
  - simpl. lia.
  - exists (mkDate 2015 4 1), PInf. split; [simpl; auto | left; reflexivity].
Defined.

Lemma interpolate_rejects_repeated_witness :
  @interpolate_gdp_to_monthly chord_slopes sample_gdp_repeated
  = Err (ValueError "`x` must be strictly increasing sequence.").
Proof.
  exact (proj1 (@interpolate_rejects_repeated_date chord_slopes
                  sample_m2 sample_cpi sample_gdp_repeated sample_fed_funds
                  sample_tips sample_btc sample_sp500 sample_gold
                  [] [] (mkDate 2015 1 1) (mkDate 2015 1 1) (Fin 50%R) (Fin 51%R)
                  eq_refl eq_refl eq_refl eq_refl eq_refl)).
Defined.


Lemma interpolation_never_extrapolates_witness :
  exists g dmin dmax,
    @interpolate_gdp_to_monthly chord_slopes sample_gdp = Ok g
    /\ In dmin (s_index sample_gdp) /\ In dmax (s_index sample_gdp)
    /\ forall d, In d (s_index g) ->
         timestamp dmin <= timestamp d <= timestamp dmax.
Proof.
  destruct sample_gdp_interpolates as (H1 & H2 & H3 & H4).
  destruct (@interpolation_never_extrapolates chord_slopes sample_gdp
              H1 H2 H3 H4) as (g & dmin & dmax & Hg & Hmin & Hmax & Hd).
  exists g, dmin, dmax. split; [exact Hg|]. split; [exact Hmin|].
  split; [exact Hmax|]. intros d Hin. exact (proj2 (proj2 (proj2 (Hd d Hin)))).
Defined.

Lemma interpolated_index_witness :
  exists g,
    @interpolate_gdp_to_monthly chord_slopes sample_gdp = Ok g
    /\ s_index g = [mkDate 2015 1 1; mkDate 2015 2 1; mkDate 2015 3 1;
                    mkDate 2015 4 1].
Proof.
  destruct sample_gdp_interpolates as (H1 & H2 & H3 & _).
  destruct (@interpolated_index_covers_observed_range chord_slopes sample_gdp
              H1 H2 H3)
    as (g & dmin & dmax & Hg & Hmin & Hmax & Hbounds & Hidx & _).
  - intros d Hd. simpl in Hd. destruct Hd as [<-|[<-|[]]]; split; reflexivity.
  - exists g. split; [exact Hg|]. rewrite Hidx.
    destruct (Hbounds (mkDate 2015 1 1)) as [Hlo _]; [simpl; auto|].
    destruct (Hbounds (mkDate 2015 4 1)) as [_ Hhi]; [simpl; auto|].
    simpl in Hmin, Hmax.
    destruct Hmin as [<-|[<-|[]]]; destruct Hmax as [<-|[<-|[]]];
      try discriminate Hlo; try discriminate Hhi; reflexivity.
Defined.

Lemma debasement_indicators_lookback_witness :
  exists r' h' out,
    compute_debasement_indicators 0%nat [aligned_14] = (Ok r', h')
    /\ h' !! r' = Some out
    /\ cell out "m2_yoy_pct" 11 = NaN.
Proof.
  destruct (debasement_indicators_lookback [aligned_14] 0%nat aligned_14
              eq_refl eq_refl eq_refl eq_refl)
    as (r' & h' & out & Hrun & Hout & _ & Hcells).
  exists r', h', out. split; [exact Hrun|]. split; [exact Hout|].
  exact (proj1 (Hcells 11%nat ltac:(lia))).
Defined.

Lemma debasement_indicators_formulas_witness :
  exists r' h' out,
    compute_debasement_indicators 0%nat [aligned_14] = (Ok r', h')
    /\ h' !! r' = Some out
    /\ cell out "m2_yoy_pct" 12 = Fin ((2 / 1 - 1) * 100)
    /\ cell out "m2_to_gdp" 13 = Fin (3 / 1).
Proof.
  destruct (debasement_indicators_formulas [aligned_14] 0%nat aligned_14
              (flat 1 12 ++ [Fin 2%R; Fin 3%R])%list
              (flat 1 12 ++ [Fin 2%R; Fin 1%R])%list (flat 1 14)
              eq_refl eq_refl eq_refl eq_refl eq_refl eq_refl)
    as (r' & h' & out & Hrun & Hout & Hm2 & _ & _ & _ & Hratio).
  exists r', h', out. split; [exact Hrun|]. split; [exact Hout|]. split.
  - apply (Hm2 12%nat); [lia | reflexivity | reflexivity | lra].
  - apply (Hratio 13%nat); [reflexivity | reflexivity | lra].
Defined.

Lemma dropping_stages_mutate_witness :
  exists r' h' mutated,
    compute_debasement_indicators 0%nat [aligned_14] = (Ok r', h')
    /\ r' <> 0%nat
    /\ h' !! 0%nat = Some mutated
    /\ has_column mutated "m2_yoy_pct" = true
    /\ has_column mutated "m2" = true.
Proof.
  destruct (proj1 (dropping_stages_mutate_their_argument [aligned_14] 0%nat
                     aligned_14 eq_refl) eq_refl eq_refl eq_refl)
    as (r' & h' & mutated & out & Hrun & Hne & Hold & _ & Hcols & _).
  exists r', h', mutated. split; [exact Hrun|]. split; [exact Hne|].
  split; [exact Hold|]. split; apply Hcols; simpl; auto 10.
Defined.

Lemma asset_returns_formula_witness :
  exists r' h' out,
    compute_asset_returns 0%nat [aligned_14] = (Ok r', h')
    /\ h' !! r' = Some out
    /\ cell out "btc_return_monthly" 0 = NaN
    /\ cell out "btc_return_monthly" 1 = Fin (ln (1 / 1)).
Proof.
  destruct (asset_returns_formula [aligned_14] 0%nat aligned_14 "btc"
              (flat 1 14) eq_refl eq_refl eq_refl eq_refl
              (or_introl eq_refl) eq_refl)
    as (r' & h' & out & Hrun & Hout & Hfirst & Hrow).
  exists r', h', out. split; [exact Hrun|]. split; [exact Hout|].
  split; [exact Hfirst|].
  apply (Hrow 0%nat); [reflexivity | reflexivity | lra | lra].
Defined.

Lemma log_returns_add_up_witness :
  exists r' h' out ret,
    compute_asset_returns 0%nat [aligned_14] = (Ok r', h')
    /\ h' !! r' = Some out
    /\ get_column out "gold_return_monthly" = Some ret
    /\ fsum (firstn 2 (skipn 1 ret)) = Fin (ln (1 / 1)).
Proof.
  refine (log_returns_add_up [aligned_14] 0%nat aligned_14 "gold"
            (flat 1 14) 0%nat 2%nat 1%R 1%R eq_refl eq_refl eq_refl eq_refl
            (or_intror (or_intror (or_introl eq_refl))) eq_refl eq_refl eq_refl _).
  intros k Hk. exists 1%R. split; [|lra].
  assert (Hc : k = 0%nat \/ k = 1%nat \/ k = 2%nat) by lia.
  destruct Hc as [->|[->| ->]]; reflexivity.
Defined.

Lemma spread_features_formula_witness :
  exists df',
    compute_spread_features 0%nat [returns_sample] = (Ok 0%nat, [df'])
    /\ cell df' "btc_vs_cash_real_spread" 0 = Fin (3 - 1)
    /\ cell df' "btc_vs_cash_real_spread" 1 = NaN.
Proof.
  destruct (spread_features_formula [returns_sample] 0%nat returns_sample
              [Fin 3%R; NaN] [Fin 2%R; Fin 1%R] [Fin 1%R; Fin 2%R]
              [Fin 1%R; Fin 1%R]
              eq_refl eq_refl eq_refl eq_refl eq_refl eq_refl eq_refl eq_refl)
    as (df' & Hrun & Hcells & Hfin & _).
  exists df'. split; [exact Hrun|]. split.
  - exact (proj1 (Hfin 0%nat 3%R 2%R 1%R eq_refl eq_refl eq_refl)).
  - exact (proj1 (Hcells 1%nat)).
Defined.

Lemma standardize_needs_two_values_witness :
  exists df' z,
    standardize_debasement_indicators 0%nat [indicators_frame_short]
    = (Ok 0%nat, [df'])
    /\ get_column df' "z_m2_yoy_pct" = Some z
    /\ nth 1 z NaN = NaN.
Proof.
  destruct (standardize_needs_two_values [indicators_frame_short] 0%nat
              indicators_frame_short "m2_yoy_pct" [NaN; Fin 1%R]
              eq_refl eq_refl (or_introl eq_refl) eq_refl)
    as (_ & df' & z & Hrun & Hz & _ & Hnan).
  - simpl. lia.
  - exists df', z. split; [exact Hrun|]. split; [exact Hz | apply Hnan].
Defined.

Lemma composite_score_witness :
  exists df',
    compute_zscore_composite_debasement_score 0%nat [zscores_frame]
    = (Ok 0%nat, [df'])
    /\ cell df' "zscore_composite_debasement_score" 0 = Fin 2
    /\ cell df' "zscore_composite_debasement_score" 1 = Fin ((1 + 2 + 3 + 6) / 4)
    /\ cell df' "zscore_composite_debasement_score" 2 = NaN.
Proof.
  destruct (composite_score_skips_missing [zscores_frame] 0%nat zscores_frame
              eq_refl eq_refl) as (df' & Hrun & _ & Hrows).
  exists df'. split; [exact Hrun|]. split; [|split].
  - destruct (Hrows 0%nat) as (_ & _ & Hone & _);
      [unfold nrows, zscores_frame; simpl; lia|].
    apply Hone; reflexivity.
  - destruct (Hrows 1%nat) as (_ & Hall & _);
      [unfold nrows, zscores_frame; simpl; lia|].
    apply Hall; reflexivity.
  - destruct (Hrows 2%nat) as (_ & _ & _ & Hnone);
      [unfold nrows, zscores_frame; simpl; lia|].
    apply Hnone; reflexivity.
Defined.

Lemma stage_succeeds_witness :
  exists r' h', run_stage CashRealReturn 0%nat [rates_frame] = (Ok r', h').
Proof.
  exact (proj2 (stage_succeeds_iff_columns_present CashRealReturn [rates_frame]
                  0%nat rates_frame eq_refl) eq_refl).
Defined.

Lemma aligned_14_rectangular : rectangular aligned_14.
Proof. unfold rectangular. repeat constructor. Defined.

Lemma analysis_frame_no_missing_witness :
  exists r' h' out,
    build_analysis_dataframe 0%nat [aligned_14] = (Ok r', h')
    /\ h' !! r' = Some out
    /\ rectangular out
    /\ forall c v x, In (c, v) (df_columns out) -> In x v -> isnan x = false.
Proof.
  destruct (analysis_frame_has_no_missing_cell [aligned_14] 0%nat aligned_14
              eq_refl aligned_14_rectangular eq_refl)
    as (r' & h' & out & Hrun & Hout & Hnan & Hrect & _).
  exists r', h', out. split; [exact Hrun|]. split; [exact Hout|].
  split; [exact Hrect | exact Hnan].
Defined.

Lemma analysis_frame_drops_first_year_witness :
  exists r' h' out,
    build_analysis_dataframe 0%nat [aligned_14] = (Ok r', h')
    /\ h' !! r' = Some out
    /\ (nrows out <= 2)%nat
    /\ forall d, In d (df_index out) ->
                 In d [mkDate 2016 1 31; mkDate 2016 2 29].
Proof.
  destruct (analysis_frame_drops_first_year [aligned_14] 0%nat aligned_14
              eq_refl aligned_14_rectangular eq_refl)
    as (r' & h' & out & Hrun & Hout & Hin & Hn & _).
  exists r', h', out. split; [exact Hrun|]. split; [exact Hout|].
  split; [exact Hn | exact Hin].
Defined.

Lemma untouched_columns_witness :
  exists r' h' out mask,
    build_analysis_dataframe 0%nat [aligned_14] = (Ok r', h')
    /\ h' !! r' = Some out
    /\ get_column out "tips_real_yield_10y" = Some (select mask (flat 1 14)).
Proof.
  destruct (untouched_columns_pass_through [aligned_14] 0%nat aligned_14
              "tips_real_yield_10y" (flat 1 14) eq_refl eq_refl eq_refl eq_refl)
    as (r' & h' & out & mask & Hrun & Hout & _ & Hcol & _).
  exists r', h', out, mask. split; [exact Hrun|]. split; [exact Hout|].
  exact Hcol.
Defined.


Lemma aligned_cells_witness :
  cell sample_aligned "fed_funds_rate" 0 = Fin 2
  /\ cell sample_aligned "btc_price" 1 = Fin 240.
Proof.
  assert (Hasc : List.Forall (fun s => ascending (s_index s) = true)
                   [sample_m2; sample_cpi; sample_fed_funds; sample_tips;
                    sample_btc; sample_sp500; sample_gold])
    by (repeat constructor).
  pose proof (@aligned_cells_are_month_end_closes chord_slopes
                sample_m2 sample_cpi sample_gdp sample_fed_funds sample_tips
                sample_btc sample_sp500 sample_gold sample_aligned Hasc eq_refl)
    as Hcells.
  split.
  - destruct (Hcells 0%nat) as (_ & _ & Hff & _);
      [unfold nrows; rewrite sample_aligned_index; simpl; lia|].
    rewrite Hff, sample_aligned_index. reflexivity.
  - destruct (Hcells 1%nat) as (_ & _ & _ & _ & Hbtc & _);
      [unfold nrows; rewrite sample_aligned_index; simpl; lia|].
    rewrite Hbtc, sample_aligned_index. reflexivity.
Defined.

Lemma zscores_unit_witness :
  exists df' df2' z,
    standardize_debasement_indicators 0%nat [indicators_frame]
    = (Ok 0%nat, [df'])
    /\ standardize_debasement_indicators 0%nat [indicators_frame_rescaled]
       = (Ok 0%nat, [df2'])
    /\ get_column df' "z_m2_yoy_pct" = Some z
    /\ get_column df2' "z_m2_yoy_pct" = Some z.
Proof.
  refine (zscores_do_not_depend_on_unit [indicators_frame]
            [indicators_frame_rescaled] 0%nat 0%nat indicators_frame
            indicators_frame_rescaled "m2_yoy_pct" [NaN; Fin 1%R; Fin 3%R]
            100%R 0%R eq_refl eq_refl eq_refl eq_refl (or_introl eq_refl)
            eq_refl eq_refl _ eq_refl _ _).
  - lra.
  - simpl. lia.
  - exists (Fin 1%R), (Fin 3%R). simpl.
    split; [auto|]. split; [auto|]. intros [= E]. lra.
Defined.
